(** * Authentication and session lifecycle of the e-commerce backend

    A shallow embedding of [src/auth/auth.service.ts] (class [AuthService])
    and of the part of [src/users/users.service.ts] it calls, over the four
    TypeORM entities [User], [PreRegistration], [RefreshToken] and
    [PasswordResetToken].

    - A table is the list of its rows in insertion order; [findOne] returns
      the first row that satisfies the [where] clause.
    - An [async] method is a computation in the monad [M]: it threads the
      store and ends in a returned value or a thrown exception.  What a
      method wrote before it threw stays written, as in the source, where no
      method opens a transaction.
    - What a call reads from outside the store (the clock, [randomBytes], the
      bcrypt salt, and whether a collaborator call that the source wraps in
      [try]/[catch] fails) is the [Env] of that call.
    - [sha256], [bcrypt] and [jwtService.sign] are the operations of the
      class [Crypto]; nothing is assumed about them.
    - The stores the service reaches are those obtained from the empty
      store by calls of its public methods; where a property needs the
      random tokens to be new, the calls are those whose token has a digest
      that is not in the store ([fresh]).
    - The callers of the service come after it: the handlers of
      [AuthController], which end in a body, a redirect or an exception
      given to [AllExceptionsFilter]; [JwtStrategy.validate] with
      [UsersService.findById]; [RolesGuard]; and the masks that
      [AuditService] and the filter put on what they queue and log. *)

From Stdlib Require Import List String Ascii ZArith Bool Arith Lia.
Import ListNotations.

Local Open Scope string_scope.
Local Open Scope list_scope.
Local Open Scope Z_scope.

(** ** Entities *)

(** [UserRole] of [user.entity.ts]. *)
Inductive UserRole := CUSTOMER | ADMIN.

(** Timestamps are milliseconds since the epoch, as [Date.getTime()] gives
    them; [a < b] on two [Date]s compares these numbers. *)
Definition Date := Z.

(** Primary keys are generated by the store; the n-th generated key is [n]. *)
Definition Uuid := nat.

Module User.
(** [users]: the columns the authentication service reads or writes, with
    [disabled] and the soft-delete marker [deleted_at]. *)
Record t := {
  id : Uuid;
  email : string;
  password_hash : string;
  full_name : option string;
  is_email_verified : bool;
  role : UserRole;
  disabled : bool;
  deleted_at : option Date
}.

Definition with_password_hash (h : string) (u : t) : t :=
  {| id := id u; email := email u; password_hash := h;
     full_name := full_name u; is_email_verified := is_email_verified u;
     role := role u; disabled := disabled u; deleted_at := deleted_at u |}.
End User.

Module PreRegistration.
(** [pre_registrations]. *)
Record t := {
  id : Uuid;
  email : string;
  password_hash : string;
  full_name : option string;
  verification_token_hash : string;
  expires_at : Date;
  ip : string;
  user_agent : string
}.
End PreRegistration.

Module RefreshToken.
(** [refresh_tokens]; [user_id] is the join column of the [user] relation. *)
Record t := {
  id : Uuid;
  user_id : Uuid;
  token_hash : string;
  device_id : string;
  ip : string;
  user_agent : string;
  last_seen_at : option Date;
  expires_at : Date;
  is_revoked : bool
}.

Definition with_is_revoked (b : bool) (r : t) : t :=
  {| id := id r; user_id := user_id r; token_hash := token_hash r;
     device_id := device_id r; ip := ip r; user_agent := user_agent r;
     last_seen_at := last_seen_at r; expires_at := expires_at r;
     is_revoked := b |}.

Definition with_last_seen_at (d : option Date) (r : t) : t :=
  {| id := id r; user_id := user_id r; token_hash := token_hash r;
     device_id := device_id r; ip := ip r; user_agent := user_agent r;
     last_seen_at := d; expires_at := expires_at r;
     is_revoked := is_revoked r |}.
End RefreshToken.

Module PasswordResetToken.
(** [password_reset_tokens]. *)
Record t := {
  id : Uuid;
  token_hash : string;
  user_id : Uuid;
  expires_at : Date;
  used : bool
}.

Definition with_used (b : bool) (r : t) : t :=
  {| id := id r; token_hash := token_hash r; user_id := user_id r;
     expires_at := expires_at r; used := b |}.
End PasswordResetToken.

(** ** Collaborators: audit queue and mailer *)

(** The members of [AuditAction] the service uses. *)
Inductive AuditAction :=
| EMAIL_SEND_FAILED | REGISTER_REQUEST | EMAIL_VERIFIED
| LOGIN_FAILED | LOGIN_SUCCESS | REFRESH | LOGOUT | TOKEN_REVOKED
| PASSWORD_RESET_REQUEST | PASSWORD_RESET_COMPLETED.

Record AuditPayload := { action : AuditAction; userId : option Uuid }.

Inductive Mail :=
| VerificationEmail (to token : string)
| PasswordResetEmail (to token : string).

(** ** The store *)

Record Store := {
  users : list User.t;
  pre_registrations : list PreRegistration.t;
  refresh_tokens : list RefreshToken.t;
  password_reset_tokens : list PasswordResetToken.t;
  next_id : Uuid;
  auditQueue : list AuditPayload;
  outbox : list Mail
}.

Definition empty_store : Store :=
  {| users := []; pre_registrations := []; refresh_tokens := [];
     password_reset_tokens := [];
     next_id := 0%nat; auditQueue := []; outbox := [] |}.

Definition set_users (f : list User.t -> list User.t) (s : Store) : Store :=
  {| users := f (users s); pre_registrations := pre_registrations s;
     refresh_tokens := refresh_tokens s;
     password_reset_tokens := password_reset_tokens s;
     next_id := next_id s; auditQueue := auditQueue s; outbox := outbox s |}.

Definition set_pre_registrations (f : list PreRegistration.t -> list PreRegistration.t)
    (s : Store) : Store :=
  {| users := users s; pre_registrations := f (pre_registrations s);
     refresh_tokens := refresh_tokens s;
     password_reset_tokens := password_reset_tokens s;
     next_id := next_id s; auditQueue := auditQueue s; outbox := outbox s |}.

Definition set_refresh_tokens (f : list RefreshToken.t -> list RefreshToken.t)
    (s : Store) : Store :=
  {| users := users s; pre_registrations := pre_registrations s;
     refresh_tokens := f (refresh_tokens s);
     password_reset_tokens := password_reset_tokens s;
     next_id := next_id s; auditQueue := auditQueue s; outbox := outbox s |}.

Definition set_password_reset_tokens
    (f : list PasswordResetToken.t -> list PasswordResetToken.t)
    (s : Store) : Store :=
  {| users := users s; pre_registrations := pre_registrations s;
     refresh_tokens := refresh_tokens s;
     password_reset_tokens := f (password_reset_tokens s);
     next_id := next_id s; auditQueue := auditQueue s; outbox := outbox s |}.

Definition bump_id (s : Store) : Store :=
  {| users := users s; pre_registrations := pre_registrations s;
     refresh_tokens := refresh_tokens s;
     password_reset_tokens := password_reset_tokens s;
     next_id := S (next_id s); auditQueue := auditQueue s; outbox := outbox s |}.

Definition push_audit (a : AuditPayload) (s : Store) : Store :=
  {| users := users s; pre_registrations := pre_registrations s;
     refresh_tokens := refresh_tokens s;
     password_reset_tokens := password_reset_tokens s;
     next_id := next_id s; auditQueue := auditQueue s ++ [a];
     outbox := outbox s |}.

Definition push_mail (m : Mail) (s : Store) : Store :=
  {| users := users s; pre_registrations := pre_registrations s;
     refresh_tokens := refresh_tokens s;
     password_reset_tokens := password_reset_tokens s;
     next_id := next_id s; auditQueue := auditQueue s;
     outbox := outbox s ++ [m] |}.

(** ** Exceptions and responses *)

(** The Nest HTTP exceptions the service throws, with their message, and the
    raw errors it can meet: a failed query, a failed send, and the
    [TypeError] of reading a property of [null]. *)
Inductive Exception :=
| ConflictException (msg : string)
| UnauthorizedException (msg : string)
| NotFoundException (msg : string)
| BadRequestException (msg : string)
| InternalServerErrorException (msg : string)
| QueryFailedError
| MailerError
| TypeError.

(** The object literals the methods return. *)
Inductive Response :=
| Message (message : string)
| Success (success : bool) (message : string)
| Tokens (accessToken refreshToken : string) (expiresIn : Z)
| Refreshed (success : bool) (message : string)
            (accessToken refreshToken : string) (expiresIn : Z)
| ValidReset (valid : bool) (email : string).

(** ** What a call reads from outside the store *)

(** One call reads the clock at one instant [now]: the few milliseconds
    between two [new Date()] of the same call are not modelled.  The flags
    say which of the collaborator calls that the source wraps in
    [try]/[catch] reject during the call. *)
Record Env := {
  now : Date;                     (* new Date(), Date.now() *)
  random_hex : string;            (* randomBytes(n).toString('hex') *)
  salt : string;                  (* the salt bcrypt.hash draws *)
  mail_fails : bool;              (* mailerService.send... rejects *)
  user_save_fails : bool;         (* userRepository.save rejects *)
  invalidate_fails : bool;        (* passwordResetRepo.update rejects *)
  token_save_fails : bool;        (* passwordResetRepo.save(prToken) rejects *)
  update_password_fails : bool;   (* userRepository.update rejects *)
  mark_used_fails : bool;         (* passwordResetRepo.save(stored) rejects *)
  revoke_all_fails : bool         (* refreshTokenRepo.update rejects *)
}.

(** ** The monad of service methods *)

Inductive Outcome (A : Type) :=
| Return (a : A)
| Throw (e : Exception).
Arguments Return {A} a.
Arguments Throw {A} e.

Definition M (A : Type) : Type := Store -> Store * Outcome A.

Definition ret {A} (a : A) : M A := fun s => (s, Return a).

Definition throw {A} (e : Exception) : M A := fun s => (s, Throw e).

Definition bind {A B} (m : M A) (k : A -> M B) : M B :=
  fun s =>
    match m s with
    | (s1, Return a) => k a s1
    | (s1, Throw e) => (s1, Throw e)
    end.

Definition try_catch {A} (m : M A) (handler : Exception -> M A) : M A :=
  fun s =>
    match m s with
    | (s1, Return a) => (s1, Return a)
    | (s1, Throw e) => handler e s1
    end.

Definition gets {A} (f : Store -> A) : M A := fun s => (s, Return (f s)).

Definition modify (f : Store -> Store) : M unit := fun s => (f s, Return tt).

(** A collaborator call that rejects with [err], leaving the store as it
    was, when [fails]. *)
Definition rejecting {A} (fails : bool) (err : Exception) (m : M A) : M A :=
  fun s => if fails then (s, Throw err) else m s.

Notation "x <- m ;; k" := (bind m (fun x => k))
  (at level 61, m at next level, right associativity).
Notation "m ;;; k" := (bind m (fun _ => k))
  (at level 61, right associativity).

(** ** Strings *)

(** [String.prototype.toLowerCase] on ASCII text. *)
Definition lower_ascii (c : ascii) : ascii :=
  let n := nat_of_ascii c in
  if ((65 <=? n) && (n <=? 90))%nat then ascii_of_nat (n + 32) else c.

Fixpoint toLowerCase (s : string) : string :=
  match s with
  | EmptyString => EmptyString
  | String c r => String (lower_ascii c) (toLowerCase r)
  end.

Definition is_null {A} (o : option A) : bool :=
  match o with None => true | Some _ => false end.

(** ** Rows *)

(** The table after [x] is written over the row that has its primary key. *)
Definition save_row {A} (key : A -> Uuid) (x : A) (rows : list A) : list A :=
  map (fun r => if (key r =? key x)%nat then x else r) rows.

(** ** Cryptographic primitives *)

Class Crypto := {
  (** [createHash('sha256').update(x).digest('hex')]. *)
  sha256 : string -> string;
  (** [bcrypt.hash(plain, 12)], with the salt it draws made explicit. *)
  bcrypt_hash : string -> string -> string;
  (** [bcrypt.compare(plain, hash)]. *)
  bcrypt_compare : string -> string -> bool;
  (** [jwtService.sign] of the payload [{ sub, roles: [role], device_id }]. *)
  jwt_sign : Uuid -> UserRole -> string -> string
}.

Section Service.

Context {crypto : Crypto}.

(** [auditService.enqueueLog]: catches its own failures and never throws. *)
Definition enqueueLog (a : AuditAction) (uid : option Uuid) : M unit :=
  modify (push_audit {| action := a; userId := uid |}).

(** The next generated primary key. *)
Definition generated_id : M Uuid :=
  fun s => (bump_id s, Return (next_id s)).

(** *** UsersService *)

(** [userRepository.findOne({ where: { email } })]; a row whose
    [@DeleteDateColumn] is set is not returned by [find*]. *)
Definition findByEmail (email : string) : M (option User.t) :=
  gets (fun s =>
    find (fun u => is_null (User.deleted_at u) && (User.email u =? email)%string)
         (users s)).

(** [userRepository.save(user)] of a new row: rejects when told to, or when
    the [unique] constraint on [email] is violated. *)
Definition userRepository_save (e : Env) (email password_hash : string)
    (full_name : option string) (verified : bool) : M User.t :=
  taken <- gets (fun s =>
    existsb (fun u => (User.email u =? email)%string) (users s)) ;;
  rejecting (user_save_fails e || taken) QueryFailedError
    (i <- generated_id ;;
     let user := {| User.id := i; User.email := email;
                    User.password_hash := password_hash;
                    User.full_name := full_name;
                    User.is_email_verified := verified;
                    User.role := CUSTOMER; User.disabled := false;
                    User.deleted_at := None |} in
     modify (set_users (fun us => us ++ [user])) ;;;
     ret user).

Definition createUser (e : Env) (email password_hash : string)
    (full_name : option string) (is_email_verified : option bool) : M User.t :=
  existing <- findByEmail email ;;
  match existing with
  | Some _ => throw (ConflictException "Email already exists")
  | None =>
      try_catch
        (userRepository_save e email password_hash full_name
           (match is_email_verified with Some b => b | None => false end))
        (fun _ => throw (InternalServerErrorException "Failed to create user"))
  end.

Definition updatePassword (e : Env) (userId : Uuid) (newPasswordHash : string)
    : M unit :=
  try_catch
    (rejecting (update_password_fails e) QueryFailedError
       (modify (set_users (map (fun u =>
          if (User.id u =? userId)%nat
          then User.with_password_hash newPasswordHash u else u)))))
    (fun _ => throw (InternalServerErrorException "Failed to update password")).

(** *** Repository calls of AuthService *)

(** [repo.save(entity)] of a loaded entity writes the entity over the row
    that has its primary key. *)
Definition save_refreshToken (tok : RefreshToken.t) : M unit :=
  modify (set_refresh_tokens (save_row RefreshToken.id tok)).

Definition save_preReg (p : PreRegistration.t) : M unit :=
  modify (set_pre_registrations (save_row PreRegistration.id p)).

Definition save_passwordReset (t : PasswordResetToken.t) : M unit :=
  modify (set_password_reset_tokens (save_row PasswordResetToken.id t)).

(** [mailerService.sendVerificationEmail], [sendPasswordResetEmail]. *)
Definition sendVerificationEmail (e : Env) (to token : string) : M unit :=
  rejecting (mail_fails e) MailerError
    (modify (push_mail (VerificationEmail to token))).

Definition sendPasswordResetEmail (e : Env) (to token : string) : M unit :=
  rejecting (mail_fails e) MailerError
    (modify (push_mail (PasswordResetEmail to token))).

(** *** 7. generateTokens *)

Definition generateTokens (e : Env) (userId : Uuid) (role : UserRole)
    (device_id ip user_agent : string) : M Response :=
  let accessToken := jwt_sign userId role device_id in
  let refreshTokenPlain := random_hex e in
  let refreshTokenHash := sha256 refreshTokenPlain in
  i <- generated_id ;;
  modify (set_refresh_tokens (fun rs => rs ++ [
    {| RefreshToken.id := i; RefreshToken.user_id := userId;
       RefreshToken.token_hash := refreshTokenHash;
       RefreshToken.device_id := device_id;
       RefreshToken.ip := ip; RefreshToken.user_agent := user_agent;
       RefreshToken.last_seen_at := None;
       RefreshToken.expires_at := now e + 7 * 24 * 60 * 60 * 1000;
       RefreshToken.is_revoked := false |} ])) ;;;
  ret (Tokens accessToken refreshTokenPlain 900).

(** *** 1. register *)

Definition register (e : Env) (dto_email dto_password : string)
    (dto_full_name : option string) (ip user_agent : string) : M Response :=
  existingUser <- findByEmail (toLowerCase dto_email) ;;
  match existingUser with
  | Some _ => throw (ConflictException "Email already in use")
  | None =>
    let passwordHash := bcrypt_hash (salt e) dto_password in
    let token := random_hex e in
    let tokenHash := sha256 token in
    let expiresAt := now e + 60 * 60 * 1000 in
    preReg <- gets (fun s =>
      find (fun p => (PreRegistration.email p =? toLowerCase dto_email)%string)
           (pre_registrations s)) ;;
    match preReg with
    | Some p =>
      save_preReg
        {| PreRegistration.id := PreRegistration.id p;
           PreRegistration.email := PreRegistration.email p;
           PreRegistration.password_hash := passwordHash;
           PreRegistration.full_name :=
             Some (match dto_full_name with Some n => n | None => "" end);
           PreRegistration.verification_token_hash := tokenHash;
           PreRegistration.expires_at := expiresAt;
           PreRegistration.ip := ip;
           PreRegistration.user_agent := user_agent |} ;;;
      try_catch (sendVerificationEmail e dto_email token)
        (fun _ => throw (InternalServerErrorException
           "Failed to send verification email. Please try again later.")) ;;;
      ret (Message "Verification email resent. Please check your inbox.")
    | None =>
      i <- generated_id ;;
      modify (set_pre_registrations (fun ps => ps ++ [
        {| PreRegistration.id := i;
           PreRegistration.email := toLowerCase dto_email;
           PreRegistration.password_hash := passwordHash;
           PreRegistration.full_name := dto_full_name;
           PreRegistration.verification_token_hash := tokenHash;
           PreRegistration.expires_at := expiresAt;
           PreRegistration.ip := ip;
           PreRegistration.user_agent := user_agent |} ])) ;;;
      try_catch (sendVerificationEmail e dto_email token)
        (fun _ =>
           enqueueLog EMAIL_SEND_FAILED None ;;;
           throw (InternalServerErrorException
             "Failed to send verification email. Please try again later.")) ;;;
      enqueueLog REGISTER_REQUEST None ;;;
      ret (Message "Verification email sent")
    end
  end.

(** *** 2. verifyEmail *)

Definition verifyEmail (e : Env) (token : string) : M Response :=
  let tokenHash := sha256 token in
  preReg <- gets (fun s =>
    find (fun p => (PreRegistration.verification_token_hash p =? tokenHash)%string)
         (pre_registrations s)) ;;
  match preReg with
  | None => throw (ConflictException "Invalid or expired token")
  | Some p =>
    if PreRegistration.expires_at p <? now e
    then throw (ConflictException "Token expired")
    else
      user <- createUser e (PreRegistration.email p)
                (PreRegistration.password_hash p)
                (PreRegistration.full_name p) (Some true) ;;
      modify (set_pre_registrations (filter (fun r =>
        negb (PreRegistration.id r =? PreRegistration.id p)%nat))) ;;;
      enqueueLog EMAIL_VERIFIED (Some (User.id user)) ;;;
      ret (Success true "Email successfully verified")
  end.

(** *** 3. login *)

Definition login (e : Env) (email password device_id ip user_agent : string)
    : M Response :=
  user <- findByEmail (toLowerCase email) ;;
  match user with
  | None => throw (UnauthorizedException "Invalid credentials")
  | Some u =>
    if negb (User.is_email_verified u)
    then throw (UnauthorizedException "Email not verified")
    else if negb (bcrypt_compare password (User.password_hash u))
    then
      enqueueLog LOGIN_FAILED None ;;;
      throw (UnauthorizedException "Invalid credentials")
    else
      enqueueLog LOGIN_SUCCESS (Some (User.id u)) ;;;
      generateTokens e (User.id u) (User.role u) device_id ip user_agent
  end.

(** *** 4. refreshTokens *)

(** The [user] relation of a row, loaded with [relations: ['user']]. *)
Definition user_relation (uid : Uuid) (s : Store) : option User.t :=
  find (fun u => (User.id u =? uid)%nat) (users s).

(** What
    [findOne({ where: { token_hash, device_id, is_revoked: false },
    relations: ['user'] })] reads in the store [s]. *)
Definition storedTokenIn (refreshTokenHash device_id : string) (s : Store)
    : option (RefreshToken.t * option User.t) :=
  match find (fun r =>
          (RefreshToken.token_hash r =? refreshTokenHash)%string
          && (RefreshToken.device_id r =? device_id)%string
          && negb (RefreshToken.is_revoked r)) (refresh_tokens s) with
  | Some r => Some (r, user_relation (RefreshToken.user_id r) s)
  | None => None
  end.

(** The first [await] of [refreshTokens]. *)
Definition findStoredToken (refreshTokenHash device_id : string)
    : M (option (RefreshToken.t * option User.t)) :=
  gets (storedTokenIn refreshTokenHash device_id).

(** The rest of [refreshTokens], run on the entity the lookup returned. *)
Definition rotateStoredToken (e : Env) (device_id : string)
    (storedToken : option (RefreshToken.t * option User.t)) : M Response :=
  match storedToken with
  | None => throw (UnauthorizedException "Invalid or revoked refresh token")
  | Some (tok, user) =>
    if RefreshToken.expires_at tok <? now e
    then throw (UnauthorizedException "Refresh token expired")
    else if match RefreshToken.last_seen_at tok with
            | Some seen => now e - seen <? 10 * 1000
            | None => false
            end
    then throw (BadRequestException "Refresh requested too soon")
    else
      save_refreshToken
        (RefreshToken.with_last_seen_at (Some (now e))
           (RefreshToken.with_is_revoked true tok)) ;;;
      match user with
      | None => throw TypeError
      | Some u =>
        enqueueLog REFRESH (Some (User.id u)) ;;;
        newTokens <- generateTokens e (User.id u) (User.role u) device_id
                       (RefreshToken.ip tok) (RefreshToken.user_agent tok) ;;
        match newTokens with
        | Tokens a r x =>
            ret (Refreshed true "Tokens refreshed successfully" a r x)
        | other => ret other
        end
      end
  end.

Definition refreshTokens (e : Env) (refreshTokenPlain device_id : string)
    : M Response :=
  storedToken <- findStoredToken (sha256 refreshTokenPlain) device_id ;;
  rotateStoredToken e device_id storedToken.

(** Two calls of [refreshTokens] with the same arguments on one event loop,
    in the schedule where each has reached its first [await] (the lookup)
    before either resumes: both lookups read the store [s], then the first
    call runs to its end, then the second. *)
Definition racingRefreshTokens (e1 e2 : Env)
    (refreshTokenPlain device_id : string) (s : Store)
    : Store * (Outcome Response * Outcome Response) :=
  let stored1 := storedTokenIn (sha256 refreshTokenPlain) device_id s in
  let stored2 := storedTokenIn (sha256 refreshTokenPlain) device_id s in
  let (s1, o1) := rotateStoredToken e1 device_id stored1 s in
  let (s2, o2) := rotateStoredToken e2 device_id stored2 s1 in
  (s2, (o1, o2)).

(** *** 5. logout *)

Definition logout (e : Env) (refreshTokenPlain : string) : M Response :=
  let refreshTokenHash := sha256 refreshTokenPlain in
  token <- gets (fun s =>
    find (fun r => (RefreshToken.token_hash r =? refreshTokenHash)%string)
         (refresh_tokens s)) ;;
  match token with
  | None => throw (NotFoundException "Refresh token not found")
  | Some tok =>
    save_refreshToken (RefreshToken.with_is_revoked true tok) ;;;
    enqueueLog LOGOUT (Some (RefreshToken.id tok)) ;;;
    ret (Message "Logged out successfully")
  end.

(** *** 6. logoutAll *)

Definition logoutAll (e : Env) (userId : Uuid) : M Response :=
  rejecting (revoke_all_fails e) QueryFailedError
    (modify (set_refresh_tokens (map (fun r =>
       if (RefreshToken.user_id r =? userId)%nat
       then RefreshToken.with_is_revoked true r else r)))) ;;;
  enqueueLog TOKEN_REVOKED (Some userId) ;;;
  ret (Message "All sessions revoked").

(** *** Password reset *)

Definition frontendMessage : string :=
  "If an account with that email exists, a password reset link was sent. Please check your email.".

Definition requestPasswordReset (e : Env) (email : string) : M Response :=
  let normalized := toLowerCase email in
  user <- findByEmail normalized ;;
  match user with
  | None => ret (Message frontendMessage)
  | Some u =>
    if negb (User.is_email_verified u)
    then ret (Message frontendMessage)
    else
      try_catch
        (rejecting (invalidate_fails e) QueryFailedError
           (modify (set_password_reset_tokens (map (fun t =>
              if (PasswordResetToken.user_id t =? User.id u)%nat
              then PasswordResetToken.with_used true t else t)))))
        (fun _ => ret tt) ;;;
      let rawToken := random_hex e in
      let tokenHash := sha256 rawToken in
      let expiresAt := now e + 15 * 60 * 1000 in
      try_catch
        (rejecting (token_save_fails e) QueryFailedError
           (i <- generated_id ;;
            modify (set_password_reset_tokens (fun ts => ts ++ [
              {| PasswordResetToken.id := i;
                 PasswordResetToken.token_hash := tokenHash;
                 PasswordResetToken.user_id := User.id u;
                 PasswordResetToken.expires_at := expiresAt;
                 PasswordResetToken.used := false |} ]))))
        (fun _ => throw (InternalServerErrorException
           "Failed to generate reset token. Please try again later.")) ;;;
      try_catch
        (sendPasswordResetEmail e (User.email u) rawToken ;;;
         enqueueLog PASSWORD_RESET_REQUEST (Some (User.id u)))
        (fun _ => ret tt) ;;;
      ret (Message frontendMessage)
  end.

(** [passwordResetRepo.findOne({ where: { token_hash }, relations: ['user'] })]. *)
Definition findStoredReset (tokenHash : string)
    : M (option (PasswordResetToken.t * option User.t)) :=
  gets (fun s =>
    match find (fun t => (PasswordResetToken.token_hash t =? tokenHash)%string)
               (password_reset_tokens s) with
    | Some t => Some (t, user_relation (PasswordResetToken.user_id t) s)
    | None => None
    end).

Definition verifyResetToken (e : Env) (tokenPlain : string) : M Response :=
  stored <- findStoredReset (sha256 tokenPlain) ;;
  match stored with
  | None => throw (UnauthorizedException
      "This reset link is invalid or has already been used.")
  | Some (t, user) =>
    if PasswordResetToken.used t
    then throw (UnauthorizedException
      "This reset link is invalid or has already been used.")
    else if PasswordResetToken.expires_at t <? now e
    then throw (UnauthorizedException
      "This reset link has expired. Please request a new one.")
    else
      match user with
      | None => throw TypeError
      | Some u => ret (ValidReset true (User.email u))
      end
  end.

Definition resetPassword (e : Env) (tokenPlain newPassword : string)
    : M Response :=
  stored <- findStoredReset (sha256 tokenPlain) ;;
  match stored with
  | None => throw (UnauthorizedException
      "This reset link is invalid or has already been used.")
  | Some (t, user) =>
    if PasswordResetToken.used t
    then throw (UnauthorizedException
      "This reset link is invalid or has already been used.")
    else if PasswordResetToken.expires_at t <? now e
    then throw (UnauthorizedException
      "This reset link has expired. Please request a new one.")
    else
      let newPasswordHash := bcrypt_hash (salt e) newPassword in
      match user with
      | None =>
        (* [stored.user.id] throws inside the [try]; the handler rethrows *)
        throw (InternalServerErrorException
          "Failed to reset password. Please try again later.")
      | Some u =>
        try_catch (updatePassword e (User.id u) newPasswordHash)
          (fun _ => throw (InternalServerErrorException
             "Failed to reset password. Please try again later.")) ;;;
        try_catch
          (rejecting (mark_used_fails e) QueryFailedError
             (save_passwordReset (PasswordResetToken.with_used true t)))
          (fun _ => ret tt) ;;;
        try_catch (logoutAll e (User.id u) ;;; ret tt) (fun _ => ret tt) ;;;
        enqueueLog PASSWORD_RESET_COMPLETED (Some (User.id u)) ;;;
        ret (Message
          "Your password has been reset successfully. Please log in with your new password.")
      end
  end.

(** ** Calls and reachable stores *)

(** A call of a public method of [AuthService] with its arguments. *)
Inductive Call :=
| Register (email password : string) (full_name : option string)
           (ip user_agent : string)
| VerifyEmail (token : string)
| Login (email password device_id ip user_agent : string)
| RefreshTokens (refreshToken device_id : string)
| Logout (refreshToken : string)
| LogoutAll (userId : Uuid)
| RequestPasswordReset (email : string)
| VerifyResetToken (token : string)
| ResetPassword (token new_password : string).

Definition call (e : Env) (c : Call) : M Response :=
  match c with
  | Register em pw fn ip ua => register e em pw fn ip ua
  | VerifyEmail t => verifyEmail e t
  | Login em pw d ip ua => login e em pw d ip ua
  | RefreshTokens t d => refreshTokens e t d
  | Logout t => logout e t
  | LogoutAll uid => logoutAll e uid
  | RequestPasswordReset em => requestPasswordReset e em
  | VerifyResetToken t => verifyResetToken e t
  | ResetPassword t pw => resetPassword e t pw
  end.

(** The store a call leaves behind, whether it returned or threw. *)
Definition exec (e : Env) (c : Call) (s : Store) : Store :=
  fst (call e c s).

(** The digests held in the store. *)
Definition stored_digests (s : Store) : list string :=
  map RefreshToken.token_hash (refresh_tokens s)
  ++ map PreRegistration.verification_token_hash (pre_registrations s)
  ++ map PasswordResetToken.token_hash (password_reset_tokens s).

(** The token [randomBytes] gives a call is new: its digest is not in the
    store (no collision of [randomBytes] or of [sha256]). *)
Definition fresh (e : Env) (s : Store) : Prop :=
  ~ In (sha256 (random_hex e)) (stored_digests s).

Definition freshb (e : Env) (s : Store) : bool :=
  negb (existsb (String.eqb (sha256 (random_hex e))) (stored_digests s)).

(** Stores the service reaches from the empty store by calls whose
    environment satisfies [ok]. *)
Inductive reachable_under (ok : Env -> Store -> Prop) : Store -> Prop :=
| reach_empty : reachable_under ok empty_store
| reach_call s e c :
    reachable_under ok s -> ok e s -> reachable_under ok (exec e c s).

(** Any environment at all. *)
Definition unconstrained (e : Env) (s : Store) : Prop := True.

(** Stores reached with new random tokens. *)
Definition reachable : Store -> Prop := reachable_under fresh.

(** [s'] is reached from [s] by further calls with new random tokens. *)
Inductive later : Store -> Store -> Prop :=
| later_refl s : later s s
| later_call s s' e c : later s s' -> fresh e s' -> later s (exec e c s').

End Service.

(** ** Invariants of the tables *)

Section Invariants.

Context {crypto : Crypto}.

(** How a call may change a row of [refresh_tokens]: not at all, or into a
    revoked row with the same key and digest. *)
Definition touched (r r' : RefreshToken.t) : Prop :=
  r' = r
  \/ (RefreshToken.id r' = RefreshToken.id r
      /\ RefreshToken.token_hash r' = RefreshToken.token_hash r
      /\ RefreshToken.is_revoked r' = true).

(** The row [generateTokens] inserts during a call from [s] to [s']. *)
Definition minted (e : Env) (s s' : Store) (r : RefreshToken.t) : Prop :=
  (next_id s <= RefreshToken.id r < next_id s')%nat
  /\ RefreshToken.token_hash r = sha256 (random_hex e)
  /\ RefreshToken.is_revoked r = false
  /\ RefreshToken.last_seen_at r = None.

(** Primary keys of [refresh_tokens] are distinct and were generated. *)
Definition rt_keys (s : Store) : Prop :=
  NoDup (map RefreshToken.id (refresh_tokens s))
  /\ Forall (fun r => (RefreshToken.id r < next_id s)%nat) (refresh_tokens s).

(** No two rows of [refresh_tokens] hold the same digest. *)
Definition rt_digests (s : Store) : Prop :=
  NoDup (map RefreshToken.token_hash (refresh_tokens s)).

(** The digest [h] is stored and every row that holds it is revoked. *)
Definition spent (h : string) (s : Store) : Prop :=
  In h (map RefreshToken.token_hash (refresh_tokens s))
  /\ forall r, In r (refresh_tokens s) ->
       RefreshToken.token_hash r = h -> RefreshToken.is_revoked r = true.

(** A row that is not revoked was never rotated: it has no [last_seen_at]. *)
Definition unrotated (s : Store) : Prop :=
  forall r, In r (refresh_tokens s) ->
    RefreshToken.is_revoked r = false -> RefreshToken.last_seen_at r = None.

(** [pre_registrations] and [users]: keys, digests and emails of the
    pending sign-ups are distinct, no pending email is a user's, and no
    user is soft-deleted. *)
Record pr_wf (s : Store) : Prop := {
  pr_keys : NoDup (map PreRegistration.id (pre_registrations s));
  pr_generated :
    Forall (fun p => (PreRegistration.id p < next_id s)%nat)
           (pre_registrations s);
  pr_digests :
    NoDup (map PreRegistration.verification_token_hash (pre_registrations s));
  pr_emails : NoDup (map PreRegistration.email (pre_registrations s));
  pr_pending :
    forall p u, In p (pre_registrations s) -> In u (users s) ->
      User.email u <> PreRegistration.email p;
  pr_active : Forall (fun u => User.deleted_at u = None) (users s)
}.

(** The reset tokens of user [uid] not yet used, and those of them not
    expired at [t]. *)
Definition unused_tokens (uid : Uuid) (s : Store) : list PasswordResetToken.t :=
  filter (fun t => (PasswordResetToken.user_id t =? uid)%nat
                   && negb (PasswordResetToken.used t))
         (password_reset_tokens s).

Definition usable_tokens (uid : Uuid) (t : Date) (s : Store)
    : list PasswordResetToken.t :=
  filter (fun r => negb (PasswordResetToken.expires_at r <? t))
         (unused_tokens uid s).

(** The invalidating update of [requestPasswordReset] does not fail. *)
Definition invalidation_works (e : Env) (s : Store) : Prop :=
  invalidate_fails e = false.

(** [requestPasswordReset] goes on to issue a token for [email]: a user
    that is not soft-deleted has it and is verified. *)
Definition reset_issued (email : string) (s : Store) : bool :=
  match find (fun u => is_null (User.deleted_at u)
                       && (User.email u =? toLowerCase email)%string) (users s) with
  | Some u => User.is_email_verified u
  | None => false
  end.

(** What a call from [s] to [s'] did to [refresh_tokens]: rows were
    [touched], and at most one row was [minted] after them. *)
Definition rt_step (e : Env) (s s' : Store) : Prop :=
  exists old' new,
    refresh_tokens s' = old' ++ new
    /\ Forall2 touched (refresh_tokens s) old'
    /\ (new = [] \/ exists r, new = [r] /\ minted e s s' r)
    /\ (next_id s <= next_id s')%nat.

(** A user row that kept its email and soft-delete marker. *)
Definition same_identity (u u' : User.t) : Prop :=
  User.email u' = User.email u /\ User.deleted_at u' = User.deleted_at u.

(** At most one unused reset token per user. *)
Definition single_active (s : Store) : Prop :=
  forall uid, (List.length (unused_tokens uid s) <= 1)%nat.

(** With new tokens and a working invalidation. *)
Definition careful (e : Env) (s : Store) : Prop :=
  fresh e s /\ invalidation_works e s.

End Invariants.

(** ** A concrete instance, for running the service *)

Definition toy_crypto : Crypto :=
  {| sha256 := fun x => ("sha256:" ++ x)%string;
     bcrypt_hash := fun _ plain => ("$2a$12$" ++ plain)%string;
     bcrypt_compare := fun plain h => (h =? ("$2a$12$" ++ plain))%string;
     jwt_sign := fun _ _ device => ("jwt." ++ device)%string |}.

(** A call at time [t] that draws [rnd] and in which no collaborator fails. *)
Definition env_at (t : Date) (rnd : string) : Env :=
  {| now := t; random_hex := rnd; salt := "salt";
     mail_fails := false; user_save_fails := false; invalidate_fails := false;
     token_save_fails := false; update_password_fails := false;
     mark_used_fails := false; revoke_all_fails := false |}.

Section Scenario.

Local Existing Instance toy_crypto.

(** register, verify, log in on one device. *)
Definition s_registered : Store :=
  exec (env_at 1000 "v1")
       (Register "A@x.com" "pw12345" (Some "A") "10.0.0.1" "ua") empty_store.

Definition s_verified : Store :=
  exec (env_at 2000 "v2") (VerifyEmail "v1") s_registered.

Definition s_logged_in : Store :=
  exec (env_at 3000 "r1")
       (Login "a@x.com" "pw12345" "dev1" "10.0.0.1" "ua") s_verified.

Definition s_rotated : Store :=
  exec (env_at 4000 "r2") (RefreshTokens "r1" "dev1") s_logged_in.

Definition s_logged_out : Store :=
  exec (env_at 4000 "x1") (Logout "r1") s_logged_in.

(** The rows these calls created. *)
Definition pending_a : PreRegistration.t :=
  {| PreRegistration.id := 0%nat; PreRegistration.email := "a@x.com";
     PreRegistration.password_hash := "$2a$12$pw12345";
     PreRegistration.full_name := Some "A";
     PreRegistration.verification_token_hash := "sha256:v1";
     PreRegistration.expires_at := 3601000;
     PreRegistration.ip := "10.0.0.1"; PreRegistration.user_agent := "ua" |}.

Definition user_a : User.t :=
  {| User.id := 1%nat; User.email := "a@x.com";
     User.password_hash := "$2a$12$pw12345"; User.full_name := Some "A";
     User.is_email_verified := true; User.role := CUSTOMER;
     User.disabled := false; User.deleted_at := None |}.

Definition session_r1 : RefreshToken.t :=
  {| RefreshToken.id := 2%nat; RefreshToken.user_id := 1%nat;
     RefreshToken.token_hash := "sha256:r1"; RefreshToken.device_id := "dev1";
     RefreshToken.ip := "10.0.0.1"; RefreshToken.user_agent := "ua";
     RefreshToken.last_seen_at := None; RefreshToken.expires_at := 604803000;
     RefreshToken.is_revoked := false |}.

(** A reset is requested; a second request's invalidating update fails. *)
Definition s_reset_requested : Store :=
  exec (env_at 5000 "p1") (RequestPasswordReset "a@x.com") s_logged_in.

Definition env_invalidate_fails : Env :=
  {| now := 6000; random_hex := "p2"; salt := "salt";
     mail_fails := false; user_save_fails := false; invalidate_fails := true;
     token_save_fails := false; update_password_fails := false;
     mark_used_fails := false; revoke_all_fails := false |}.

Definition s_two_tokens : Store :=
  exec env_invalidate_fails (RequestPasswordReset "a@x.com") s_reset_requested.

(** Saving the new reset token fails. *)
Definition env_token_save_fails : Env :=
  {| now := 5000; random_hex := "p1"; salt := "salt";
     mail_fails := false; user_save_fails := false; invalidate_fails := false;
     token_save_fails := true; update_password_fails := false;
     mark_used_fails := false; revoke_all_fails := false |}.

(** The update of [logoutAll] fails. *)
Definition env_revoke_all_fails : Env :=
  {| now := 6000; random_hex := "x2"; salt := "salt";
     mail_fails := false; user_save_fails := false; invalidate_fails := false;
     token_save_fails := false; update_password_fails := false;
     mark_used_fails := false; revoke_all_fails := true |}.

(** [s_logged_in] with the session's row given a [last_seen_at], as no call
    leaves it. *)
Definition s_seen : Store :=
  set_refresh_tokens (map (RefreshToken.with_last_seen_at (Some 4000)))
    s_logged_in.

(** The verified user of [s_verified], disabled by an administrator. *)
Definition s_disabled : Store :=
  set_users (map (fun u =>
    {| User.id := User.id u; User.email := User.email u;
       User.password_hash := User.password_hash u;
       User.full_name := User.full_name u;
       User.is_email_verified := User.is_email_verified u;
       User.role := User.role u; User.disabled := true;
       User.deleted_at := User.deleted_at u |})) s_verified.

End Scenario.

(** * The callers and the callees of the service *)

(** ** Helpers on the tables *)

Section Owners.

Context {crypto : Crypto}.

(** Everything of a user row but its password hash. *)
Definition same_profile (u u' : User.t) : Prop :=
  User.id u' = User.id u
  /\ User.email u' = User.email u
  /\ User.full_name u' = User.full_name u
  /\ User.is_email_verified u' = User.is_email_verified u
  /\ User.role u' = User.role u
  /\ User.disabled u' = User.disabled u
  /\ User.deleted_at u' = User.deleted_at u.

(** Every refresh token and every reset token belongs to a stored user. *)
Definition owners_exist (s : Store) : Prop :=
  (forall r, In r (refresh_tokens s) ->
     exists u, In u (users s) /\ User.id u = RefreshToken.user_id r)
  /\ (forall t, In t (password_reset_tokens s) ->
        exists u, In u (users s) /\ User.id u = PasswordResetToken.user_id t).

(** The Nest exceptions that each public method throws itself; [logoutAll]
    throws none. *)
Definition may_throw (c : Call) (x : Exception) : bool :=
  match c, x with
  | Register _ _ _ _ _, ConflictException _ => true
  | Register _ _ _ _ _, InternalServerErrorException _ => true
  | VerifyEmail _, ConflictException _ => true
  | VerifyEmail _, InternalServerErrorException _ => true
  | Login _ _ _ _ _, UnauthorizedException _ => true
  | RefreshTokens _ _, UnauthorizedException _ => true
  | Logout _, NotFoundException _ => true
  | RequestPasswordReset _, InternalServerErrorException _ => true
  | VerifyResetToken _, UnauthorizedException _ => true
  | ResetPassword _ _, UnauthorizedException _ => true
  | ResetPassword _ _, InternalServerErrorException _ => true
  | _, _ => false
  end.

(** The session [generateTokens] opened during the call [e], as the store
    [s1] after the call holds it: last in [refresh_tokens], the only row
    with the digest of the token the call drew, bound to the device [d] and
    to the stored user [uid], live for seven days. *)
Definition issued_session (e : Env) (d : string) (uid : Uuid) (s1 : Store)
    : Prop :=
  exists old row,
    refresh_tokens s1 = old ++ [row]
    /\ (forall x, In x old ->
          RefreshToken.token_hash x <> sha256 (random_hex e))
    /\ RefreshToken.token_hash row = sha256 (random_hex e)
    /\ RefreshToken.device_id row = d
    /\ RefreshToken.user_id row = uid
    /\ RefreshToken.is_revoked row = false
    /\ RefreshToken.last_seen_at row = None
    /\ RefreshToken.expires_at row = now e + 7 * 24 * 60 * 60 * 1000
    /\ exists u, In u (users s1) /\ User.id u = uid.

(** Primary keys of [users] are distinct and were generated. *)
Definition users_keys (s : Store) : Prop :=
  NoDup (map User.id (users s))
  /\ Forall (fun u => (User.id u < next_id s)%nat) (users s).

(** The reset link [requestPasswordReset] created for the user [u] during
    the call [e], as the store [s1] after the call holds it: last in
    [password_reset_tokens], the only row with the digest of the token the
    call drew, unused, live for fifteen minutes. *)
Definition issued_reset (e : Env) (u : User.t) (s1 : Store) : Prop :=
  exists old row,
    password_reset_tokens s1 = old ++ [row]
    /\ (forall x, In x old ->
          PasswordResetToken.token_hash x <> sha256 (random_hex e))
    /\ PasswordResetToken.token_hash row = sha256 (random_hex e)
    /\ PasswordResetToken.user_id row = User.id u
    /\ PasswordResetToken.used row = false
    /\ PasswordResetToken.expires_at row = now e + 15 * 60 * 1000
    /\ In u (users s1).

End Owners.

(** ** UsersService.findById and JwtStrategy.validate *)

(** The columns of [User] marked [@Expose] in [UserResponseDto], as far as
    [User.t] holds them: [plainToInstance] with [excludeExtraneousValues]
    keeps these and drops [password_hash]. *)
Module UserResponseDto.

Record t := {
  id : Uuid;
  email : string;
  full_name : option string;
  is_email_verified : bool;
  role : UserRole;
  disabled : bool
}.

End UserResponseDto.

(** The payload [generateTokens] signs, and the [req.user] that [validate]
    builds from it. *)
Module JwtPayload.

Record t := { sub : Uuid; roles : list UserRole; device_id : string }.

End JwtPayload.

Module RequestUser.

Record t := {
  id : Uuid;
  email : string;
  roles : list UserRole;
  device_id : string
}.

End RequestUser.

Section Users.

Context {crypto : Crypto}.

Definition plainToInstance (user : User.t) : UserResponseDto.t :=
  {| UserResponseDto.id := User.id user;
     UserResponseDto.email := User.email user;
     UserResponseDto.full_name := User.full_name user;
     UserResponseDto.is_email_verified := User.is_email_verified user;
     UserResponseDto.role := User.role user;
     UserResponseDto.disabled := User.disabled user |}.

(** [userRepository.findOne({ where: { id } })], then the DTO. *)
Definition findById (id : Uuid) : M UserResponseDto.t :=
  user <- gets (fun s =>
    find (fun u => is_null (User.deleted_at u) && (User.id u =? id)%nat)
         (users s)) ;;
  match user with
  | None => throw (NotFoundException "User not found")
  | Some u => ret (plainToInstance u)
  end.

End Users.

Module JwtStrategy.

(** [findById] returns an object or throws, so the test [if (!user)] after
    it never fires. *)
Definition validate (payload : JwtPayload.t) : M RequestUser.t :=
  user <- findById (JwtPayload.sub payload) ;;
  ret {| RequestUser.id := UserResponseDto.id user;
         RequestUser.email := UserResponseDto.email user;
         RequestUser.roles := [UserResponseDto.role user];
         RequestUser.device_id := JwtPayload.device_id payload |}.

End JwtStrategy.

(** ** RolesGuard *)

Module RolesGuard.

Definition role_name (r : UserRole) : string :=
  match r with CUSTOMER => "CUSTOMER" | ADMIN => "ADMIN" end.

Definition role_eqb (a b : UserRole) : bool :=
  match a, b with
  | CUSTOMER, CUSTOMER | ADMIN, ADMIN => true
  | _, _ => false
  end.

(** [canActivate] returns [true] or throws a [ForbiddenException]. *)
Inductive Decision :=
| Activate
| Forbidden (message : string).

(** [requiredRoles] is what [@Roles] put on the handler or its class, if
    anything; [user] is [req.user], whose [roles] is an array when
    [JwtStrategy.validate] built it. *)
Definition canActivate (requiredRoles : option (list UserRole))
    (user : option RequestUser.t) : Decision :=
  match requiredRoles with
  | None | Some [] => Activate
  | Some required =>
      match user with
      | None => Forbidden "Access denied. User not authenticated."
      | Some u =>
          let userRoles := RequestUser.roles u in
          if existsb (fun role => existsb (role_eqb role) userRoles) required
          then Activate
          else Forbidden ("Access denied. Requires role: "
                          ++ String.concat ", " (map role_name required))%string
      end
  end.

End RolesGuard.

(** ** JavaScript values where the code tests them *)

(** [a || b] on strings: the empty string is falsy. *)
Definition or_default (a b : string) : string :=
  if (a =? "")%string then b else a.

(** [a ?? b]: only [undefined] and [null] give way. *)
Definition nullish {A} (a : option A) (b : A) : A :=
  match a with Some x => x | None => b end.

(** [process.env.NAME || b]. *)
Definition env_or (a : option string) (b : string) : string :=
  match a with Some x => or_default x b | None => b end.

(** The JSON values of a request body or of audit metadata, and what [if]
    makes of them. *)
#[warnings="-register-all"]
Inductive JsValue :=
| JsNull
| JsBool (b : bool)
| JsNumber (n : Z)
| JsString (s : string)
| JsArray (items : list JsValue)
| JsObject (fields : list (string * JsValue)).

Definition truthy (v : JsValue) : bool :=
  match v with
  | JsNull => false
  | JsBool b => b
  | JsNumber n => negb (n =? 0)
  | JsString s => negb (s =? "")%string
  | JsArray _ => true
  | JsObject _ => true
  end.

(** An object as its properties in insertion order. *)
Definition JsRecord := list (string * JsValue).

Fixpoint get (k : string) (o : JsRecord) : option JsValue :=
  match o with
  | [] => None
  | (k', v) :: rest => if (k' =? k)%string then Some v else get k rest
  end.

(** [o[k] = v]: an own property keeps its place, a new one goes last. *)
Fixpoint set (k : string) (v : JsValue) (o : JsRecord) : JsRecord :=
  match o with
  | [] => [(k, v)]
  | (k', v') :: rest =>
      if (k' =? k)%string then (k', v) :: rest else (k', v') :: set k v rest
  end.

(** [if (o.k) o.k = mask]. *)
Definition redact (k mask : string) (o : JsRecord) : JsRecord :=
  match get k o with
  | Some v => if truthy v then set k (JsString mask) o else o
  | None => o
  end.

(** ** AuditService: the metadata that is queued *)

(** The first lines of [enqueueLog]: a copy of the metadata with the
    properties [password] and [token] masked. *)
Definition sanitizeMetadata (metadata : option JsRecord) : option JsRecord :=
  match metadata with
  | Some m => Some (redact "token" "***" (redact "password" "***" m))
  | None => None
  end.

(** ** AllExceptionsFilter *)

(** The [message] property of the response object of an exception: absent,
    a string, or the list a failed validation puts there. *)
Inductive MessageField :=
| NoMessage
| TextMessage (text : string)
| ListMessage (items : list string).

Definition truthy_message (m : MessageField) : bool :=
  match m with
  | NoMessage => false
  | TextMessage text => negb (text =? "")%string
  | ListMessage _ => true
  end.

(** What [catch(exception: unknown)] is given: an [HttpException] with its
    status and its response (a string or an object), another [Error] with
    its message, or a value that is no [Error]. *)
Inductive Thrown :=
| HttpException (status : Z) (response : string + MessageField)
| PlainError (message : string)
| NotAnError.

Module ErrorBody.

Record t := {
  statusCode : Z;
  success : bool;
  timestamp : Date;
  path : string;
  message : string
}.

End ErrorBody.

Module AllExceptionsFilter.

Definition getFriendlyMessage (message : MessageField) (status : Z) : string :=
  if status =? 500
  then "Something went wrong on our side. Please try again later."
  else match message with
       | TextMessage text => text
       | _ => "Request could not be processed."
       end.

(** The body [catch] sends, at the time [t], for the request to [url]. *)
Definition catch (exception : Thrown) (t : Date) (url : string) : ErrorBody.t :=
  let unexpected := "An unexpected error occurred" in
  let '(status, message) :=
    match exception with
    | HttpException status res =>
        (status,
         match res with
         | inl text => TextMessage text
         | inr m => if truthy_message m then m else TextMessage unexpected
         end)
    | PlainError m => (500, TextMessage (or_default m unexpected))
    | NotAnError => (500, TextMessage unexpected)
    end in
  {| ErrorBody.statusCode := status;
     ErrorBody.success := false;
     ErrorBody.timestamp := t;
     ErrorBody.path := url;
     ErrorBody.message := getFriendlyMessage message status |}.

(** The copy of the request body that is logged. *)
Definition sanitizeRequestBody (body : option JsRecord) : JsRecord :=
  match body with
  | None => []
  | Some b =>
      redact "refreshToken" "********"
        (redact "token" "********" (redact "password" "********" b))
  end.

End AllExceptionsFilter.

(** ** The exceptions of the service as the filter sees them *)

(** [getStatus()] of the exceptions that are [HttpException]s. *)
Definition getStatus (x : Exception) : option Z :=
  match x with
  | ConflictException _ => Some 409
  | UnauthorizedException _ => Some 401
  | NotFoundException _ => Some 404
  | BadRequestException _ => Some 400
  | InternalServerErrorException _ => Some 500
  | QueryFailedError | MailerError | TypeError => None
  end.

(** [error.message]; [raw] is the text of an error that is not Nest's. *)
Definition error_message (raw : string) (x : Exception) : string :=
  match x with
  | ConflictException msg
  | UnauthorizedException msg
  | NotFoundException msg
  | BadRequestException msg
  | InternalServerErrorException msg => msg
  | QueryFailedError | MailerError | TypeError => raw
  end.

(** An exception built from a string has the response object
    [{ message, error, statusCode }]. *)
Definition as_thrown (raw : string) (x : Exception) : Thrown :=
  match getStatus x with
  | Some status => HttpException status (inr (TextMessage (error_message raw x)))
  | None => PlainError raw
  end.

(** ** AuthController *)

(** What a handler ends in: the body it returns, a redirect it sent, or an
    exception left to the filter. *)
Inductive Handled :=
| Responded (body : Response)
| RedirectedTo (url : string)
| Threw (exception : Thrown).

(** A handler that returns what the service returns. *)
Definition passing (raw : string) (m : M Response) (s : Store)
    : Store * Handled :=
  match m s with
  | (s', Return r) => (s', Responded r)
  | (s', Throw x) => (s', Threw (as_thrown raw x))
  end.

Module AuthController.

Section Handlers.

Context {crypto : Crypto}.

(** [e] is the call, [raw] the text of a raw error in it, [FRONTEND_URL]
    the environment variable. *)
Variables (e : Env) (raw : string) (FRONTEND_URL : option string).

Definition register (dto_email dto_password : string)
    (dto_full_name : option string) (req_ip req_user_agent : option string)
    : Store -> Store * Handled :=
  let ip := nullish req_ip "0.0.0.0" in
  let userAgent := nullish req_user_agent "unknown" in
  passing raw (register e dto_email dto_password dto_full_name ip userAgent).

Definition verifyEmail (token : string) (s : Store) : Store * Handled :=
  let frontendUrl := env_or FRONTEND_URL "http://localhost:5173" in
  match verifyEmail e token s with
  | (s', Return _) =>
      (s', RedirectedTo (frontendUrl ++ "/email-verified?status=success")%string)
  | (s', Throw _) =>
      (s', RedirectedTo (frontendUrl ++ "/email-verified?status=failed")%string)
  end.

Definition login (dto_email dto_password dto_device_id : string)
    (req_ip req_user_agent : option string) : Store -> Store * Handled :=
  let ip := nullish req_ip "0.0.0.0" in
  let userAgent := nullish req_user_agent "unknown" in
  passing raw (login e dto_email dto_password dto_device_id ip userAgent).

Definition refresh (dto_refreshToken dto_device_id : string)
    : Store -> Store * Handled :=
  passing raw (refreshTokens e dto_refreshToken dto_device_id).

Definition logout (dto_refreshToken : string) : Store -> Store * Handled :=
  passing raw (logout e dto_refreshToken).

(** Behind [JwtAuthGuard]: [req.user] is what [validate] returned. *)
Definition logoutAll (req_user : RequestUser.t) : Store -> Store * Handled :=
  passing raw (logoutAll e (RequestUser.id req_user)).

Definition requestPasswordReset (dto_email : string)
    : Store -> Store * Handled :=
  passing raw (requestPasswordReset e dto_email).

Definition verifyResetToken (token : string) (s : Store) : Store * Handled :=
  let frontendUrl := env_or FRONTEND_URL "http://localhost:5173" in
  match verifyResetToken e token s with
  | (s', Return _) =>
      (s', RedirectedTo
             (frontendUrl ++ "/reset-password?token=" ++ token
                ++ "&status=valid")%string)
  | (s', Throw _) =>
      (s', RedirectedTo (frontendUrl ++ "/reset-password?status=invalid")%string)
  end.

Definition resetPassword (dto_token dto_new_password : string) (s : Store)
    : Store * Handled :=
  match resetPassword e dto_token dto_new_password s with
  | (s', Return _) =>
      (s', Responded (Success true "Password has been reset successfully."))
  | (s', Throw error) =>
      (s', Threw (HttpException 400
             (inr (TextMessage
                (or_default (error_message raw error)
                   "Password reset failed. Please try again.")))))
  end.

End Handlers.

End AuthController.

(** What the client receives for a handled request: the filter answers
    for what was thrown. *)
Inductive Reply :=
| Body (body : Response)
| Redirect (location : string)
| Failure (body : ErrorBody.t).

Definition reply (t : Date) (url : string) (h : Handled) : Reply :=
  match h with
  | Responded body => Body body
  | RedirectedTo location => Redirect location
  | Threw exception => Failure (AllExceptionsFilter.catch exception t url)
  end.

(** ** RedisThrottlerStorage *)

(** The Redis commands the storage sends.  A key holds an integer and, if
    it was given one, the time in milliseconds at which it expires; a
    command sent at [now] does not see a key whose time has passed.  One
    call of [increment] sends its commands at one instant, which is also
    its [Date.now()]. *)
Module Redis.

Record entry := { value : Z; expires : option Z }.

Definition t := string -> option entry.

Definition empty : t := fun _ => None.

Definition live (now : Z) (db : t) (k : string) : option entry :=
  match db k with
  | Some en =>
      match expires en with
      | Some at_ => if at_ <? now then None else Some en
      | None => Some en
      end
  | None => None
  end.

Definition write (k : string) (v : option entry) (db : t) : t :=
  fun k' => if (k' =? k)%string then v else db k'.

(** EXISTS *)
Definition exists_ (now : Z) (k : string) (db : t) : Z :=
  match live now db k with Some _ => 1 | None => 0 end.

(** PTTL: -2 without the key, -1 without an expiry. *)
Definition pttl (now : Z) (k : string) (db : t) : Z :=
  match live now db k with
  | None => -2
  | Some en =>
      match expires en with None => -1 | Some at_ => at_ - now end
  end.

(** INCR: a missing key counts from 0 and gets no expiry; the value is a
    signed 64-bit integer and the command fails rather than overflow. *)
Definition incr (now : Z) (k : string) (db : t) : option (t * Z) :=
  match live now db k with
  | None => Some (write k (Some {| value := 1; expires := None |}) db, 1)
  | Some en =>
      if value en =? 9223372036854775807 then None
      else Some (write k (Some {| value := value en + 1;
                                  expires := expires en |}) db,
                 value en + 1)
  end.

(** PEXPIRE: a timeout that is not positive deletes the key. *)
Definition pexpire (now : Z) (k : string) (ms : Z) (db : t) : t :=
  match live now db k with
  | None => db
  | Some en =>
      if ms <=? 0 then write k None db
      else write k (Some {| value := value en;
                            expires := Some (now + ms) |}) db
  end.

(** SET key v PX ms: fails on a timeout that is not positive. *)
Definition set_px (now : Z) (k : string) (v ms : Z) (db : t) : option t :=
  if ms <=? 0 then None
  else Some (write k (Some {| value := v; expires := Some (now + ms) |}) db).

(** GET *)
Definition get (now : Z) (k : string) (db : t) : option Z :=
  match live now db k with Some en => Some (value en) | None => None end.

End Redis.

Module LocalThrottlerStorageRecord.

Record t := {
  totalHits : Z;
  timeToExpire : Z;
  isBlocked : bool;
  timeToBlockExpire : Z;
  lastHitAt : option Z
}.

End LocalThrottlerStorageRecord.

Module RedisThrottlerStorage.

Definition redisKey (throttlerName key : string) : string :=
  "throttle:" ++ throttlerName ++ ":" ++ key.

Definition blockKey (throttlerName key : string) : string :=
  "throttle:block:" ++ throttlerName ++ ":" ++ key.

(** [increment] at the instant [now]: the database it leaves, and the
    record it returns, or [None] when a command was rejected. *)
Definition increment (now : Z) (key : string) (ttl limit blockDuration : Z)
    (throttlerName : string) (db : Redis.t)
    : Redis.t * option LocalThrottlerStorageRecord.t :=
  let redisKey := redisKey throttlerName key in
  let blockKey := blockKey throttlerName key in
  let isBlocked := Redis.exists_ now blockKey db in
  if negb (isBlocked =? 0) then
    let blockPttl := Redis.pttl now blockKey db in
    (db, Some {| LocalThrottlerStorageRecord.totalHits := limit;
                 LocalThrottlerStorageRecord.timeToExpire := 0;
                 LocalThrottlerStorageRecord.isBlocked := true;
                 LocalThrottlerStorageRecord.timeToBlockExpire :=
                   if 0 <? blockPttl then blockPttl else 0;
                 LocalThrottlerStorageRecord.lastHitAt := Some now |})
  else
    match Redis.incr now redisKey db with
    | None => (db, None)
    | Some (db1, totalHits) =>
        let db2 := if totalHits =? 1
                   then Redis.pexpire now redisKey (ttl * 1000) db1
                   else db1 in
        if limit <? totalHits then
          match Redis.set_px now blockKey 1 (blockDuration * 1000) db2 with
          | None => (db2, None)
          | Some db3 =>
              let blockPttl := Redis.pttl now blockKey db3 in
              let timeToExpire := Redis.pttl now redisKey db3 in
              (db3,
               Some {| LocalThrottlerStorageRecord.totalHits := totalHits;
                       LocalThrottlerStorageRecord.timeToExpire :=
                         if 0 <? timeToExpire then timeToExpire else 0;
                       LocalThrottlerStorageRecord.isBlocked := true;
                       LocalThrottlerStorageRecord.timeToBlockExpire :=
                         if 0 <? blockPttl then blockPttl
                         else blockDuration * 1000;
                       LocalThrottlerStorageRecord.lastHitAt := Some now |})
          end
        else
          let pttl := Redis.pttl now redisKey db2 in
          (db2,
           Some {| LocalThrottlerStorageRecord.totalHits := totalHits;
                   LocalThrottlerStorageRecord.timeToExpire :=
                     if 0 <? pttl then pttl else ttl * 1000;
                   LocalThrottlerStorageRecord.isBlocked := false;
                   LocalThrottlerStorageRecord.timeToBlockExpire := 0;
                   LocalThrottlerStorageRecord.lastHitAt := Some now |})
    end.

(** [getRecord] reads the key it is given, as it is. *)
Definition getRecord (now : Z) (key : string) (db : Redis.t) : list Z :=
  match Redis.get now key db with
  | Some val => [val]
  | None => [0]
  end.

(** The records of calls of [increment] for one key, one after the other
    at the instants [times]. *)
Fixpoint hits (times : list Z) (key : string) (ttl limit blockDuration : Z)
    (throttlerName : string) (db : Redis.t)
    : list (option LocalThrottlerStorageRecord.t) :=
  match times with
  | [] => []
  | now :: rest =>
      let (db', r) := increment now key ttl limit blockDuration throttlerName db in
      r :: hits rest key ttl limit blockDuration throttlerName db'
  end.

(** The databases that calls of [increment] leave, from the empty one. *)
Inductive written : Redis.t -> Prop :=
| written_empty : written Redis.empty
| written_increment db now key ttl limit blockDuration throttlerName :
    written db ->
    written (fst (increment now key ttl limit blockDuration throttlerName db)).

End RedisThrottlerStorage.

(** After [i] calls in the window that began at [t0]: the counter holds
    [c], which is [i] up to the limit and above the limit from then on,
    and expires with the window; up to the limit there is no block. *)
Definition counted (name key : string) (t0 ttl limit i : Z) (db : Redis.t)
    : Prop :=
  exists c,
    db (RedisThrottlerStorage.redisKey name key)
    = Some {| Redis.value := c; Redis.expires := Some (t0 + ttl * 1000) |}
    /\ 1 <= c <= i
    /\ (i <= limit ->
        c = i /\ forall t, t0 <= t -> Redis.live t db (RedisThrottlerStorage.blockKey name key) = None)
    /\ (limit < i -> limit < c).

(** ** Accounts as UsersService leaves them *)

Section Accounts.

Local Existing Instance toy_crypto.

(** [s_verified] after [deleteUser] soft-deleted the account at 2500. *)
Definition s_deleted : Store :=
  set_users (map (fun u =>
    {| User.id := User.id u; User.email := User.email u;
       User.password_hash := User.password_hash u;
       User.full_name := User.full_name u;
       User.is_email_verified := User.is_email_verified u;
       User.role := User.role u; User.disabled := User.disabled u;
       User.deleted_at := Some 2500 |})) s_verified.

(** [s_verified] after [updateUser] changed the email of the account, which
    resets [is_email_verified]. *)
Definition s_email_changed : Store :=
  set_users (map (fun u =>
    {| User.id := User.id u; User.email := "b@x.com";
       User.password_hash := User.password_hash u;
       User.full_name := User.full_name u;
       User.is_email_verified := false;
       User.role := User.role u; User.disabled := User.disabled u;
       User.deleted_at := User.deleted_at u |})) s_verified.

End Accounts.

(** ** requestPasswordReset by its awaits *)

Section Overlap.

Context {crypto : Crypto}.

(** [requestPasswordReset] up to and including its invalidating update:
    the user it goes on with, if it goes on. *)
Definition requestUntilUpdate (e : Env) (email : string)
    : M (option User.t) :=
  let normalized := toLowerCase email in
  user <- findByEmail normalized ;;
  match user with
  | None => ret None
  | Some u =>
    if negb (User.is_email_verified u)
    then ret None
    else
      try_catch
        (rejecting (invalidate_fails e) QueryFailedError
           (modify (set_password_reset_tokens (map (fun t =>
              if (PasswordResetToken.user_id t =? User.id u)%nat
              then PasswordResetToken.with_used true t else t)))))
        (fun _ => ret tt) ;;;
      ret (Some u)
  end.

(** The rest of [requestPasswordReset], from the new token on. *)
Definition requestFromInsert (e : Env) (target : option User.t)
    : M Response :=
  match target with
  | None => ret (Message frontendMessage)
  | Some u =>
      let rawToken := random_hex e in
      let tokenHash := sha256 rawToken in
      let expiresAt := now e + 15 * 60 * 1000 in
      try_catch
        (rejecting (token_save_fails e) QueryFailedError
           (i <- generated_id ;;
            modify (set_password_reset_tokens (fun ts => ts ++ [
              {| PasswordResetToken.id := i;
                 PasswordResetToken.token_hash := tokenHash;
                 PasswordResetToken.user_id := User.id u;
                 PasswordResetToken.expires_at := expiresAt;
                 PasswordResetToken.used := false |} ]))))
        (fun _ => throw (InternalServerErrorException
           "Failed to generate reset token. Please try again later.")) ;;;
      try_catch
        (sendPasswordResetEmail e (User.email u) rawToken ;;;
         enqueueLog PASSWORD_RESET_REQUEST (Some (User.id u)))
        (fun _ => ret tt) ;;;
      ret (Message frontendMessage)
  end.

(** Two calls of [requestPasswordReset] on one event loop, in the schedule
    where the second call runs up to its update while the first waits for
    its [save]: update, update, insert, insert. *)
Definition racingRequestPasswordReset (e1 e2 : Env) (email1 email2 : string)
    (s : Store) : Store * (Outcome Response * Outcome Response) :=
  let resume e (target : Outcome (option User.t)) : M Response :=
    match target with
    | Return u => requestFromInsert e u
    | Throw x => throw x
    end in
  let (s1, target1) := requestUntilUpdate e1 email1 s in
  let (s2, target2) := requestUntilUpdate e2 email2 s1 in
  let (s3, o1) := resume e1 target1 s2 in
  let (s4, o2) := resume e2 target2 s3 in
  (s4, (o1, o2)).

End Overlap.

Section MoreScenario.

Local Existing Instance toy_crypto.


(** A second reset request, one after the first, whose update works. *)
Definition s_second_request : Store :=
  exec (env_at 6000 "p2") (RequestPasswordReset "a@x.com") s_reset_requested.


End MoreScenario.

(** * Properties *)

(** ** Lists without repetition *)

Section Lists.

Context {A B : Type}.

Lemma NoDup_map_filter (f : A -> B) (g : A -> bool) rows :
  NoDup (map f rows) -> NoDup (map f (filter g rows)).
Proof.
  induction rows as [|r rows IH]; simpl; intros ND; [constructor|].
  inversion ND; subst. destruct (g r); simpl; auto.
  constructor; auto. intros Hin. apply H1.
  rewrite in_map_iff in *. destruct Hin as [y [E Hy]].
  exists y. split; auto. apply filter_In in Hy. tauto.
Qed.

Lemma NoDup_map_eq (f : A -> B) rows a b :
  NoDup (map f rows) -> In a rows -> In b rows -> f a = f b -> a = b.
Proof.
  induction rows as [|r rows IH]; simpl; intros ND Ha Hb E; [contradiction|].
  inversion ND; subst.
  destruct Ha as [-> | Ha], Hb as [-> | Hb]; auto.
  - exfalso. apply H1. rewrite E. now apply in_map.
  - exfalso. apply H1. rewrite <- E. now apply in_map.
Qed.

Lemma NoDup_insert (x : B) l1 l2 :
  NoDup (l1 ++ l2) -> ~ In x (l1 ++ l2) -> NoDup (l1 ++ x :: l2).
Proof.
  intros ND Hx. induction l1 as [|a l1 IH]; simpl in *.
  - constructor; auto.
  - inversion ND; subst. constructor.
    + intros Hin. apply in_app_or in Hin. destruct Hin as [Hin | [-> | Hin]].
      * apply H1. apply in_or_app. now left.
      * apply Hx. now left.
      * apply H1. apply in_or_app. now right.
    + apply IH; auto.
Qed.

End Lists.

(** ** Rows written by key *)

Section Rows.

Context {A : Type} (key : A -> Uuid).

Lemma save_row_keys (x : A) rows :
  map key (save_row key x rows) = map key rows.
Proof.
  unfold save_row. rewrite map_map. apply map_ext. intros r.
  destruct (Nat.eqb_spec (key r) (key x)); congruence.
Qed.

Lemma save_row_In (x : A) rows r :
  In r (save_row key x rows) -> r = x \/ In r rows.
Proof.
  unfold save_row. rewrite in_map_iff. intros [r0 [E H]].
  destruct (key r0 =? key x)%nat; subst; auto.
Qed.

Lemma save_row_fixes (x : A) rows :
  (forall r, In r rows -> key r <> key x) -> save_row key x rows = rows.
Proof.
  intros H. unfold save_row. rewrite <- (map_id rows) at 2.
  apply map_ext_in. intros r Hr.
  destruct (Nat.eqb_spec (key r) (key x)); [exfalso; eapply H; eauto | reflexivity].
Qed.

(** With distinct keys, saving rewrites exactly the row it was loaded from. *)
Lemma save_row_split (x p : A) rows :
  NoDup (map key rows) -> In p rows -> key x = key p ->
  exists l1 l2, rows = l1 ++ p :: l2 /\ save_row key x rows = l1 ++ x :: l2.
Proof.
  intros ND Hin K. destruct (in_split _ _ Hin) as [l1 [l2 E]]. subst rows.
  exists l1, l2. split; [reflexivity|].
  rewrite map_app in ND. simpl in ND.
  pose proof (NoDup_remove_2 _ _ _ ND) as Hnot.
  assert (F : forall l, (forall r, In r l -> In (key r) (map key l1 ++ map key l2)) ->
                        save_row key x l = l).
  { intros l Hl. apply save_row_fixes. intros r Hr Hk. apply Hnot.
    rewrite <- K, <- Hk. now apply Hl. }
  unfold save_row. rewrite map_app. simpl.
  destruct (Nat.eqb_spec (key p) (key x)) as [_|NE]; [|congruence].
  f_equal; [|f_equal].
  - apply F. intros r Hr. apply in_or_app. left. now apply in_map.
  - apply F. intros r Hr. apply in_or_app. right. now apply in_map.
Qed.

End Rows.

Ltac unfold_service :=
  repeat progress unfold exec, call, register, verifyEmail, login, refreshTokens,
    rotateStoredToken, findStoredToken, storedTokenIn, logout, logoutAll,
    requestPasswordReset, verifyResetToken, resetPassword, findStoredReset,
    generateTokens, createUser, userRepository_save, updatePassword,
    findByEmail, save_refreshToken, save_preReg, save_passwordReset,
    sendVerificationEmail, sendPasswordResetEmail, enqueueLog, generated_id,
    rejecting, try_catch, bind, ret, throw, gets, modify in *.

Ltac break_goal :=
  match goal with
  | |- context [match ?x with _ => _ end] =>
      lazymatch x with
      | context [match _ with _ => _ end] => fail
      | _ => destruct x eqn:?
      end
  end.

Ltac run_service :=
  unfold_service;
  repeat (cbn -[Z.mul Z.add Z.sub Z.ltb String.eqb Nat.eqb save_row];
          try break_goal).


(** ** The table [refresh_tokens] *)

Section RefreshTokenTable.

Context {crypto : Crypto}.

Lemma touched_refl rows : Forall2 touched rows rows.
Proof. induction rows; constructor; auto. now left. Qed.

Lemma touched_save tok tok' rows :
  NoDup (map RefreshToken.id rows) -> In tok rows ->
  RefreshToken.id tok' = RefreshToken.id tok ->
  RefreshToken.token_hash tok' = RefreshToken.token_hash tok ->
  RefreshToken.is_revoked tok' = true ->
  Forall2 touched rows (save_row RefreshToken.id tok' rows).
Proof.
  intros ND Hin K Hh Hr.
  destruct (save_row_split RefreshToken.id tok' tok rows ND Hin K)
    as [l1 [l2 [E1 E2]]].
  rewrite E2, E1. apply Forall2_app; [apply touched_refl|].
  constructor; [|apply touched_refl]. right. auto.
Qed.

Lemma touched_revoke uid rows :
  Forall2 touched rows
    (map (fun r => if (RefreshToken.user_id r =? uid)%nat
                   then RefreshToken.with_is_revoked true r else r) rows).
Proof.
  induction rows as [|r rows IH]; simpl; constructor; auto.
  destruct (RefreshToken.user_id r =? uid)%nat; [right|left]; auto.
Qed.

Lemma rt_step_old e s s' :
  Forall2 touched (refresh_tokens s) (refresh_tokens s') ->
  (next_id s <= next_id s')%nat -> rt_step e s s'.
Proof.
  intros T L. exists (refresh_tokens s'), []. rewrite app_nil_r.
  repeat split; auto.
Qed.

Lemma rt_step_same e s s' :
  refresh_tokens s' = refresh_tokens s ->
  (next_id s <= next_id s')%nat -> rt_step e s s'.
Proof.
  intros E L. apply rt_step_old; auto. rewrite E. apply touched_refl.
Qed.

Lemma rt_step_new e s s' old' r :
  refresh_tokens s' = old' ++ [r] ->
  Forall2 touched (refresh_tokens s) old' ->
  minted e s s' r -> rt_step e s s'.
Proof.
  intros E T Mi. exists old', [r]. repeat split; eauto.
  destruct Mi as [? _]. lia.
Qed.

Ltac found :=
  repeat match goal with
         | H : find _ _ = Some _ |- _ =>
             apply find_some in H; destruct H as [? ?]
         end.

Ltac rt_closer :=
  first
    [ apply rt_step_same; cbn; [reflexivity | lia]
    | apply rt_step_old; cbn;
      [ first [ apply touched_revoke | eapply touched_save; eauto ] | lia ]
    | eapply rt_step_new; cbn;
      [ reflexivity
      | first [ apply touched_refl | eapply touched_save; eauto ]
      | unfold minted; cbn; repeat split; solve [auto | lia] ] ].

(** What any call does to [refresh_tokens]. *)
Lemma rt_shape e c s :
  NoDup (map RefreshToken.id (refresh_tokens s)) -> rt_step e s (exec e c s).
Proof.
  intros ND. destruct c; run_service; found; rt_closer.
Qed.

End RefreshTokenTable.

(** ** Invariants of [refresh_tokens] *)

Section RefreshTokenInvariants.

Context {crypto : Crypto}.

Lemma touched_ids l l' :
  Forall2 touched l l' -> map RefreshToken.id l' = map RefreshToken.id l.
Proof.
  induction 1 as [|r r' l l' T _ IH]; simpl; [reflexivity|].
  rewrite IH. f_equal. destruct T as [-> | [K _]]; auto.
Qed.

Lemma touched_digests l l' :
  Forall2 touched l l' ->
  map RefreshToken.token_hash l' = map RefreshToken.token_hash l.
Proof.
  induction 1 as [|r r' l l' T _ IH]; simpl; [reflexivity|].
  rewrite IH. f_equal. destruct T as [-> | [_ [K _]]]; auto.
Qed.

Lemma touched_In l l' r' :
  Forall2 touched l l' -> In r' l' -> exists r, In r l /\ touched r r'.
Proof.
  induction 1 as [|r0 r0' l l' T _ IH]; simpl; [contradiction|].
  intros [<- | Hin].
  - exists r0. auto.
  - destruct (IH Hin) as [r [? ?]]. exists r. auto.
Qed.

Lemma fresh_not_stored e s :
  fresh e s ->
  ~ In (sha256 (random_hex e)) (map RefreshToken.token_hash (refresh_tokens s)).
Proof.
  unfold fresh, stored_digests. intros F Hin. apply F.
  apply in_or_app. now left.
Qed.

Lemma rt_keys_exec e c s : rt_keys s -> rt_keys (exec e c s).
Proof.
  intros [ND LT].
  destruct (rt_shape e c s ND) as [old' [new [E [T [N L]]]]].
  pose proof (touched_ids _ _ T) as Ids.
  assert (LT' : Forall (fun i => (i < next_id s)%nat)
                  (map RefreshToken.id old')).
  { rewrite Ids. rewrite Forall_forall in *. intros i Hi.
    apply in_map_iff in Hi. destruct Hi as [r [<- Hr]]. auto. }
  unfold rt_keys. rewrite E, map_app. split.
  - destruct N as [-> | [r [-> [[Lo Hi] _]]]]; simpl.
    + rewrite app_nil_r, Ids. exact ND.
    + apply NoDup_app; [rewrite Ids; exact ND | repeat constructor; auto |].
      intros i Hin [<- | []]. rewrite Forall_forall in LT'.
      specialize (LT' _ Hin). lia.
  - apply Forall_app. split.
    + rewrite Forall_forall in *. intros r Hr.
      specialize (LT' (RefreshToken.id r) (in_map _ _ _ Hr)). lia.
    + destruct N as [-> | [r [-> [[Lo Hi] _]]]]; repeat constructor; auto.
Qed.

Lemma rt_digests_exec e c s :
  rt_keys s -> fresh e s -> rt_digests s -> rt_digests (exec e c s).
Proof.
  intros [ND _] F D.
  destruct (rt_shape e c s ND) as [old' [new [E [T [N _]]]]].
  pose proof (touched_digests _ _ T) as Ds.
  unfold rt_digests. rewrite E, map_app, Ds.
  destruct N as [-> | [r [-> [_ [H _]]]]]; simpl.
  - rewrite app_nil_r. exact D.
  - apply NoDup_app; [exact D | repeat constructor; auto |].
    intros h Hh [<- | []]. rewrite H in Hh.
    exact (fresh_not_stored e s F Hh).
Qed.

Lemma spent_exec e c s h :
  rt_keys s -> fresh e s -> spent h s -> spent h (exec e c s).
Proof.
  intros [ND _] F [Hin Rev].
  destruct (rt_shape e c s ND) as [old' [new [E [T [N _]]]]].
  pose proof (touched_digests _ _ T) as Ds.
  unfold spent. rewrite E. split.
  - rewrite map_app, Ds. apply in_or_app. now left.
  - intros r' Hr' Hh. apply in_app_or in Hr'. destruct Hr' as [Hr' | Hr'].
    + destruct (touched_In _ _ _ T Hr') as [r [Hr [-> | [_ [_ R]]]]]; auto.
    + destruct N as [-> | [r [-> [_ [H _]]]]]; [contradiction|].
      destruct Hr' as [<- | []]. exfalso.
      apply (fresh_not_stored e s F). rewrite <- H, Hh. exact Hin.
Qed.

Lemma unrotated_exec e c s : rt_keys s -> unrotated s -> unrotated (exec e c s).
Proof.
  intros [ND _] U.
  destruct (rt_shape e c s ND) as [old' [new [E [T [N _]]]]].
  unfold unrotated. rewrite E. intros r' Hr' NR.
  apply in_app_or in Hr'. destruct Hr' as [Hr' | Hr'].
  - destruct (touched_In _ _ _ T Hr') as [r [Hr [-> | [_ [_ R]]]]]; auto.
    congruence.
  - destruct N as [-> | [r [-> [_ [_ [_ H]]]]]]; [contradiction|].
    destruct Hr' as [<- | []]. exact H.
Qed.

Lemma rt_keys_empty : rt_keys empty_store.
Proof. split; constructor. Qed.

Lemma reachable_rt_keys ok s : reachable_under ok s -> rt_keys s.
Proof.
  induction 1; [apply rt_keys_empty | now apply rt_keys_exec].
Qed.

Lemma reachable_rt_digests s : reachable s -> rt_digests s.
Proof.
  induction 1 as [|s e c R IH F]; [constructor|].
  apply rt_digests_exec; auto. exact (reachable_rt_keys _ _ R).
Qed.

Lemma reachable_unrotated ok s : reachable_under ok s -> unrotated s.
Proof.
  induction 1 as [|s e c R IH F]; [intros r []|].
  apply unrotated_exec; auto. exact (reachable_rt_keys _ _ R).
Qed.

Lemma reachable_later s s' : reachable s -> later s s' -> reachable s'.
Proof.
  intros R L. induction L as [|s s' e c L IH F]; [assumption|].
  unfold reachable in *. apply reach_call; auto.
Qed.

Lemma spent_later h s s' : reachable s -> later s s' -> spent h s -> spent h s'.
Proof.
  intros R L. induction L as [|s s' e c L IH F]; [auto|].
  intros Sp. apply spent_exec; auto.
  exact (reachable_rt_keys _ _ (reachable_later _ _ R L)).
Qed.

(** A spent digest finds no row to rotate. *)
Lemma spent_refuses h s device_id :
  spent h s -> findStoredToken h device_id s = (s, Return None).
Proof.
  intros [_ Rev]. unfold findStoredToken, storedTokenIn, gets.
  destruct (find _ (refresh_tokens s)) as [r|] eqn:Hf; [|reflexivity].
  apply find_some in Hf. destruct Hf as [Hin Hp].
  apply andb_true_iff in Hp. destruct Hp as [Hp NR].
  apply andb_true_iff in Hp. destruct Hp as [Hh _].
  apply String.eqb_eq in Hh. rewrite (Rev r Hin Hh) in NR. discriminate.
Qed.

(** A successful rotation spends the digest it was given. *)
Lemma rotation_spends e t d s s1 r :
  rt_keys s -> rt_digests s -> fresh e s ->
  refreshTokens e t d s = (s1, Return r) -> spent (sha256 t) s1.
Proof.
  intros [ND _] D F. pose proof (fresh_not_stored e s F) as NS.
  run_service; intros Hrun; try discriminate;
    injection Hrun as <- _.
  all: match goal with
       | H : find _ _ = Some _ |- _ =>
           apply find_some in H; destruct H as [Hin Hp]
       end.
  all: apply andb_true_iff in Hp; destruct Hp as [Hp NR];
    apply andb_true_iff in Hp; destruct Hp as [Hh _];
    apply String.eqb_eq in Hh.
  all: match goal with
       | |- context [save_row _ ?x] =>
           destruct (save_row_split RefreshToken.id x t0 _ ND Hin eq_refl)
             as [l1 [l2 [E1 E2]]]
       end.
  all: unfold spent; cbn; rewrite E2.
  all: unfold rt_digests in D; rewrite E1, map_app in D; simpl in D;
    apply NoDup_remove_2 in D; rewrite Hh in D.
  all: rewrite E1, map_app in NS; simpl in NS.
  all: split;
    [ match type of E2 with
      | _ = _ ++ ?x :: _ =>
          apply in_map_iff; exists x;
          split; [exact Hh | apply in_or_app; left; apply in_elt]
      end
    | ].
  all: intros x Hx Hxh;
    repeat (apply in_app_or in Hx; destruct Hx as [Hx | Hx]);
    repeat match goal with
           | H : In _ (_ :: _) |- _ => destruct H as [<- | H]
           | H : In _ [] |- _ => destruct H
           end;
    try reflexivity;
    try (exfalso; apply D; rewrite <- Hxh; apply in_or_app;
         first [left; now apply in_map | right; now apply in_map]).
  all: exfalso; apply NS; cbn in Hxh; rewrite Hxh, <- Hh;
    apply in_or_app; right; now left.
Qed.

End RefreshTokenInvariants.

(** ** Rotation of refresh tokens *)

Section Rotation.

Context {crypto : Crypto}.

Lemma freshb_fresh e s : freshb e s = true -> fresh e s.
Proof.
  unfold freshb, fresh. intros H Hin.
  apply negb_true_iff in H.
  assert (existsb (String.eqb (sha256 (random_hex e))) (stored_digests s) = true)
    as Hex; [|congruence].
  apply existsb_exists. eexists. split; [exact Hin | apply String.eqb_refl].
Qed.

(** C1. In a store the service reaches, once [refreshTokens] has succeeded
    on a raw token, every row that holds its digest is revoked, and any
    later call of [refreshTokens] with the same raw token, on any device and
    after any further calls (each drawing a new random token), throws
    Unauthorized and changes nothing. *)
Theorem refresh_token_single_use e t d s s1 r :
  reachable s -> fresh e s ->
  refreshTokens e t d s = (s1, Return r) ->
  spent (sha256 t) s1
  /\ forall s2, later s1 s2 -> forall e2 d2,
       refreshTokens e2 t d2 s2
       = (s2, Throw (UnauthorizedException "Invalid or revoked refresh token")).
Proof.
  intros R F Hrun.
  assert (Sp : spent (sha256 t) s1).
  { eapply rotation_spends; eauto.
    - exact (reachable_rt_keys _ _ R).
    - exact (reachable_rt_digests _ R). }
  split; [exact Sp|]. intros s2 L e2 d2.
  assert (R1 : reachable s1).
  { replace s1 with (exec e (RefreshTokens t d) s).
    - apply reach_call; assumption.
    - unfold exec, call. now rewrite Hrun. }
  pose proof (spent_later _ _ _ R1 L Sp) as Sp2.
  unfold refreshTokens, bind.
  rewrite (spent_refuses _ _ d2 Sp2). reflexivity.
Qed.

(** C7. No store the service reaches makes [refreshTokens] throw the
    cooldown rejection: a row the lookup returns is not revoked, so it has
    no [last_seen_at], and the cooldown test is never taken. *)
Theorem refresh_cooldown_never_fires s :
  reachable_under unconstrained s ->
  forall e t d msg,
    snd (refreshTokens e t d s) <> Throw (BadRequestException msg).
Proof.
  intros R e t d msg. pose proof (reachable_unrotated _ _ R) as U.
  run_service; try discriminate.
  match goal with
  | H : find _ _ = Some _ |- _ => apply find_some in H; destruct H as [Hin Hp]
  end.
  apply andb_true_iff in Hp. destruct Hp as [_ NR].
  apply negb_true_iff in NR. rewrite (U _ Hin NR) in *. discriminate.
Qed.

(** C2. When two calls of [refreshTokens] present the same valid token and
    both lookups run before either call writes, both calls return a new
    pair of tokens: the revocation is a write of the loaded entity, not a
    conditional update. *)
Theorem racing_rotations_both_succeed e1 e2 t d s tok u :
  storedTokenIn (sha256 t) d s = Some (tok, Some u) ->
  RefreshToken.last_seen_at tok = None ->
  now e1 <= RefreshToken.expires_at tok ->
  now e2 <= RefreshToken.expires_at tok ->
  exists s2 a1 a2,
    racingRefreshTokens e1 e2 t d s
    = (s2, (Return (Refreshed true "Tokens refreshed successfully"
                      a1 (random_hex e1) 900),
            Return (Refreshed true "Tokens refreshed successfully"
                      a2 (random_hex e2) 900))).
Proof.
  intros Hf Seen X1 X2. unfold racingRefreshTokens.
  apply Z.ltb_ge in X1, X2.
  rewrite Hf. unfold rotateStoredToken. rewrite X1, X2, Seen.
  run_service. eauto.
Qed.

End Rotation.

(** ** The tables [pre_registrations] and [users] *)

Section PreRegistrationTable.

Context {crypto : Crypto}.

Lemma same_identity_refl us : Forall2 same_identity us us.
Proof. induction us; constructor; auto. now split. Qed.

Lemma same_identity_password uid h us :
  Forall2 same_identity us
    (map (fun u => if (User.id u =? uid)%nat
                   then User.with_password_hash h u else u) us).
Proof.
  induction us as [|u us IH]; simpl; constructor; auto.
  destruct (User.id u =? uid)%nat; now split.
Qed.

Lemma same_identity_In us us' u' :
  Forall2 same_identity us us' -> In u' us' ->
  exists u, In u us /\ same_identity u u'.
Proof.
  induction 1 as [|u0 u0' l l' T _ IH]; simpl; [contradiction|].
  intros [<- | Hin].
  - exists u0. auto.
  - destruct (IH Hin) as [u [? ?]]. exists u. auto.
Qed.

(** A call that leaves [pre_registrations] alone and the identity of the
    users as it was keeps the invariant. *)
Lemma pr_wf_frame s s' :
  pr_wf s ->
  pre_registrations s' = pre_registrations s ->
  Forall2 same_identity (users s) (users s') ->
  (next_id s <= next_id s')%nat ->
  pr_wf s'.
Proof.
  intros [K G D E P A] Epr Eus L. constructor; rewrite ?Epr; auto.
  - rewrite Forall_forall in *. intros p Hp. specialize (G p Hp). lia.
  - intros p u' Hp Hu'.
    destruct (same_identity_In _ _ _ Eus Hu') as [u [Hu [Em _]]].
    rewrite Em. auto.
  - rewrite Forall_forall in *. intros u' Hu'.
    destruct (same_identity_In _ _ _ Eus Hu') as [u [Hu [_ De]]].
    rewrite De. auto.
Qed.

Lemma fresh_not_pending e s :
  fresh e s ->
  ~ In (sha256 (random_hex e))
       (map PreRegistration.verification_token_hash (pre_registrations s)).
Proof.
  unfold fresh, stored_digests. intros F Hin. apply F.
  apply in_or_app. right. apply in_or_app. now left.
Qed.

(** No active user has [email]: with no soft-deleted user, no user has it. *)
Lemma no_user_with_email email s :
  Forall (fun u => User.deleted_at u = None) (users s) ->
  find (fun u => is_null (User.deleted_at u) && (User.email u =? email)%string)
       (users s) = None ->
  forall u, In u (users s) -> User.email u <> email.
Proof.
  intros A Hf u Hu Em. rewrite Forall_forall in A.
  pose proof (find_none _ _ Hf u Hu) as Hn. cbn in Hn.
  rewrite (A u Hu) in Hn. cbn in Hn.
  apply String.eqb_neq in Hn. contradiction.
Qed.

(** Writing a loaded pending sign-up back with a new digest. *)
Lemma pr_wf_resave s s' p p' :
  pr_wf s -> In p (pre_registrations s) ->
  PreRegistration.id p' = PreRegistration.id p ->
  PreRegistration.email p' = PreRegistration.email p ->
  ~ In (PreRegistration.verification_token_hash p')
       (map PreRegistration.verification_token_hash (pre_registrations s)) ->
  pre_registrations s' = save_row PreRegistration.id p' (pre_registrations s) ->
  users s' = users s -> (next_id s <= next_id s')%nat ->
  pr_wf s'.
Proof.
  intros [K G D E P A] Hin Kid Kem NH Epr Eus L.
  destruct (save_row_split PreRegistration.id p' p _ K Hin Kid)
    as [l1 [l2 [E1 E2]]].
  rewrite E2 in Epr.
  assert (Emails : map PreRegistration.email (pre_registrations s')
                   = map PreRegistration.email (pre_registrations s)).
  { rewrite Epr, E1, !map_app. simpl. now rewrite Kem. }
  constructor; rewrite ?Eus; auto.
  - rewrite Epr, map_app. simpl. rewrite Kid.
    rewrite E1, map_app in K. exact K.
  - rewrite Epr. rewrite E1 in G. rewrite Forall_forall in *.
    intros q Hq. apply in_app_or in Hq.
    destruct Hq as [Hq | [<- | Hq]].
    + assert (In q (l1 ++ p :: l2)) as Hq' by (apply in_or_app; now left).
      specialize (G q Hq'). lia.
    + rewrite Kid. specialize (G p (in_elt _ _ _)). lia.
    + assert (In q (l1 ++ p :: l2)) as Hq'
        by (apply in_or_app; right; now right).
      specialize (G q Hq'). lia.
  - rewrite Epr, map_app. simpl.
    rewrite E1, map_app in D, NH. simpl in D, NH.
    apply NoDup_insert.
    + eapply NoDup_remove_1; eauto.
    + intros Hx. apply NH. apply in_app_or in Hx.
      apply in_or_app. destruct Hx; [left | right; right]; assumption.
  - rewrite Emails. exact E.
  - intros q u Hq Hu.
    assert (Hem : In (PreRegistration.email q)
                    (map PreRegistration.email (pre_registrations s))).
    { rewrite <- Emails. now apply in_map. }
    apply in_map_iff in Hem. destruct Hem as [q0 [<- Hq0]]. auto.
Qed.

(** Inserting a pending sign-up for an email nobody holds. *)
Lemma pr_wf_insert s s' p' :
  pr_wf s ->
  PreRegistration.id p' = next_id s -> (next_id s < next_id s')%nat ->
  ~ In (PreRegistration.verification_token_hash p')
       (map PreRegistration.verification_token_hash (pre_registrations s)) ->
  ~ In (PreRegistration.email p')
       (map PreRegistration.email (pre_registrations s)) ->
  (forall u, In u (users s) -> User.email u <> PreRegistration.email p') ->
  pre_registrations s' = pre_registrations s ++ [p'] ->
  users s' = users s ->
  pr_wf s'.
Proof.
  intros [K G D E P A] Kid L NH NE NU Epr Eus.
  constructor; rewrite ?Epr, ?Eus, ?map_app; simpl; auto.
  - apply NoDup_insert; rewrite app_nil_r; auto.
    rewrite Kid. intros Hin. apply in_map_iff in Hin.
    destruct Hin as [q [Hk Hq]]. rewrite Forall_forall in G.
    specialize (G q Hq). lia.
  - apply Forall_app. split.
    + rewrite Forall_forall in *. intros q Hq. specialize (G q Hq). lia.
    + repeat constructor. lia.
  - apply NoDup_insert; rewrite app_nil_r; auto.
  - apply NoDup_insert; rewrite app_nil_r; auto.
  - intros q u Hq Hu. apply in_app_or in Hq.
    destruct Hq as [Hq | [<- | []]]; auto.
Qed.

Lemma pr_wf_register e em pw fn ip ua s :
  pr_wf s -> fresh e s -> pr_wf (exec e (Register em pw fn ip ua) s).
Proof.
  intros W F. pose proof (fresh_not_pending e s F) as NP.
  pose proof (pr_active s W) as A.
  run_service;
    try (apply pr_wf_frame with (s := s); cbn;
         [ assumption | reflexivity | apply same_identity_refl | lia ]; fail).
  all: match goal with
       | H : find _ (users _) = None |- _ =>
           pose proof (no_user_with_email _ _ A H) as NoUser
       end.
  all: try match goal with
       | H : find _ (pre_registrations _) = Some _ |- _ =>
           apply find_some in H; destruct H as [Hin Hem]
       end.
  all: try (eapply pr_wf_resave with (s := s) (p := t); cbn; cycle 5;
            [ reflexivity | reflexivity | lia | assumption | exact Hin
            | reflexivity | reflexivity | exact NP ]; fail).
  all: eapply pr_wf_insert with (s := s); cbn; cycle 6;
    [ reflexivity | reflexivity | assumption | reflexivity | lia
    | exact NP | | exact NoUser ].
  all: intros Hin; apply in_map_iff in Hin; destruct Hin as [q [Hq Hin]];
    match goal with
    | H : find _ (pre_registrations _) = None |- _ =>
        pose proof (find_none _ _ H q Hin) as Hn
    end; cbn in Hn; apply String.eqb_neq in Hn; contradiction.
Qed.

Lemma pr_wf_verifyEmail e t s :
  pr_wf s -> pr_wf (exec e (VerifyEmail t) s).
Proof.
  intros W. pose proof W as [K G D E P A].
  run_service;
    try (apply pr_wf_frame with (s := s); cbn;
         [ assumption | reflexivity | apply same_identity_refl | lia ]; fail).
  match goal with
  | H : find _ (pre_registrations _) = Some _ |- _ =>
      apply find_some in H; destruct H as [Hin Hh]
  end.
  constructor; cbn.
  - now apply NoDup_map_filter.
  - rewrite Forall_forall in *. intros q Hq. apply filter_In in Hq.
    destruct Hq as [Hq _]. specialize (G q Hq). lia.
  - now apply NoDup_map_filter.
  - now apply NoDup_map_filter.
  - intros q u Hq Hu. apply filter_In in Hq. destruct Hq as [Hq Hne].
    apply in_app_or in Hu. destruct Hu as [Hu | [<- | []]]; auto.
    cbn. intros Em.
    assert (q = t0) by (eapply (NoDup_map_eq PreRegistration.email); eauto).
    subst q. rewrite Nat.eqb_refl in Hne. discriminate.
  - apply Forall_app. split; auto.
Qed.

(** Every call keeps [pr_wf]. *)
Lemma pr_wf_exec e c s : pr_wf s -> fresh e s -> pr_wf (exec e c s).
Proof.
  intros W F. destruct c;
    [ now apply pr_wf_register | now apply pr_wf_verifyEmail | .. ];
    run_service;
    apply pr_wf_frame with (s := s); cbn;
      first [ assumption | reflexivity | lia
            | apply same_identity_refl | apply same_identity_password ].
Qed.

Lemma reachable_pr_wf s : reachable s -> pr_wf s.
Proof.
  induction 1 as [|s e c R IH F].
  - constructor; cbn; try constructor. intros p u [].
  - now apply pr_wf_exec.
Qed.

End PreRegistrationTable.

(** ** Email verification *)

Section Verification.

Context {crypto : Crypto}.


End Verification.

(** ** Responses of the single calls *)

Section Responses.

Context {crypto : Crypto}.

(** C4, as amended. [requestPasswordReset] returns the one generic message
    whatever the email (no user, unverified user, or a verified user whose
    mail is sent or fails), except that for a verified user whose new token
    cannot be saved it throws the Internal error. *)
Theorem request_reset_response e email s :
  snd (requestPasswordReset e email s)
  = if reset_issued email s && token_save_fails e
    then Throw (InternalServerErrorException
                  "Failed to generate reset token. Please try again later.")
    else Return (Message frontendMessage).
Proof.
  unfold reset_issued. run_service; try reflexivity.
  all: match goal with
       | H : negb ?b = _ |- _ => destruct b; try discriminate
       end; reflexivity.
Qed.

(** C5, as amended. [login] returns tokens exactly for a user that is not
    soft-deleted, is verified and whose password matches; in every other
    case it throws Unauthorized. The [disabled] flag is not read. *)
Theorem login_gate e email password device_id ip user_agent s :
  (forall s1 r,
      login e email password device_id ip user_agent s = (s1, Return r) ->
      exists u,
        In u (users s)
        /\ User.email u = toLowerCase email
        /\ User.deleted_at u = None
        /\ User.is_email_verified u = true
        /\ bcrypt_compare password (User.password_hash u) = true
        /\ r = Tokens (jwt_sign (User.id u) (User.role u) device_id)
                      (random_hex e) 900)
  /\ (forall u,
        findByEmail (toLowerCase email) s = (s, Return (Some u)) ->
        User.is_email_verified u = true ->
        bcrypt_compare password (User.password_hash u) = true ->
        snd (login e email password device_id ip user_agent s)
        = Return (Tokens (jwt_sign (User.id u) (User.role u) device_id)
                         (random_hex e) 900))
  /\ ((forall u,
        findByEmail (toLowerCase email) s = (s, Return (Some u)) ->
        User.is_email_verified u = false
        \/ bcrypt_compare password (User.password_hash u) = false) ->
      exists msg,
        snd (login e email password device_id ip user_agent s)
        = Throw (UnauthorizedException msg)).
Proof.
  repeat split.
  - intros s1 r. run_service; intros Hrun; try discriminate.
    injection Hrun as _ <-.
    match goal with
    | H : find _ _ = Some _ |- _ => apply find_some in H; destruct H as [Hin Hp]
    end.
    apply andb_true_iff in Hp. destruct Hp as [Hd Hem].
    apply String.eqb_eq in Hem.
    exists t. repeat split; auto.
    + destruct (User.deleted_at t); [discriminate | reflexivity].
    + now apply negb_false_iff.
    + now apply negb_false_iff.
  - intros u. run_service; intros Hf V C; try discriminate;
      injection Hf as ->; try reflexivity.
    + rewrite V in *. discriminate.
    + rewrite C in *. discriminate.
  - run_service; intros Hbad; eauto.
    exfalso. destruct (Hbad _ eq_refl) as [V | C].
    + rewrite V in *. discriminate.
    + rewrite C in *. discriminate.
Qed.

(** C6, as amended. [logout] throws NotFound exactly when no row holds the
    digest of the token; otherwise it returns, the row it loaded is written
    back revoked, and a second [logout] with the same token returns again,
    since the lookup does not look at [is_revoked]. *)
Theorem logout_semantics e t s :
  ((forall r, In r (refresh_tokens s) ->
              RefreshToken.token_hash r <> sha256 t) ->
   logout e t s = (s, Throw (NotFoundException "Refresh token not found")))
  /\ (forall r, In r (refresh_tokens s) ->
        RefreshToken.token_hash r = sha256 t ->
        exists s1 tok,
          logout e t s = (s1, Return (Message "Logged out successfully"))
          /\ In tok (refresh_tokens s)
          /\ RefreshToken.token_hash tok = sha256 t
          /\ In (RefreshToken.with_is_revoked true tok) (refresh_tokens s1)
          /\ (forall r1, In r1 (refresh_tokens s1) ->
                RefreshToken.id r1 = RefreshToken.id tok ->
                RefreshToken.is_revoked r1 = true)
          /\ forall e2,
               snd (logout e2 t s1)
               = Return (Message "Logged out successfully")).
Proof.
  split.
  - intros None. unfold logout, bind, gets.
    destruct (find _ (refresh_tokens s)) as [r|] eqn:Hf; [|reflexivity].
    apply find_some in Hf. destruct Hf as [Hin Hh].
    apply String.eqb_eq in Hh. exfalso. exact (None r Hin Hh).
  - intros r Hin Hh. unfold logout at 1. unfold bind, gets.
    destruct (find _ (refresh_tokens s)) as [tok|] eqn:Hf.
    2: { pose proof (find_none _ _ Hf r Hin) as Hn. cbn in Hn.
         apply String.eqb_neq in Hn. contradiction. }
    apply find_some in Hf. destruct Hf as [Hin0 Hh0].
    apply String.eqb_eq in Hh0. run_service.
    eexists _, tok. split; [reflexivity|]. cbn.
    assert (Hnew : In (RefreshToken.with_is_revoked true tok)
              (save_row RefreshToken.id (RefreshToken.with_is_revoked true tok)
                 (refresh_tokens s))).
    { unfold save_row. apply in_map_iff. exists tok. split; auto.
      cbn. now rewrite Nat.eqb_refl. }
    repeat split; auto.
    + intros r1 Hr1 Hid. unfold save_row in Hr1. apply in_map_iff in Hr1.
      destruct Hr1 as [r0 [Hr0 _]]. cbn in Hr0.
      destruct (Nat.eqb_spec (RefreshToken.id r0) (RefreshToken.id tok)).
      * now subst r1.
      * subst r1. contradiction.
    + intros e2.
      destruct (find (fun r0 => (RefreshToken.token_hash r0 =? sha256 t)%string)
                  (save_row RefreshToken.id
                     (RefreshToken.with_is_revoked true tok)
                     (refresh_tokens s))) eqn:Hf2; [reflexivity|].
      pose proof (find_none _ _ Hf2 _ Hnew) as Hn. cbn in Hn.
      apply String.eqb_neq in Hn. contradiction.
Qed.

Lemma expiry_rejects e t s :
  (forall p,
      find (fun p => (PreRegistration.verification_token_hash p
                      =? sha256 t)%string) (pre_registrations s) = Some p ->
      (snd (verifyEmail e t s) = Throw (ConflictException "Token expired")
       <-> PreRegistration.expires_at p < now e))
  /\ (forall d tok u,
        findStoredToken (sha256 t) d s = (s, Return (Some (tok, u))) ->
        (snd (refreshTokens e t d s)
         = Throw (UnauthorizedException "Refresh token expired")
         <-> RefreshToken.expires_at tok < now e))
  /\ (forall tok u,
        findStoredReset (sha256 t) s = (s, Return (Some (tok, u))) ->
        PasswordResetToken.used tok = false ->
        (snd (verifyResetToken e t s)
         = Throw (UnauthorizedException
                    "This reset link has expired. Please request a new one.")
         <-> PasswordResetToken.expires_at tok < now e))
  /\ (forall tok u pw,
        findStoredReset (sha256 t) s = (s, Return (Some (tok, u))) ->
        PasswordResetToken.used tok = false ->
        (snd (resetPassword e t pw s)
         = Throw (UnauthorizedException
                    "This reset link has expired. Please request a new one.")
         <-> PasswordResetToken.expires_at tok < now e)).
Proof.
  repeat split.
  all: try (intros Hrun; revert Hrun).
  all: try match goal with
           | H : find _ _ = Some _ |- _ => revert H
           | H : _ = (_, Return (Some _)) |- _ => revert H
           end.
  all: try match goal with
           | H : PasswordResetToken.used _ = false |- _ => revert H
           end.
  all: run_service; intros;
    repeat match goal with
           | H : Some _ = Some _ |- _ => injection H as ?
           | H : (_, _) = (_, _) |- _ => injection H as ?
           | H : Return _ = Return _ |- _ => injection H as ?
           end; subst;
    try discriminate; try reflexivity; try congruence;
    try (apply Z.ltb_lt; assumption);
    try match goal with
        | H : (?a <? ?b) = false, H' : ?a < ?b |- _ =>
            apply Z.ltb_ge in H; lia
        end.
Qed.

(** C10. In [verifyEmail], [refreshTokens], [verifyResetToken] and
    [resetPassword] the token found is rejected as expired exactly when its
    [expires_at] is strictly earlier than the current time.  At any time up
    to and including [expires_at] it is accepted: the call returns, when
    what comes after the check does not fail (no row holds the email and
    the user is saved; the session has an owner and was not rotated; the
    reset token has an owner and is unused, and the password is
    updated). *)
Theorem expiry_is_strict e t s :
  ((forall p,
      find (fun p => (PreRegistration.verification_token_hash p
                      =? sha256 t)%string) (pre_registrations s) = Some p ->
      (snd (verifyEmail e t s) = Throw (ConflictException "Token expired")
       <-> PreRegistration.expires_at p < now e))
   /\ (forall d tok u,
         findStoredToken (sha256 t) d s = (s, Return (Some (tok, u))) ->
         (snd (refreshTokens e t d s)
          = Throw (UnauthorizedException "Refresh token expired")
          <-> RefreshToken.expires_at tok < now e))
   /\ (forall tok u,
         findStoredReset (sha256 t) s = (s, Return (Some (tok, u))) ->
         PasswordResetToken.used tok = false ->
         (snd (verifyResetToken e t s)
          = Throw (UnauthorizedException
                     "This reset link has expired. Please request a new one.")
          <-> PasswordResetToken.expires_at tok < now e))
   /\ (forall tok u pw,
         findStoredReset (sha256 t) s = (s, Return (Some (tok, u))) ->
         PasswordResetToken.used tok = false ->
         (snd (resetPassword e t pw s)
          = Throw (UnauthorizedException
                     "This reset link has expired. Please request a new one.")
          <-> PasswordResetToken.expires_at tok < now e)))
  /\ (forall p,
        find (fun p => (PreRegistration.verification_token_hash p
                        =? sha256 t)%string) (pre_registrations s) = Some p ->
        now e <= PreRegistration.expires_at p ->
        existsb (fun u => (User.email u =? PreRegistration.email p)%string)
                (users s) = false ->
        user_save_fails e = false ->
        snd (verifyEmail e t s)
        = Return (Success true "Email successfully verified"))
  /\ (forall d tok u,
        findStoredToken (sha256 t) d s = (s, Return (Some (tok, Some u))) ->
        now e <= RefreshToken.expires_at tok ->
        RefreshToken.last_seen_at tok = None ->
        snd (refreshTokens e t d s)
        = Return (Refreshed true "Tokens refreshed successfully"
                    (jwt_sign (User.id u) (User.role u) d) (random_hex e) 900))
  /\ (forall tok u,
        findStoredReset (sha256 t) s = (s, Return (Some (tok, Some u))) ->
        PasswordResetToken.used tok = false ->
        now e <= PasswordResetToken.expires_at tok ->
        snd (verifyResetToken e t s) = Return (ValidReset true (User.email u)))
  /\ (forall tok u pw,
        findStoredReset (sha256 t) s = (s, Return (Some (tok, Some u))) ->
        PasswordResetToken.used tok = false ->
        now e <= PasswordResetToken.expires_at tok ->
        update_password_fails e = false ->
        snd (resetPassword e t pw s)
        = Return (Message
            "Your password has been reset successfully. Please log in with your new password.")).
Proof.
  split; [exact (expiry_rejects e t s)|].
  repeat split.
  - intros p Hf Hnow Hfree Hsave.
    assert (Hnone : find (fun u => is_null (User.deleted_at u)
                            && (User.email u =? PreRegistration.email p)%string)
                         (users s) = None).
    { destruct (find _ (users s)) as [u|] eqn:Hu; [|reflexivity].
      apply find_some in Hu. destruct Hu as [Hu Hp].
      apply andb_true_iff in Hp. destruct Hp as [_ Hp].
      assert (Ht : existsb (fun u => (User.email u
                                      =? PreRegistration.email p)%string)
                           (users s) = true)
        by (apply existsb_exists; eauto).
      congruence. }
    unfold verifyEmail, bind, gets. rewrite Hf.
    destruct (Z.ltb_spec (PreRegistration.expires_at p) (now e)); [lia|].
    unfold createUser, findByEmail, bind, gets. rewrite Hnone.
    unfold try_catch, userRepository_save, bind, gets, rejecting.
    rewrite Hfree, Hsave. reflexivity.
  - intros d tok u Hf Hnow Hseen.
    unfold refreshTokens, bind. rewrite Hf. unfold rotateStoredToken.
    destruct (Z.ltb_spec (RefreshToken.expires_at tok) (now e)); [lia|].
    rewrite Hseen. reflexivity.
  - intros tok u Hf Hused Hnow.
    unfold verifyResetToken, bind. rewrite Hf, Hused.
    destruct (Z.ltb_spec (PasswordResetToken.expires_at tok) (now e)); [lia|].
    reflexivity.
  - intros tok u pw Hf Hused Hnow Hup.
    unfold resetPassword, bind. rewrite Hf, Hused.
    destruct (Z.ltb_spec (PasswordResetToken.expires_at tok) (now e)); [lia|].
    run_service; congruence.
Qed.

End Responses.

(** ** Password reset *)

Section PasswordReset.

Context {crypto : Crypto}.

Lemma unused_after_invalidate uid u rows :
  filter (fun t => (PasswordResetToken.user_id t =? uid)%nat
                   && negb (PasswordResetToken.used t))
    (map (fun t => if (PasswordResetToken.user_id t =? u)%nat
                   then PasswordResetToken.with_used true t else t) rows)
  = if (uid =? u)%nat then []
    else filter (fun t => (PasswordResetToken.user_id t =? uid)%nat
                          && negb (PasswordResetToken.used t)) rows.
Proof.
  induction rows as [|r rows IH]; simpl.
  - now destruct (uid =? u)%nat.
  - rewrite IH. clear IH.
    destruct (Nat.eqb_spec (PasswordResetToken.user_id r) u) as [Eu|Nu];
      cbn; destruct (Nat.eqb_spec uid u) as [Ev|Nv]; subst;
      rewrite ?andb_false_r; try reflexivity.
    + destruct (Nat.eqb_spec (PasswordResetToken.user_id r) uid);
        [congruence | reflexivity].
    + destruct (Nat.eqb_spec (PasswordResetToken.user_id r) u);
        [contradiction | reflexivity].
Qed.

Lemma unused_after_save (P : PasswordResetToken.t -> bool) x rows :
  P x = false ->
  (List.length (filter P (save_row PasswordResetToken.id x rows))
   <= List.length (filter P rows))%nat.
Proof.
  intros Hx. induction rows as [|r rows IH]; simpl; [lia|].
  destruct (PasswordResetToken.id r =? PasswordResetToken.id x)%nat.
  - rewrite Hx. fold (save_row PasswordResetToken.id x rows).
    destruct (P r); simpl; lia.
  - fold (save_row PasswordResetToken.id x rows).
    destruct (P r); simpl; lia.
Qed.

Lemma single_active_exec e c s :
  invalidate_fails e = false -> single_active s -> single_active (exec e c s).
Proof.
  intros Inv S uid. specialize (S uid). unfold unused_tokens in *.
  destruct c; run_service; try exact S; try congruence.
  all: try (eapply Nat.le_trans; [apply unused_after_save | exact S];
            cbn; now rewrite andb_false_r).
  all: rewrite ?filter_app, ?length_app, unused_after_invalidate; cbn.
  all: destruct (Nat.eqb_spec uid (User.id t)) as [->|Ne];
    rewrite ?Nat.eqb_refl; cbn; try lia.
  all: destruct (Nat.eqb_spec (User.id t) uid); [congruence|]; cbn; lia.
Qed.

Lemma reachable_single_active s :
  reachable_under invalidation_works s -> single_active s.
Proof.
  induction 1 as [|s e c R IH Inv]; [intros uid; cbn; lia|].
  now apply single_active_exec.
Qed.

(** The two halves of [requestPasswordReset], run one after the other
    with nothing in between, are [requestPasswordReset]. *)
Lemma requestPasswordReset_by_awaits e email s :
  requestPasswordReset e email s
  = (target <- requestUntilUpdate e email ;; requestFromInsert e target) s.
Proof.
  unfold requestPasswordReset, requestUntilUpdate, requestFromInsert,
    findByEmail, bind, gets.
  destruct (find _ (users s)) as [u|]; [|reflexivity].
  destruct (User.is_email_verified u); [|reflexivity]. cbn [negb].
  unfold try_catch, rejecting, modify, ret.
  destruct (invalidate_fails e); reflexivity.
Qed.

Lemma single_active_usable s uid t :
  (List.length (unused_tokens uid s) <= 1)%nat ->
  (List.length (usable_tokens uid t s) <= 1)%nat.
Proof.
  intros S. unfold usable_tokens.
  eapply Nat.le_trans; [|exact S].
  generalize (unused_tokens uid s). intros l.
  induction l as [|r l IH]; simpl; [lia|].
  destruct (negb _); simpl; lia.
Qed.

(** C8, as amended.  A [requestPasswordReset] that returns for a verified
    user, whose invalidating update did not fail and between whose update
    and insert no other call wrote, leaves that user exactly one unused
    reset token, the new one, whatever the store held before, and the
    unused tokens of the other users as they were.  Every call that runs
    without such a failure keeps "at most one unused token per user"; so
    in the stores reached by calls that run one after the other without
    such a failure each user has at most one unused, hence at most one
    usable, reset token. *)
Theorem single_active_reset_token :
  (forall e email s s1 r u,
      findByEmail (toLowerCase email) s = (s, Return (Some u)) ->
      User.is_email_verified u = true ->
      invalidate_fails e = false ->
      requestPasswordReset e email s = (s1, Return r) ->
      (exists t,
         unused_tokens (User.id u) s1 = [t]
         /\ PasswordResetToken.token_hash t = sha256 (random_hex e)
         /\ PasswordResetToken.expires_at t = now e + 900000)
      /\ (forall t, In t (password_reset_tokens s) ->
            PasswordResetToken.user_id t = User.id u ->
            exists t', In t' (password_reset_tokens s1)
                       /\ PasswordResetToken.id t' = PasswordResetToken.id t
                       /\ PasswordResetToken.used t' = true)
      /\ forall uid, uid <> User.id u ->
           unused_tokens uid s1 = unused_tokens uid s)
  /\ (forall e c s,
        invalidate_fails e = false ->
        single_active s -> single_active (exec e c s))
  /\ forall s,
       reachable_under invalidation_works s ->
       forall uid,
         (List.length (unused_tokens uid s) <= 1)%nat
         /\ forall t, (List.length (usable_tokens uid t s) <= 1)%nat.
Proof.
  split; [|split].
  - intros e email s s1 r u Hf Hv Hinv.
    unfold findByEmail, gets in Hf. injection Hf as Hf.
    unfold requestPasswordReset, findByEmail, bind, gets.
    rewrite Hf, Hv. cbn [negb].
    run_service; intros Hrun; try discriminate; try congruence;
      injection Hrun as <- _.
    all: unfold unused_tokens; cbn.
    all: repeat split.
    all: try (eexists; rewrite filter_app, unused_after_invalidate,
                Nat.eqb_refl; cbn; rewrite Nat.eqb_refl; cbn;
              repeat split; reflexivity).
    all: try (intros t0 Hin Hid;
              exists (PasswordResetToken.with_used true t0);
              split; [|split; reflexivity];
              apply in_or_app; left; apply in_map_iff; exists t0;
              split; [|exact Hin];
              rewrite Hid, Nat.eqb_refl; reflexivity).
    all: intros uid Hne; rewrite filter_app, unused_after_invalidate; cbn;
      destruct (Nat.eqb_spec uid (User.id u)); [contradiction|];
      destruct (Nat.eqb_spec (User.id u) uid); [congruence|];
      cbn; now rewrite app_nil_r.
  - intros e c s. apply single_active_exec.
  - intros s R uid. pose proof (reachable_single_active s R uid) as S.
    split; [exact S|]. intros t. now apply single_active_usable.
Qed.

(** C9, as amended. When [resetPassword] returns, the token it was given
    was stored, unused and not expired, and its user exists; every user row
    with that key holds the hash of the new password; the token is marked
    used unless saving it failed; and, whether or not that save failed,
    every refresh token of the user is revoked unless the update of
    [logoutAll] failed. *)
Theorem reset_password_effects e t pw s s1 r :
  resetPassword e t pw s = (s1, Return r) ->
  exists stored u,
    findStoredReset (sha256 t) s = (s, Return (Some (stored, Some u)))
    /\ PasswordResetToken.used stored = false
    /\ now e <= PasswordResetToken.expires_at stored
    /\ User.id u = PasswordResetToken.user_id stored
    /\ (forall u1, In u1 (users s1) -> User.id u1 = User.id u ->
          User.password_hash u1 = bcrypt_hash (salt e) pw)
    /\ (mark_used_fails e = false ->
        forall t1, In t1 (password_reset_tokens s1) ->
          PasswordResetToken.id t1 = PasswordResetToken.id stored ->
          PasswordResetToken.used t1 = true)
    /\ (revoke_all_fails e = false ->
        forall rt, In rt (refresh_tokens s1) ->
          RefreshToken.user_id rt = User.id u ->
          RefreshToken.is_revoked rt = true).
Proof.
  run_service; intros Hrun; try discriminate; injection Hrun as <- _.
  all: match goal with
       | H : user_relation _ _ = Some _ |- _ =>
           pose proof H as Hrel; unfold user_relation in H;
           apply find_some in H; destruct H as [Hu Hid];
           apply Nat.eqb_eq in Hid
       end.
  all: match goal with
       | H : (_ <? _) = false |- _ => apply Z.ltb_ge in H
       end.
  all: eexists _, _; split; [reflexivity|].
  all: cbn; repeat split; auto; try congruence.
  all: try (intros u1 Hu1 Hk; apply in_map_iff in Hu1;
            destruct Hu1 as [u0 [Hu0 _]];
            destruct (Nat.eqb_spec (User.id u0) (User.id t1));
            subst u1; cbn in *; [reflexivity | contradiction]).
  all: try (intros _ t2 Ht2 Hk; apply in_map_iff in Ht2;
            destruct Ht2 as [r0 [Hr0 _]];
            destruct (Nat.eqb_spec (PasswordResetToken.id r0)
                                   (PasswordResetToken.id t0));
            subst t2; [reflexivity | contradiction]).
  all: try (intros _ rt Hrt Hk; apply in_map_iff in Hrt;
            destruct Hrt as [r0 [Hr0 _]];
            destruct (Nat.eqb_spec (RefreshToken.user_id r0) (User.id t1));
            subst rt; cbn in *; [reflexivity | contradiction]).
Qed.

End PasswordReset.

(** ** Further properties of the flows *)

Section Flows.

Context {crypto : Crypto}.

(** X1. After [register] for an email no user holds, whether it returned or
    the mail failed, exactly one pending sign-up has that email. *)
Theorem one_pending_signup_per_email e em pw fn ip ua s :
  reachable s -> fresh e s ->
  findByEmail (toLowerCase em) s = (s, Return None) ->
  exists p,
    In p (pre_registrations (exec e (Register em pw fn ip ua) s))
    /\ PreRegistration.email p = toLowerCase em
    /\ forall q,
         In q (pre_registrations (exec e (Register em pw fn ip ua) s)) ->
         PreRegistration.email q = toLowerCase em -> q = p.
Proof.
  intros R F Hnone.
  pose proof (pr_wf_exec e (Register em pw fn ip ua) s (reachable_pr_wf s R) F)
    as W.
  assert (Ex : exists p,
             In p (pre_registrations (exec e (Register em pw fn ip ua) s))
             /\ PreRegistration.email p = toLowerCase em).
  { clear W. revert Hnone. run_service; intros Hnone; try discriminate.
    all: try match goal with
             | H : find _ (pre_registrations _) = Some _ |- _ =>
                 apply find_some in H; destruct H as [Hin Hem];
                 apply String.eqb_eq in Hem
             end.
    all: try (eexists; split;
              [ unfold save_row; apply in_map_iff; exists t; split;
                [ rewrite Nat.eqb_refl; reflexivity | exact Hin ]
              | exact Hem ]; fail).
    all: eexists; split; [apply in_or_app; right; left; reflexivity
                         | reflexivity]. }
  destruct Ex as [p [Hp Hem]]. exists p. repeat split; auto.
  intros q Hq Hqe.
  eapply (NoDup_map_eq PreRegistration.email); eauto using pr_emails.
  congruence.
Qed.

(** X2. When its update works, [logoutAll] returns, every refresh token of
    the user is revoked, and [refreshTokens] with a token that only rows of
    that user hold throws Unauthorized. *)
Theorem logout_all_revokes_sessions e uid s :
  revoke_all_fails e = false ->
  exists s1,
    logoutAll e uid s = (s1, Return (Message "All sessions revoked"))
    /\ (forall rt, In rt (refresh_tokens s1) ->
          RefreshToken.user_id rt = uid -> RefreshToken.is_revoked rt = true)
    /\ forall e2 t d,
         (forall r, In r (refresh_tokens s) ->
            RefreshToken.token_hash r = sha256 t ->
            RefreshToken.user_id r = uid) ->
         refreshTokens e2 t d s1
         = (s1, Throw (UnauthorizedException "Invalid or revoked refresh token")).
Proof.
  intros Hok. unfold logoutAll, bind, rejecting, modify, enqueueLog, ret.
  rewrite Hok. cbn. eexists. split; [reflexivity|]. cbn.
  assert (Rev : forall rt,
            In rt (map (fun r => if (RefreshToken.user_id r =? uid)%nat
                                 then RefreshToken.with_is_revoked true r
                                 else r) (refresh_tokens s)) ->
            exists r0, In r0 (refresh_tokens s)
              /\ RefreshToken.token_hash rt = RefreshToken.token_hash r0
              /\ RefreshToken.user_id rt = RefreshToken.user_id r0
              /\ (RefreshToken.user_id r0 = uid ->
                  RefreshToken.is_revoked rt = true)).
  { intros rt Hrt. apply in_map_iff in Hrt. destruct Hrt as [r0 [Hr0 Hin]].
    exists r0. destruct (Nat.eqb_spec (RefreshToken.user_id r0) uid);
      subst rt; cbn; repeat split; auto; contradiction. }
  split.
  - intros rt Hrt Hu. destruct (Rev rt Hrt) as [r0 [_ [_ [Hu0 Hr]]]].
    apply Hr. congruence.
  - intros e2 t d Hown.
    unfold refreshTokens, bind, findStoredToken, storedTokenIn, gets. cbn.
    destruct (find _ (map _ (refresh_tokens s))) as [rt|] eqn:Hf;
      [|reflexivity].
    apply find_some in Hf. destruct Hf as [Hrt Hp].
    apply andb_true_iff in Hp. destruct Hp as [Hp NR].
    apply andb_true_iff in Hp. destruct Hp as [Hh _].
    apply String.eqb_eq in Hh.
    destruct (Rev rt Hrt) as [r0 [Hin0 [Hh0 [_ Hr]]]].
    rewrite Hr in NR; [discriminate|].
    apply Hown; congruence.
Qed.

(** The row a reset was loaded from, once written back used, is the row the
    next lookup of the same digest returns. *)
Lemma find_after_mark_used h stored rows :
  find (fun t => (PasswordResetToken.token_hash t =? h)%string) rows
  = Some stored ->
  find (fun t => (PasswordResetToken.token_hash t =? h)%string)
       (save_row PasswordResetToken.id
          (PasswordResetToken.with_used true stored) rows)
  = Some (PasswordResetToken.with_used true stored).
Proof.
  intros Hf. pose proof (find_some _ _ Hf) as [_ Hh].
  induction rows as [|r rows IH]; simpl in *; [discriminate|].
  destruct (PasswordResetToken.token_hash r =? h)%string eqn:Hr.
  - injection Hf as ->. rewrite Nat.eqb_refl. cbn. now rewrite Hh.
  - destruct (PasswordResetToken.id r =? PasswordResetToken.id stored)%nat.
    + cbn. now rewrite Hh.
    + rewrite Hr. now apply IH.
Qed.

(** X3. A reset token that [resetPassword] has used and marked used is
    refused, as Unauthorized, by a second [resetPassword]. *)
Theorem reset_token_single_use e t pw s s1 r :
  mark_used_fails e = false ->
  resetPassword e t pw s = (s1, Return r) ->
  forall e2 pw2,
    resetPassword e2 t pw2 s1
    = (s1, Throw (UnauthorizedException
                    "This reset link is invalid or has already been used.")).
Proof.
  intros Hmark Hrun e2 pw2.
  assert (Used : exists stored,
            find (fun x => (PasswordResetToken.token_hash x =? sha256 t)%string)
                 (password_reset_tokens s1)
            = Some (PasswordResetToken.with_used true stored)).
  { revert Hrun. run_service; intros Hrun; try discriminate;
      injection Hrun as <- _; try congruence.
    all: match goal with
         | H : find _ (password_reset_tokens _) = Some ?x |- _ =>
             exists x; cbn; now apply find_after_mark_used
         end. }
  destruct Used as [stored Hf].
  unfold resetPassword, bind, findStoredReset, gets. rewrite Hf. reflexivity.
Qed.

End Flows.

(** ** The scenario, run *)

Section ScenarioFacts.

Local Existing Instance toy_crypto.

Lemma reachable_under_weaken (ok ok' : Env -> Store -> Prop) s :
  (forall e s, ok e s -> ok' e s) ->
  reachable_under ok s -> reachable_under ok' s.
Proof.
  intros W R. induction R; [apply reach_empty | apply reach_call; auto].
Qed.

Ltac careful_call :=
  apply reach_call;
  [ | split; [apply freshb_fresh; vm_compute; reflexivity | reflexivity] ].

Lemma s_registered_careful : reachable_under careful s_registered.
Proof. unfold s_registered. careful_call. apply reach_empty. Qed.

Lemma s_verified_careful : reachable_under careful s_verified.
Proof. unfold s_verified. careful_call. apply s_registered_careful. Qed.

Lemma s_logged_in_careful : reachable_under careful s_logged_in.
Proof. unfold s_logged_in. careful_call. apply s_verified_careful. Qed.

Lemma s_rotated_careful : reachable_under careful s_rotated.
Proof. unfold s_rotated. careful_call. apply s_logged_in_careful. Qed.

Lemma s_reset_requested_careful : reachable_under careful s_reset_requested.
Proof. unfold s_reset_requested. careful_call. apply s_logged_in_careful. Qed.

Lemma careful_reachable s : reachable_under careful s -> reachable s.
Proof. apply reachable_under_weaken. intros e s0 [F _]. exact F. Qed.

Lemma careful_unconstrained s :
  reachable_under careful s -> reachable_under unconstrained s.
Proof. apply reachable_under_weaken. intros e s0 _. exact I. Qed.

Lemma careful_invalidation s :
  reachable_under careful s -> reachable_under invalidation_works s.
Proof. apply reachable_under_weaken. intros e s0 [_ V]. exact V. Qed.

End ScenarioFacts.

(** ** The theorems at the scenario *)

Section Instances.

Local Existing Instance toy_crypto.

(** C1 at the scenario: the token rotated at 4000 is refused at 4005. *)
Lemma refresh_token_single_use_witness :
  refreshTokens (env_at 4005 "r3") "r1" "dev1" s_rotated
  = (s_rotated,
     Throw (UnauthorizedException "Invalid or revoked refresh token")).
Proof.
  refine (proj2 (refresh_token_single_use (env_at 4000 "r2") "r1" "dev1"
                   s_logged_in s_rotated
                   (Refreshed true "Tokens refreshed successfully"
                      "jwt.dev1" "r2" 900) _ _ _)
            s_rotated (later_refl _) (env_at 4005 "r3") "dev1").
  - exact (careful_reachable _ s_logged_in_careful).
  - apply freshb_fresh. vm_compute. reflexivity.
  - vm_compute. reflexivity.
Defined.

(** C2 at the scenario: two racing rotations of the session's token. *)
Lemma racing_rotations_both_succeed_witness :
  exists s2 a1 a2,
    racingRefreshTokens (env_at 4000 "r2") (env_at 4001 "r3") "r1" "dev1"
      s_logged_in
    = (s2, (Return (Refreshed true "Tokens refreshed successfully" a1 "r2" 900),
            Return (Refreshed true "Tokens refreshed successfully" a2 "r3" 900))).
Proof.
  apply (racing_rotations_both_succeed (env_at 4000 "r2") (env_at 4001 "r3")
           "r1" "dev1" s_logged_in session_r1 user_a).
  - vm_compute. reflexivity.
  - reflexivity.
  - vm_compute. discriminate.
  - vm_compute. discriminate.
Defined.


(** C4 refuted as stated: when the new token cannot be saved, the response
    for the verified a@x.com is the Internal error and the response for an
    unknown email is the generic message. *)
Lemma request_reset_reveals_account :
  snd (requestPasswordReset env_token_save_fails "a@x.com" s_verified)
  = Throw (InternalServerErrorException
             "Failed to generate reset token. Please try again later.")
  /\ snd (requestPasswordReset env_token_save_fails "nobody@x.com" s_verified)
     = Return (Message frontendMessage).
Proof. split; vm_compute; reflexivity. Qed.

(** C5 refuted as stated: a disabled user who is verified and gives the
    right password is logged in. *)
Lemma login_admits_disabled_user :
  exists u,
    In u (users s_disabled)
    /\ User.email u = "a@x.com"
    /\ User.disabled u = true
    /\ snd (login (env_at 3000 "r1") "a@x.com" "pw12345" "dev1" "10.0.0.1"
              "ua" s_disabled)
       = Return (Tokens "jwt.dev1" "r1" 900).
Proof.
  eexists. split; [left; reflexivity|]. vm_compute. repeat split.
Qed.

(** C6 refuted as stated: the second [logout] with the same raw token
    returns, it does not throw NotFound. *)
Lemma second_logout_returns :
  logout (env_at 4000 "x1") "r1" s_logged_in
  = (s_logged_out, Return (Message "Logged out successfully"))
  /\ snd (logout (env_at 4001 "x2") "r1" s_logged_out)
     = Return (Message "Logged out successfully").
Proof. split; vm_compute; reflexivity. Qed.

(** C7 at the scenario: five seconds after its rotation the token is not
    refused by the cooldown. *)
Lemma refresh_cooldown_never_fires_witness :
  snd (refreshTokens (env_at 4005 "r3") "r1" "dev1" s_rotated)
  <> Throw (BadRequestException "Refresh requested too soon").
Proof.
  apply refresh_cooldown_never_fires.
  exact (careful_unconstrained _ s_rotated_careful).
Defined.


(** C10 at the scenario: each of the four tokens, presented at the
    instant of its [expires_at], is accepted. *)
Lemma expiry_is_strict_witness :
  snd (verifyEmail (env_at 3601000 "v2") "v1" s_registered)
  = Return (Success true "Email successfully verified")
  /\ snd (refreshTokens (env_at 604803000 "r2") "r1" "dev1" s_logged_in)
     = Return (Refreshed true "Tokens refreshed successfully"
                 "jwt.dev1" "r2" 900)
  /\ snd (verifyResetToken (env_at 905000 "x2") "p1" s_reset_requested)
     = Return (ValidReset true "a@x.com")
  /\ snd (resetPassword (env_at 905000 "x2") "p1" "newpw123"
            s_reset_requested)
     = Return (Message
         "Your password has been reset successfully. Please log in with your new password.").
Proof.
  split; [|split; [|split]].
  - apply (proj1 (proj2 (expiry_is_strict (env_at 3601000 "v2") "v1"
                           s_registered)) pending_a);
      [reflexivity | vm_compute; discriminate | reflexivity | reflexivity].
  - assert (Hnow : now (env_at 604803000 "r2")
                   <= RefreshToken.expires_at session_r1)
      by (vm_compute; discriminate).
    exact (proj1 (proj2 (proj2 (expiry_is_strict (env_at 604803000 "r2") "r1"
                                  s_logged_in))) "dev1"%string session_r1 user_a
             eq_refl Hnow eq_refl).
  - apply (proj1 (proj2 (proj2 (proj2
             (expiry_is_strict (env_at 905000 "x2") "p1" s_reset_requested))))
             {| PasswordResetToken.id := 3%nat;
                PasswordResetToken.token_hash := "sha256:p1";
                PasswordResetToken.user_id := 1%nat;
                PasswordResetToken.expires_at := 905000;
                PasswordResetToken.used := false |} user_a);
      [reflexivity | reflexivity | vm_compute; discriminate].
  - apply (proj2 (proj2 (proj2 (proj2
             (expiry_is_strict (env_at 905000 "x2") "p1" s_reset_requested))))
             {| PasswordResetToken.id := 3%nat;
                PasswordResetToken.token_hash := "sha256:p1";
                PasswordResetToken.user_id := 1%nat;
                PasswordResetToken.expires_at := 905000;
                PasswordResetToken.used := false |} user_a "newpw123"%string);
      [reflexivity | reflexivity | vm_compute; discriminate | reflexivity].
Defined.

(** C8 refuted as stated: user 1 has two usable reset tokens in a
    reachable store after a request whose invalidating update failed, and
    also, with no failure at all, after two requests that overlap (update,
    update, insert, insert). *)
Lemma two_usable_reset_tokens :
  (reachable s_two_tokens
   /\ List.length (usable_tokens 1%nat 6000 s_two_tokens) = 2%nat)
  /\ exists s2,
       racingRequestPasswordReset (env_at 5000 "p1") (env_at 5001 "p2")
         "a@x.com" "a@x.com" s_logged_in
       = (s2, (Return (Message frontendMessage),
               Return (Message frontendMessage)))
       /\ List.length (usable_tokens 1%nat 6000 s2) = 2%nat.
Proof.
  split.
  - split; [|vm_compute; reflexivity].
    unfold s_two_tokens. apply reach_call.
    + exact (careful_reachable _ s_reset_requested_careful).
    + apply freshb_fresh. vm_compute. reflexivity.
  - eexists. split; vm_compute; reflexivity.
Qed.

(** C8 at the scenario: the second request of user 1, made after the
    first, marks the token p1 used and leaves p2 as the one unused token. *)
Lemma single_active_reset_token_witness :
  (exists t,
     unused_tokens 1%nat s_second_request = [t]
     /\ PasswordResetToken.token_hash t = "sha256:p2"%string
     /\ PasswordResetToken.expires_at t = 906000)
  /\ (exists t',
        In t' (password_reset_tokens s_second_request)
        /\ PasswordResetToken.token_hash t' = "sha256:p1"%string
        /\ PasswordResetToken.used t' = true)
  /\ forall t, (List.length (usable_tokens 1%nat t s_second_request) <= 1)%nat.
Proof.
  destruct single_active_reset_token as [Issue [_ Inv]].
  destruct (Issue (env_at 6000 "p2") "a@x.com"%string s_reset_requested
              s_second_request (Message frontendMessage) user_a)
    as [New [Old _]];
    [vm_compute; reflexivity | reflexivity | reflexivity
    | vm_compute; reflexivity |].
  split; [exact New|]. split.
  - destruct (Old {| PasswordResetToken.id := 3%nat;
                     PasswordResetToken.token_hash := "sha256:p1";
                     PasswordResetToken.user_id := 1%nat;
                     PasswordResetToken.expires_at := 905000;
                     PasswordResetToken.used := false |})
      as [t' [Hin [Hid Hused]]];
      [vm_compute; auto | reflexivity |].
    exists t'. split; [exact Hin|]. split; [|exact Hused].
    vm_compute in Hin.
    destruct Hin as [<- | [<- | []]]; [reflexivity | discriminate].
  - intros t. apply Inv. unfold s_second_request. apply reach_call.
    + exact (careful_invalidation _ s_reset_requested_careful).
    + reflexivity.
Defined.

(** C9 refuted as stated: when the update of [logoutAll] fails,
    [resetPassword] still returns and the user's session stays live. *)
Lemma reset_password_keeps_session :
  exists s1 rt,
    resetPassword env_revoke_all_fails "p1" "newpw123" s_reset_requested
    = (s1, Return (Message
         "Your password has been reset successfully. Please log in with your new password."))
    /\ In rt (refresh_tokens s1)
    /\ RefreshToken.user_id rt = 1%nat
    /\ RefreshToken.is_revoked rt = false.
Proof.
  eexists _, session_r1. vm_compute. repeat split. now left.
Qed.

(** C9 at the scenario: a reset with every collaborator working. *)
Lemma reset_password_effects_witness :
  exists stored u,
    findStoredReset (sha256 "p1") s_reset_requested
    = (s_reset_requested, Return (Some (stored, Some u)))
    /\ PasswordResetToken.used stored = false
    /\ 6000 <= PasswordResetToken.expires_at stored
    /\ User.id u = PasswordResetToken.user_id stored
    /\ (forall u1,
          In u1 (users (exec (env_at 6000 "x2")
                          (ResetPassword "p1" "newpw123") s_reset_requested)) ->
          User.id u1 = User.id u ->
          User.password_hash u1 = bcrypt_hash "salt" "newpw123")
    /\ (false = false ->
        forall t1,
          In t1 (password_reset_tokens
                   (exec (env_at 6000 "x2")
                      (ResetPassword "p1" "newpw123") s_reset_requested)) ->
          PasswordResetToken.id t1 = PasswordResetToken.id stored ->
          PasswordResetToken.used t1 = true)
    /\ (false = false ->
        forall rt,
          In rt (refresh_tokens
                   (exec (env_at 6000 "x2")
                      (ResetPassword "p1" "newpw123") s_reset_requested)) ->
          RefreshToken.user_id rt = User.id u ->
          RefreshToken.is_revoked rt = true).
Proof.
  apply (reset_password_effects (env_at 6000 "x2") "p1" "newpw123"
           s_reset_requested _
           (Message
              "Your password has been reset successfully. Please log in with your new password.")).
  vm_compute. reflexivity.
Defined.

(** The cooldown test is in the model: on a row that is not revoked and
    was seen 5 ms ago, a store no call produces, [refreshTokens] throws it. *)
Example cooldown_fires_on_seen_row :
  snd (refreshTokens (env_at 4005 "r3") "r1" "dev1" s_seen)
  = Throw (BadRequestException "Refresh requested too soon").
Proof. vm_compute. reflexivity. Qed.

(** X1 at the scenario: registering a@x.com again, with other casing. *)
Lemma one_pending_signup_per_email_witness :
  exists p,
    In p (pre_registrations
            (exec (env_at 1500 "v3")
               (Register "a@X.com" "pw67890" None "10.0.0.2" "ua")
               s_registered))
    /\ PreRegistration.email p = toLowerCase "a@X.com"
    /\ forall q,
         In q (pre_registrations
                 (exec (env_at 1500 "v3")
                    (Register "a@X.com" "pw67890" None "10.0.0.2" "ua")
                    s_registered)) ->
         PreRegistration.email q = toLowerCase "a@X.com" -> q = p.
Proof.
  apply one_pending_signup_per_email.
  - exact (careful_reachable _ s_registered_careful).
  - apply freshb_fresh. vm_compute. reflexivity.
  - vm_compute. reflexivity.
Defined.

(** X2 at the scenario: user 1 logs out everywhere. *)
Lemma logout_all_revokes_sessions_witness :
  exists s1,
    logoutAll (env_at 4000 "x1") 1%nat s_logged_in
    = (s1, Return (Message "All sessions revoked"))
    /\ (forall rt, In rt (refresh_tokens s1) ->
          RefreshToken.user_id rt = 1%nat -> RefreshToken.is_revoked rt = true)
    /\ forall e2 t d,
         (forall r, In r (refresh_tokens s_logged_in) ->
            RefreshToken.token_hash r = sha256 t ->
            RefreshToken.user_id r = 1%nat) ->
         refreshTokens e2 t d s1
         = (s1, Throw (UnauthorizedException "Invalid or revoked refresh token")).
Proof. apply logout_all_revokes_sessions. reflexivity. Defined.

(** X3 at the scenario: the reset token p1 is used, then refused. *)
Lemma reset_token_single_use_witness :
  resetPassword (env_at 7000 "x3") "p1" "other123"
    (exec (env_at 6000 "x2") (ResetPassword "p1" "newpw123") s_reset_requested)
  = (exec (env_at 6000 "x2") (ResetPassword "p1" "newpw123") s_reset_requested,
     Throw (UnauthorizedException
              "This reset link is invalid or has already been used.")).
Proof.
  refine (reset_token_single_use (env_at 6000 "x2") "p1" "newpw123"
            s_reset_requested _
            (Message
               "Your password has been reset successfully. Please log in with your new password.")
            _ _ (env_at 7000 "x3") "other123").
  - reflexivity.
  - vm_compute. reflexivity.
Defined.

End Instances.

(** * Properties of the flows, end to end *)

Section Tables.

Context {crypto : Crypto}.

Lemma same_profile_refl us : Forall2 same_profile us us.
Proof. induction us; constructor; auto. repeat split. Qed.

Lemma same_profile_password uid h us :
  Forall2 same_profile us
    (map (fun u => if (User.id u =? uid)%nat
                   then User.with_password_hash h u else u) us).
Proof.
  induction us as [|u us IH]; simpl; constructor; auto.
  destruct (User.id u =? uid)%nat; repeat split.
Qed.

Lemma same_profile_In us us' u :
  Forall2 same_profile us us' -> In u us ->
  exists u', In u' us' /\ same_profile u u'.
Proof.
  induction 1 as [|u0 u0' l l' T _ IH]; simpl; [contradiction|].
  intros [<- | Hin].
  - exists u0'. auto.
  - destruct (IH Hin) as [u' [? ?]]. exists u'. auto.
Qed.

(** What any call does to [users]: rows keep their profile, and new rows
    come after them. *)
Lemma users_shape e c s :
  exists old' new,
    users (exec e c s) = old' ++ new
    /\ Forall2 same_profile (users s) old'.
Proof.
  assert (Same : forall s', users s' = users s ->
            exists old' new, users s' = old' ++ new
                             /\ Forall2 same_profile (users s) old').
  { intros s' E. exists (users s), []. rewrite app_nil_r.
    split; [exact E | apply same_profile_refl]. }
  destruct c; run_service;
    try (apply Same; reflexivity);
    cbn;
    first [ eexists _, [_]; split;
            [reflexivity | apply same_profile_refl]
          | eexists _, []; rewrite app_nil_r; split;
            [reflexivity | apply same_profile_password] ].
Qed.

Lemma owner_kept us us' uid :
  Forall2 same_profile us us' ->
  (exists u, In u us /\ User.id u = uid) ->
  forall new, exists u', In u' (us' ++ new) /\ User.id u' = uid.
Proof.
  intros T [u [Hu Hid]] new.
  destruct (same_profile_In _ _ _ T Hu) as [u' [Hu' [Hid' _]]].
  exists u'. split; [apply in_or_app; now left | congruence].
Qed.

End Tables.

(** ** Tokens belong to stored users *)

Section OwnersKept.

Context {crypto : Crypto}.

Ltac rows_of H :=
  repeat first
    [ apply in_app_or in H; destruct H as [H | H]
    | apply save_row_In in H; destruct H as [-> | H]
    | apply in_map_iff in H; destruct H as [? [<- H]]
    | destruct H as [<- | []] ].

Ltac found_user :=
  repeat match goal with
         | H : find _ (users _) = Some _ |- _ =>
             apply find_some in H; destruct H as [? ?]
         | H : user_relation _ _ = Some _ |- _ =>
             unfold user_relation in H
         | H : find _ (refresh_tokens _) = Some _ |- _ =>
             apply find_some in H; destruct H as [? ?]
         | H : find _ (password_reset_tokens _) = Some _ |- _ =>
             apply find_some in H; destruct H as [? ?]
         end.

(** The token rows a call leaves behind belong to users stored before it. *)
Lemma tokens_owned e c s :
  owners_exist s ->
  (forall r, In r (refresh_tokens (exec e c s)) ->
     exists u, In u (users s) /\ User.id u = RefreshToken.user_id r)
  /\ (forall t, In t (password_reset_tokens (exec e c s)) ->
        exists u, In u (users s) /\ User.id u = PasswordResetToken.user_id t).
Proof.
  intros [OR OT].
  destruct c; run_service; found_user; split; cbn; intros row Hrow;
    rows_of Hrow;
    repeat match goal with
           | |- context [if ?b then _ else _] => destruct b
           end; cbn;
    eauto.
Qed.

Lemma owners_exec e c s : owners_exist s -> owners_exist (exec e c s).
Proof.
  intros O. destruct (tokens_owned e c s O) as [OR OT].
  destruct (users_shape e c s) as [old' [new [E T]]].
  split; intros row Hrow; rewrite E.
  - apply owner_kept with (us := users s); auto.
  - apply owner_kept with (us := users s); auto.
Qed.

Lemma reachable_owners ok s : reachable_under ok s -> owners_exist s.
Proof.
  induction 1 as [|s e c R IH F].
  - split; intros r [].
  - now apply owners_exec.
Qed.

(** A stored owner is what the [user] relation loads. *)
Lemma owner_loaded uid s :
  (exists u, In u (users s) /\ User.id u = uid) ->
  exists u, user_relation uid s = Some u.
Proof.
  intros [u [Hu Hid]]. unfold user_relation.
  destruct (find _ (users s)) as [u0|] eqn:Hf; [eauto|].
  pose proof (find_none _ _ Hf u Hu) as Hn. cbn in Hn.
  rewrite Hid, Nat.eqb_refl in Hn. discriminate.
Qed.

(** X4. In every store the service reaches, a call that throws ends
    either in the raw error of a rejected query, or in a Nest exception
    that its method throws itself: register and verifyEmail in Conflict or
    Internal, login, refreshTokens and verifyResetToken in Unauthorized,
    logout in NotFound, requestPasswordReset in Internal, resetPassword in
    Unauthorized or Internal, logoutAll in none.  No call ends in
    BadRequest, in a mailer error or in a [TypeError]. *)
Theorem exceptions_by_method s :
  reachable_under unconstrained s ->
  forall e c x,
    snd (call e c s) = Throw x ->
    x = QueryFailedError \/ may_throw c x = true.
Proof.
  intros R e c x.
  pose proof (reachable_unrotated _ _ R) as U.
  destruct (reachable_owners _ _ R) as [OR OT].
  destruct c; run_service; intros Hx; try discriminate;
    try (injection Hx as <-; auto; fail); auto.
  all: exfalso.
  all: repeat match goal with
              | H : find _ (refresh_tokens _) = Some _ |- _ =>
                  apply find_some in H; destruct H as [Hin Hp]
              | H : find _ (password_reset_tokens _) = Some _ |- _ =>
                  apply find_some in H; destruct H as [Hin Hp]
              end.
  all: try (apply andb_true_iff in Hp; destruct Hp as [_ NR];
            apply negb_true_iff in NR;
            match goal with
            | H : RefreshToken.last_seen_at _ = Some _ |- _ =>
                rewrite (U _ Hin NR) in H; discriminate
            end).
  all: match goal with
       | H : user_relation ?uid ?s0 = None |- _ =>
           destruct (owner_loaded uid s0) as [owner Howner];
           [ first [ now apply OR | now apply OT ] | congruence ]
       end.
Qed.

End OwnersKept.

(** ** Sessions: device, lifetime, rotation *)

Section Sessions.

Context {crypto : Crypto}.

Lemma find_app_skip {A} (f : A -> bool) l l' :
  (forall x, In x l -> f x = false) -> find f (l ++ l') = find f l'.
Proof.
  induction l as [|a l IH]; simpl; intros H; [reflexivity|].
  rewrite (H a (or_introl eq_refl)). apply IH. auto.
Qed.

Lemma login_issues e em pw d ip ua s s1 r :
  fresh e s ->
  login e em pw d ip ua s = (s1, Return r) ->
  exists a uid, r = Tokens a (random_hex e) 900 /\ issued_session e d uid s1.
Proof.
  intros F. pose proof (fresh_not_stored e s F) as NS.
  run_service; intros Hrun; try discriminate.
  injection Hrun as <- <-.
  match goal with
  | H : find _ (users _) = Some _ |- _ =>
      apply find_some in H; destruct H as [Hu _]
  end.
  eexists _, _. split; [reflexivity|].
  eexists _, _. cbn. split; [reflexivity|].
  repeat split; eauto.
  intros x Hx Hh. apply NS. rewrite <- Hh. now apply in_map.
Qed.

Lemma rotation_issues e t d s s1 r :
  fresh e s ->
  refreshTokens e t d s = (s1, Return r) ->
  exists a uid,
    r = Refreshed true "Tokens refreshed successfully" a (random_hex e) 900
    /\ issued_session e d uid s1.
Proof.
  intros F. pose proof (fresh_not_stored e s F) as NS.
  run_service; intros Hrun; try discriminate;
    injection Hrun as <- <-.
  all: repeat match goal with
              | H : find _ (refresh_tokens _) = Some _ |- _ =>
                  apply find_some in H; destruct H as [Hin _]
              | H : user_relation _ _ = Some _ |- _ =>
                  unfold user_relation in H; apply find_some in H;
                  destruct H as [Hu _]
              end.
  all: eexists _, _; split; [reflexivity|].
  all: eexists _, _; cbn; split; [reflexivity|].
  all: repeat split; eauto.
  all: intros x Hx Hh; apply save_row_In in Hx; apply NS;
    destruct Hx as [-> | Hx]; cbn in Hh; rewrite <- Hh; now apply in_map.
Qed.

(** What [refreshTokens] does with the token of an issued session. *)
Lemma issued_session_use e d uid s1 :
  issued_session e d uid s1 ->
  forall e2,
    (forall d2, d2 <> d ->
       refreshTokens e2 (random_hex e) d2 s1
       = (s1, Throw (UnauthorizedException "Invalid or revoked refresh token")))
    /\ (now e + 7 * 24 * 60 * 60 * 1000 < now e2 ->
        refreshTokens e2 (random_hex e) d s1
        = (s1, Throw (UnauthorizedException "Refresh token expired")))
    /\ (now e2 <= now e + 7 * 24 * 60 * 60 * 1000 ->
        exists s2 a2,
          refreshTokens e2 (random_hex e) d s1
          = (s2, Return (Refreshed true "Tokens refreshed successfully"
                           a2 (random_hex e2) 900))).
Proof.
  intros [old [row [E [Hold [Hh [Hd [Hu [Hr [Hs [Hx Hown]]]]]]]]]] e2.
  assert (Skip : forall d2,
             find (fun r =>
                 (RefreshToken.token_hash r =? sha256 (random_hex e))%string
                 && (RefreshToken.device_id r =? d2)%string
                 && negb (RefreshToken.is_revoked r)) (refresh_tokens s1)
             = if (d =? d2)%string then Some row else None).
  { intros d2. rewrite E, find_app_skip.
    - cbn. rewrite Hh, Hd, Hr, String.eqb_refl. cbn.
      now destruct (d =? d2)%string.
    - intros x Hin. apply Hold in Hin. apply String.eqb_neq in Hin.
      now rewrite Hin. }
  destruct (owner_loaded uid s1 Hown) as [u Hrel].
  repeat split.
  - intros d2 Hne. unfold refreshTokens, bind, findStoredToken, storedTokenIn,
      gets. rewrite Skip.
    destruct (String.eqb_spec d d2); [congruence | reflexivity].
  - intros Hlate. unfold refreshTokens, bind, findStoredToken, storedTokenIn,
      gets. rewrite Skip, String.eqb_refl, Hu, Hrel. cbn. rewrite Hx.
    destruct (Z.ltb_spec (now e + 7 * 24 * 60 * 60 * 1000) (now e2));
      [reflexivity | lia].
  - intros Hin. unfold refreshTokens, bind, findStoredToken, storedTokenIn,
      gets. rewrite Skip, String.eqb_refl, Hu, Hrel. cbn. rewrite Hx, Hs.
    destruct (Z.ltb_spec (now e + 7 * 24 * 60 * 60 * 1000) (now e2));
      [lia|]. run_service. eauto.
Qed.

(** X5. The refresh token [login] returns is bound to the device it was
    issued for: presented with any other device identifier, it is refused
    as Unauthorized and nothing is written. *)
Theorem refresh_token_bound_to_device e em pw d ip ua s s1 r :
  fresh e s ->
  login e em pw d ip ua s = (s1, Return r) ->
  exists a,
    r = Tokens a (random_hex e) 900
    /\ forall e2 d2, d2 <> d ->
         refreshTokens e2 (random_hex e) d2 s1
         = (s1, Throw (UnauthorizedException "Invalid or revoked refresh token")).
Proof.
  intros F Hrun.
  destruct (login_issues _ _ _ _ _ _ _ _ _ F Hrun) as [a [uid [-> I]]].
  exists a. split; [reflexivity|]. intros e2 d2.
  exact (proj1 (issued_session_use _ _ _ _ I e2) d2).
Qed.

(** X6. The refresh token [login] returns can be rotated on its device up
    to and including seven days after the login, and is refused as expired
    from the next millisecond on. *)
Theorem refresh_token_lives_seven_days e em pw d ip ua s s1 r :
  fresh e s ->
  login e em pw d ip ua s = (s1, Return r) ->
  forall e2,
    (now e2 <= now e + 604800000 ->
     exists s2 a2,
       refreshTokens e2 (random_hex e) d s1
       = (s2, Return (Refreshed true "Tokens refreshed successfully"
                        a2 (random_hex e2) 900)))
    /\ (now e + 604800000 < now e2 ->
        refreshTokens e2 (random_hex e) d s1
        = (s1, Throw (UnauthorizedException "Refresh token expired"))).
Proof.
  intros F Hrun e2.
  destruct (login_issues _ _ _ _ _ _ _ _ _ F Hrun) as [a [uid [_ I]]].
  destruct (issued_session_use _ _ _ _ I e2) as [_ [Late Early]].
  split; [exact Early | exact Late].
Qed.

(** X7. Rotation chains: the refresh token a successful [refreshTokens]
    returns is itself accepted by [refreshTokens] on the same device for
    seven days, and refused on any other device. *)
Theorem rotated_token_is_usable e t d s s1 r :
  fresh e s ->
  refreshTokens e t d s = (s1, Return r) ->
  exists a,
    r = Refreshed true "Tokens refreshed successfully" a (random_hex e) 900
    /\ forall e2,
         (now e2 <= now e + 604800000 ->
          exists s2 a2,
            refreshTokens e2 (random_hex e) d s1
            = (s2, Return (Refreshed true "Tokens refreshed successfully"
                             a2 (random_hex e2) 900)))
         /\ forall d2, d2 <> d ->
              refreshTokens e2 (random_hex e) d2 s1
              = (s1, Throw (UnauthorizedException
                              "Invalid or revoked refresh token")).
Proof.
  intros F Hrun.
  destruct (rotation_issues _ _ _ _ _ _ F Hrun) as [a [uid [-> I]]].
  exists a. split; [reflexivity|]. intros e2.
  destruct (issued_session_use _ _ _ _ I e2) as [Other [_ Early]].
  split; [exact Early | exact Other].
Qed.

Lemma logout_spends e t s s1 r :
  rt_keys s -> rt_digests s ->
  logout e t s = (s1, Return r) -> spent (sha256 t) s1.
Proof.
  intros [ND _] D. unfold logout, bind, gets.
  destruct (find _ (refresh_tokens s)) as [tok|] eqn:Hf; [|discriminate].
  apply find_some in Hf. destruct Hf as [Hin Hh]. apply String.eqb_eq in Hh.
  destruct (save_row_split RefreshToken.id
              (RefreshToken.with_is_revoked true tok) tok _ ND Hin eq_refl)
    as [l1 [l2 [E1 E2]]].
  unfold rt_digests in D. rewrite E1, map_app in D. simpl in D.
  apply NoDup_remove_2 in D. rewrite Hh in D.
  run_service. intros Hrun. injection Hrun as <- _.
  unfold spent. cbn. rewrite E2. split.
  - apply in_map_iff. exists (RefreshToken.with_is_revoked true tok).
    split; [exact Hh | apply in_elt].
  - intros x Hx Hxh. apply in_app_or in Hx.
    destruct Hx as [Hx | [<- | Hx]]; [exfalso | reflexivity | exfalso];
      apply D; rewrite <- Hxh; apply in_or_app;
      [left | right]; now apply in_map.
Qed.

Lemma spent_later_keys h s s' :
  rt_keys s -> later s s' -> spent h s -> rt_keys s' /\ spent h s'.
Proof.
  intros K L Sp. induction L as [|s s' e c L IH F]; [auto|].
  destruct (IH K Sp) as [K' Sp']. split.
  - now apply rt_keys_exec.
  - now apply spent_exec.
Qed.

(** X8. Logging out ends the session for good: in a store the service
    reached, after [logout] returned for a refresh token, [refreshTokens]
    refuses that token on every device, at once and after any further
    calls. *)
Theorem logout_ends_session e t s s1 r :
  reachable s ->
  logout e t s = (s1, Return r) ->
  forall s2, later s1 s2 -> forall e2 d,
    refreshTokens e2 t d s2
    = (s2, Throw (UnauthorizedException "Invalid or revoked refresh token")).
Proof.
  intros R Hrun s2 L e2 d.
  pose proof (reachable_rt_keys _ _ R) as K.
  pose proof (logout_spends _ _ _ _ _ K (reachable_rt_digests _ R) Hrun) as Sp.
  assert (K1 : rt_keys s1).
  { replace s1 with (exec e (Logout t) s).
    - now apply rt_keys_exec.
    - unfold exec, call. now rewrite Hrun. }
  destruct (spent_later_keys _ _ _ K1 L Sp) as [_ Sp2].
  unfold refreshTokens, bind.
  rewrite (spent_refuses _ _ d Sp2). reflexivity.
Qed.

End Sessions.

(** ** Sign-up: register, verify, log in *)

Section SignUp.

Context {crypto : Crypto}.

(** A [register] that does not end in the Conflict wrote a pending sign-up
    holding the digest of the token it drew. *)
Lemma register_writes e em pw fn ip ua s :
  pr_wf s -> fresh e s ->
  find (fun u => is_null (User.deleted_at u)
                 && (User.email u =? toLowerCase em)%string) (users s) = None ->
  users (exec e (Register em pw fn ip ua) s) = users s
  /\ exists p,
       In p (pre_registrations (exec e (Register em pw fn ip ua) s))
       /\ PreRegistration.verification_token_hash p = sha256 (random_hex e)
       /\ PreRegistration.email p = toLowerCase em
       /\ PreRegistration.password_hash p = bcrypt_hash (salt e) pw
       /\ PreRegistration.expires_at p = now e + 60 * 60 * 1000.
Proof.
  intros W F Hnone. pose proof (pr_keys s W) as K.
  run_service; try congruence.
  all: try match goal with
       | H : find _ (pre_registrations _) = Some _ |- _ =>
           apply find_some in H; destruct H as [Hin Hem];
           apply String.eqb_eq in Hem
       end.
  all: split; [reflexivity|].
  all: cbn;
    match goal with
    | |- exists p, In p (save_row _ ?x _) /\ _ =>
        exists x; split;
        [ destruct (save_row_split PreRegistration.id x t _ K Hin eq_refl)
            as [l1 [l2 [_ ->]]]; apply in_elt
        | cbn; repeat split; auto ]
    | |- exists p, In p (_ ++ [?x]) /\ _ =>
        exists x; split;
        [ apply in_or_app; right; now left | cbn; repeat split; auto ]
    end.
Qed.

Lemma register_returned e em pw fn ip ua s s1 r :
  register e em pw fn ip ua s = (s1, Return r) ->
  s1 = exec e (Register em pw fn ip ua) s
  /\ find (fun u => is_null (User.deleted_at u)
                    && (User.email u =? toLowerCase em)%string) (users s) = None
  /\ In (VerificationEmail em (random_hex e)) (outbox s1).
Proof.
  intros Hrun. split; [unfold exec, call; now rewrite Hrun|].
  revert Hrun. run_service; intros Hrun; try discriminate;
    injection Hrun as <- _; (split; [reflexivity|]); cbn;
    apply in_or_app; right; now left.
Qed.

(** What [verifyEmail] does with the token of a pending sign-up. *)
Lemma verify_pending e t s p :
  pr_wf s ->
  In p (pre_registrations s) ->
  PreRegistration.verification_token_hash p = sha256 t ->
  (now e <= PreRegistration.expires_at p -> user_save_fails e = false ->
   exists s1 u,
     verifyEmail e t s = (s1, Return (Success true "Email successfully verified"))
     /\ users s1 = users s ++ [u]
     /\ User.is_email_verified u = true
     /\ User.deleted_at u = None
     /\ User.email u = PreRegistration.email p
     /\ User.password_hash u = PreRegistration.password_hash p)
  /\ (PreRegistration.expires_at p < now e ->
      verifyEmail e t s = (s, Throw (ConflictException "Token expired"))).
Proof.
  intros [K G D E P A] Hin Hh.
  unfold verifyEmail, bind, gets.
  destruct (find _ (pre_registrations s)) as [p0|] eqn:Hf.
  2: { pose proof (find_none _ _ Hf p Hin) as Hn. cbn in Hn.
       apply String.eqb_neq in Hn. contradiction. }
  apply find_some in Hf. destruct Hf as [Hin0 Hh0].
  apply String.eqb_eq in Hh0.
  assert (p0 = p).
  { eapply (NoDup_map_eq PreRegistration.verification_token_hash); eauto.
    congruence. }
  subst p0. split.
  - intros Hexp Hsave.
    destruct (Z.ltb_spec (PreRegistration.expires_at p) (now e)) as [Hlt|_];
      [lia|].
    unfold createUser, findByEmail, bind, gets.
    destruct (find _ (users s)) as [u0|] eqn:Hu.
    1: { apply find_some in Hu. destruct Hu as [Hu Hem].
         apply andb_true_iff in Hem. destruct Hem as [_ Hem].
         apply String.eqb_eq in Hem. exfalso. exact (P p u0 Hin Hu Hem). }
    assert (Htaken : existsb (fun u => (User.email u =? PreRegistration.email p)%string)
                       (users s) = false).
    { destruct (existsb _ (users s)) eqn:Hex; [|reflexivity].
      apply existsb_exists in Hex. destruct Hex as [u0 [Hu0 Hem]].
      apply String.eqb_eq in Hem. exfalso. exact (P p u0 Hin Hu0 Hem). }
    unfold try_catch, userRepository_save, bind, gets, rejecting.
    rewrite Htaken, Hsave. cbn.
    eexists _, _. split; [reflexivity|]. cbn. repeat split; reflexivity.
  - intros Hlate.
    destruct (Z.ltb_spec (PreRegistration.expires_at p) (now e)) as [_|Hge];
      [reflexivity | lia].
Qed.

(** [login] with the password of the account an email finds. *)
Lemma login_succeeds e em pw d ip ua s u :
  find (fun u => is_null (User.deleted_at u)
                 && (User.email u =? toLowerCase em)%string) (users s) = Some u ->
  User.is_email_verified u = true ->
  bcrypt_compare pw (User.password_hash u) = true ->
  exists s1 a, login e em pw d ip ua s = (s1, Return (Tokens a (random_hex e) 900)).
Proof.
  intros Hf Hv Hc. unfold login, findByEmail, bind, gets.
  rewrite Hf, Hv, Hc. cbn. unfold ret. eauto.
Qed.

(** X9. The token [register] mails is the one [verifyEmail] accepts: up to
    and including one hour after the registration it creates the verified
    user with the lower-cased email and the hashed password; later it is
    refused with the Conflict [Token expired] and nothing is written. *)
Theorem verification_link_round_trip e em pw fn ip ua s s1 r :
  reachable s -> fresh e s ->
  register e em pw fn ip ua s = (s1, Return r) ->
  In (VerificationEmail em (random_hex e)) (outbox s1)
  /\ forall e2,
       (now e2 <= now e + 3600000 -> user_save_fails e2 = false ->
        exists s2 u,
          verifyEmail e2 (random_hex e) s1
          = (s2, Return (Success true "Email successfully verified"))
          /\ users s2 = users s ++ [u]
          /\ User.email u = toLowerCase em
          /\ User.is_email_verified u = true
          /\ User.password_hash u = bcrypt_hash (salt e) pw)
       /\ (now e + 3600000 < now e2 ->
           verifyEmail e2 (random_hex e) s1
           = (s1, Throw (ConflictException "Token expired"))).
Proof.
  intros R F Hrun. pose proof (reachable_pr_wf s R) as W.
  destruct (register_returned _ _ _ _ _ _ _ _ _ Hrun) as [-> [Hnone Hmail]].
  split; [exact Hmail|]. intros e2.
  destruct (register_writes e em pw fn ip ua s W F Hnone)
    as [Eus [p [Hin [Hh [Hem [Hpw Hexp]]]]]].
  pose proof (pr_wf_register e em pw fn ip ua s W F) as W1.
  destruct (verify_pending e2 (random_hex e) _ p W1 Hin Hh) as [Ok Late].
  split.
  - intros Hnow Hsave.
    destruct Ok as [s2 [u [Hv [Hus [Hver [_ [Hue Hup]]]]]]];
      [rewrite Hexp; lia | exact Hsave |].
    exists s2, u. rewrite Hv, Hus, Eus, Hue, Hem, Hup, Hpw. auto.
  - intros Hnow. apply Late. rewrite Hexp. lia.
Qed.

(** X10. A sign-up cannot log in before it is verified and can afterwards:
    after [register] returned, [login] with the email, in any casing, and
    the password throws Unauthorized [Invalid credentials]; once
    [verifyEmail] accepted the mailed token, the same [login] returns
    tokens. *)
Theorem signup_then_login e em pw fn ip ua s s1 r :
  reachable s -> fresh e s ->
  register e em pw fn ip ua s = (s1, Return r) ->
  bcrypt_compare pw (bcrypt_hash (salt e) pw) = true ->
  forall em3, toLowerCase em3 = toLowerCase em ->
  (forall e3 d ip3 ua3,
     snd (login e3 em3 pw d ip3 ua3 s1)
     = Throw (UnauthorizedException "Invalid credentials"))
  /\ forall e2,
       now e2 <= now e + 3600000 -> user_save_fails e2 = false ->
       exists s2,
         verifyEmail e2 (random_hex e) s1
         = (s2, Return (Success true "Email successfully verified"))
         /\ forall e3 d ip3 ua3,
              exists s3 a,
                login e3 em3 pw d ip3 ua3 s2
                = (s3, Return (Tokens a (random_hex e3) 900)).
Proof.
  intros R F Hrun Hbc em3 Hcase. pose proof (reachable_pr_wf s R) as W.
  destruct (register_returned _ _ _ _ _ _ _ _ _ Hrun) as [-> [Hnone _]].
  destruct (register_writes e em pw fn ip ua s W F Hnone)
    as [Eus [p [Hin [Hh [Hem [Hpw Hexp]]]]]].
  pose proof (pr_wf_register e em pw fn ip ua s W F) as W1.
  split.
  - intros e3 d ip3 ua3. unfold login, findByEmail, bind, gets.
    rewrite Hcase, Eus, Hnone. reflexivity.
  - intros e2 Hnow Hsave.
    destruct (verify_pending e2 (random_hex e) _ p W1 Hin Hh) as [Ok _].
    destruct Ok as [s2 [u [Hv [Hus [Hver [Hdel [Hue Hup]]]]]]];
      [rewrite Hexp; lia | exact Hsave |].
    exists s2. split; [exact Hv|]. intros e3 d ip3 ua3.
    apply login_succeeds with (u := u); [|exact Hver|congruence].
    rewrite Hcase, Hus, Eus, find_app_skip.
    + cbn. rewrite Hdel, Hue, Hem, String.eqb_refl. reflexivity.
    + intros u0 Hu0. rewrite <- Eus in Hu0.
      pose proof (pr_pending _ W1 p u0 Hin Hu0) as Hne.
      rewrite Hem in Hne. apply String.eqb_neq in Hne. rewrite Hne.
      apply andb_false_r.
Qed.

(** X11. Registering again for an email replaces the verification link:
    whether the second [register] returns or throws on the failed mail, no
    pending sign-up holds the digest of the first token any more, and
    [verifyEmail] with the first token throws the Conflict
    [Invalid or expired token]. *)
Theorem reregistration_replaces_link e1 em pw fn ip ua s s1 r
    e2 em2 pw2 fn2 ip2 ua2 :
  reachable s -> fresh e1 s ->
  register e1 em pw fn ip ua s = (s1, Return r) ->
  fresh e2 s1 -> toLowerCase em2 = toLowerCase em ->
  forall e3,
    verifyEmail e3 (random_hex e1) (exec e2 (Register em2 pw2 fn2 ip2 ua2) s1)
    = (exec e2 (Register em2 pw2 fn2 ip2 ua2) s1,
       Throw (ConflictException "Invalid or expired token")).
Proof.
  intros R F1 Hrun F2 Hsame e3. pose proof (reachable_pr_wf s R) as W.
  destruct (register_returned _ _ _ _ _ _ _ _ _ Hrun) as [-> [Hnone _]].
  destruct (register_writes e1 em pw fn ip ua s W F1 Hnone)
    as [Eus [p [Hin [Hh [Hem _]]]]].
  pose proof (pr_wf_register e1 em pw fn ip ua s W F1) as W1.
  set (s1 := exec e1 (Register em pw fn ip ua) s) in *.
  assert (Gone : forall q,
            In q (pre_registrations (exec e2 (Register em2 pw2 fn2 ip2 ua2) s1)) ->
            PreRegistration.verification_token_hash q <> sha256 (random_hex e1)).
  { pose proof (fresh_not_pending e2 s1 F2) as NP.
    assert (Hne : sha256 (random_hex e2) <> sha256 (random_hex e1)).
    { intros E. apply NP. rewrite E, <- Hh. now apply in_map. }
    destruct W1 as [K _ D Em _ _]. clearbody s1. clear Hrun.
    unfold exec, call, register, findByEmail, bind, gets.
    rewrite Hsame, Eus, Hnone.
    destruct (find _ (pre_registrations s1)) as [p0|] eqn:Hf.
    2: { pose proof (find_none _ _ Hf p Hin) as Hn. cbn in Hn.
         rewrite Hem, String.eqb_refl in Hn. discriminate. }
    apply find_some in Hf. destruct Hf as [Hin0 Hem0].
    apply String.eqb_eq in Hem0.
    assert (p0 = p).
    { eapply (NoDup_map_eq PreRegistration.email); eauto. congruence. }
    subst p0.
    match goal with
    | |- context [save_preReg ?x] =>
        destruct (save_row_split PreRegistration.id x p _ K Hin eq_refl)
          as [l1 [l2 [E1 E2]]]
    end.
    rewrite E1, map_app in D. simpl in D. apply NoDup_remove_2 in D.
    intros q Hq Hqh. revert Hq.
    run_service; rewrite E2; intros Hq.
    all: apply in_app_or in Hq; destruct Hq as [Hq | [<- | Hq]];
      [ apply D; rewrite Hh, <- Hqh; apply in_or_app; left; now apply in_map
      | cbn in Hqh; contradiction
      | apply D; rewrite Hh, <- Hqh; apply in_or_app; right; now apply in_map ]. }
  unfold verifyEmail, bind, gets.
  destruct (find _ (pre_registrations _)) as [q|] eqn:Hq; [|reflexivity].
  apply find_some in Hq. destruct Hq as [Hq Hqh].
  apply String.eqb_eq in Hqh. exfalso. exact (Gone q Hq Hqh).
Qed.

End SignUp.

(** ** Users: keys and verification *)

Section UsersTable.

Context {crypto : Crypto}.

(** What any call does to [users]: rows keep their profile, and at most one
    row, a customer with a generated key, comes after them. *)
Lemma users_step e c s :
  exists old' new,
    users (exec e c s) = old' ++ new
    /\ Forall2 same_profile (users s) old'
    /\ (new = []
        \/ exists u, new = [u] /\ User.id u = next_id s
                     /\ (next_id s < next_id (exec e c s))%nat
                     /\ User.role u = CUSTOMER)
    /\ (next_id s <= next_id (exec e c s))%nat.
Proof.
  destruct c; run_service; cbn;
    first [ exists (users s), []; rewrite app_nil_r;
            split; [reflexivity|];
            split; [apply same_profile_refl|];
            split; [now left | lia]
          | eexists _, [_];
            split; [reflexivity|];
            split; [apply same_profile_refl|];
            split; [right; eexists; repeat split; cbn; lia | lia]
          | eexists _, []; rewrite app_nil_r;
            split; [reflexivity|];
            split; [apply same_profile_password|];
            split; [now left | lia] ].
Qed.

Lemma same_profile_ids l l' :
  Forall2 same_profile l l' -> map User.id l' = map User.id l.
Proof.
  induction 1 as [|u u' l l' T _ IH]; simpl; [reflexivity|].
  rewrite IH. f_equal. apply T.
Qed.

Lemma same_profile_back us us' u' :
  Forall2 same_profile us us' -> In u' us' ->
  exists u, In u us /\ same_profile u u'.
Proof.
  induction 1 as [|u0 u0' l l' T _ IH]; simpl; [contradiction|].
  intros [<- | Hin].
  - exists u0. auto.
  - destruct (IH Hin) as [u [? ?]]. exists u. auto.
Qed.

Lemma users_keys_exec e c s : users_keys s -> users_keys (exec e c s).
Proof.
  intros [ND LT].
  destruct (users_step e c s) as [old' [new [E [T [N L]]]]].
  pose proof (same_profile_ids _ _ T) as Ids.
  assert (LT' : Forall (fun i => (i < next_id s)%nat) (map User.id old')).
  { rewrite Ids. rewrite Forall_forall in *. intros i Hi.
    apply in_map_iff in Hi. destruct Hi as [r [<- Hr]]. auto. }
  unfold users_keys. rewrite E, map_app. split.
  - destruct N as [-> | [u [-> [Hid _]]]]; simpl.
    + rewrite app_nil_r, Ids. exact ND.
    + apply NoDup_app; [rewrite Ids; exact ND | repeat constructor; auto |].
      intros i Hin [<- | []]. rewrite Forall_forall in LT'.
      specialize (LT' _ Hin). lia.
  - apply Forall_app. split.
    + rewrite Forall_forall in *. intros r Hr.
      specialize (LT' (User.id r) (in_map _ _ _ Hr)). lia.
    + destruct N as [-> | [u [-> [Hid [Hlt _]]]]]; repeat constructor. lia.
Qed.

Lemma reachable_users_keys ok s : reachable_under ok s -> users_keys s.
Proof.
  induction 1; [split; constructor | now apply users_keys_exec].
Qed.

(** The service creates customers only. *)
Lemma reachable_customers ok s :
  reachable_under ok s -> Forall (fun u => User.role u = CUSTOMER) (users s).
Proof.
  induction 1 as [|s e c R IH F]; [constructor|].
  destruct (users_step e c s) as [old' [new [E [T [N _]]]]].
  rewrite E. apply Forall_app. split.
  - rewrite Forall_forall in *. intros u' Hu'.
    destruct (same_profile_back _ _ _ T Hu') as [u [Hu P]].
    destruct P as [_ [_ [_ [_ [-> _]]]]]. auto.
  - destruct N as [-> | [u [-> [_ [_ Hr]]]]]; repeat constructor; auto.
Qed.

(** With distinct keys, the [user] relation of a row loads its owner. *)
Lemma user_relation_self s u :
  NoDup (map User.id (users s)) -> In u (users s) ->
  user_relation (User.id u) s = Some u.
Proof.
  intros ND Hu. unfold user_relation.
  destruct (find _ (users s)) as [u0|] eqn:Hf.
  - apply find_some in Hf. destruct Hf as [Hu0 Hid].
    apply Nat.eqb_eq in Hid. f_equal.
    eapply (NoDup_map_eq User.id); eauto.
  - pose proof (find_none _ _ Hf u Hu) as Hn. cbn in Hn.
    rewrite Nat.eqb_refl in Hn. discriminate.
Qed.

(** X12. A failed [login] writes to no table and sends no mail, and its
    message tells less than its cause: an unknown email and a wrong
    password both give [Invalid credentials], but an unverified account
    answers [Email not verified] before the password is looked at, so that
    message shows the account exists.  Only the wrong password is audited,
    as [LOGIN_FAILED] without a user id. *)
Theorem failed_login_effects e em pw d ip ua s x :
  snd (login e em pw d ip ua s) = Throw x ->
  let s1 := fst (login e em pw d ip ua s) in
  users s1 = users s
  /\ pre_registrations s1 = pre_registrations s
  /\ refresh_tokens s1 = refresh_tokens s
  /\ password_reset_tokens s1 = password_reset_tokens s
  /\ outbox s1 = outbox s
  /\ match snd (findByEmail (toLowerCase em) s) with
     | Return None =>
         x = UnauthorizedException "Invalid credentials"
         /\ auditQueue s1 = auditQueue s
     | Return (Some u) =>
         if User.is_email_verified u
         then x = UnauthorizedException "Invalid credentials"
              /\ bcrypt_compare pw (User.password_hash u) = false
              /\ auditQueue s1
                 = auditQueue s ++ [{| action := LOGIN_FAILED; userId := None |}]
         else x = UnauthorizedException "Email not verified"
              /\ auditQueue s1 = auditQueue s
     | Throw _ => False
     end.
Proof.
  unfold login, findByEmail, bind, gets. cbn.
  destruct (find _ (users s)) as [u|]; cbn.
  - destruct (User.is_email_verified u); cbn.
    + destruct (bcrypt_compare pw (User.password_hash u)) eqn:Hc; cbn.
      * discriminate.
      * intros Hx. injection Hx as <-. repeat split.
    + intros Hx. injection Hx as <-. repeat split.
  - intros Hx. injection Hx as <-. repeat split.
Qed.

End UsersTable.

(** ** Password reset: request, verify, reset, log in *)

Section ResetFlow.

Context {crypto : Crypto}.

Lemma reset_issued_user em s :
  reset_issued em s = true ->
  exists u,
    find (fun u => is_null (User.deleted_at u)
                   && (User.email u =? toLowerCase em)%string) (users s) = Some u
    /\ User.is_email_verified u = true
    /\ In u (users s)
    /\ User.email u = toLowerCase em.
Proof.
  unfold reset_issued.
  destruct (find _ (users s)) as [u|] eqn:Hf; [|discriminate].
  intros Hv. exists u. split; [reflexivity|]. split; [exact Hv|].
  apply find_some in Hf. destruct Hf as [Hu Hp].
  apply andb_true_iff in Hp. destruct Hp as [_ Hem].
  apply String.eqb_eq in Hem. auto.
Qed.

Lemma fresh_not_reset e s :
  fresh e s ->
  ~ In (sha256 (random_hex e))
       (map PasswordResetToken.token_hash (password_reset_tokens s)).
Proof.
  unfold fresh, stored_digests. intros F Hin. apply F.
  apply in_or_app. right. apply in_or_app. now right.
Qed.

(** A [requestPasswordReset] that returns for a verified user left a link. *)
Lemma request_issues e em s s1 r u :
  fresh e s ->
  find (fun u => is_null (User.deleted_at u)
                 && (User.email u =? toLowerCase em)%string) (users s) = Some u ->
  User.is_email_verified u = true ->
  requestPasswordReset e em s = (s1, Return r) ->
  issued_reset e u s1 /\ users s1 = users s.
Proof.
  intros F Hf Hv. pose proof (fresh_not_reset e s F) as NS.
  assert (Hu : In u (users s)) by (apply find_some in Hf; tauto).
  unfold requestPasswordReset, findByEmail, bind, gets.
  rewrite Hf, Hv. cbn [negb].
  run_service; intros Hrun; try discriminate; injection Hrun as <- _.
  all: split; [|reflexivity].
  all: eexists _, _; cbn; split; [reflexivity|].
  all: repeat split; auto.
  all: intros x Hx Hh; apply NS; rewrite <- Hh;
    try (apply in_map_iff in Hx; destruct Hx as [x0 [<- Hx]];
         destruct (PasswordResetToken.user_id x0 =? User.id u)%nat; cbn);
    now apply in_map.
Qed.

(** What [verifyResetToken] and [resetPassword] do with an issued link. *)
Lemma issued_reset_use e u s1 :
  issued_reset e u s1 ->
  forall e2,
    (now e + 15 * 60 * 1000 < now e2 ->
     verifyResetToken e2 (random_hex e) s1
     = (s1, Throw (UnauthorizedException
                     "This reset link has expired. Please request a new one."))
     /\ forall pw,
          resetPassword e2 (random_hex e) pw s1
          = (s1, Throw (UnauthorizedException
                          "This reset link has expired. Please request a new one.")))
    /\ (now e2 <= now e + 15 * 60 * 1000 ->
        (exists owner,
           user_relation (User.id u) s1 = Some owner
           /\ verifyResetToken e2 (random_hex e) s1
              = (s1, Return (ValidReset true (User.email owner))))
        /\ forall pw,
             update_password_fails e2 = false ->
             exists s2,
               resetPassword e2 (random_hex e) pw s1
               = (s2, Return (Message
                    "Your password has been reset successfully. Please log in with your new password."))
               /\ users s2
                  = map (fun v => if (User.id v =? User.id u)%nat
                                  then User.with_password_hash
                                         (bcrypt_hash (salt e2) pw) v
                                  else v) (users s1)).
Proof.
  intros [old [row [E [Hold [Hh [Hu [Hused [Hx Hin]]]]]]]] e2.
  assert (Found : findStoredReset (sha256 (random_hex e)) s1
                  = (s1, Return (Some (row, user_relation (User.id u) s1)))).
  { unfold findStoredReset, gets. rewrite E, find_app_skip.
    - cbn. rewrite Hh, String.eqb_refl, Hu. reflexivity.
    - intros x Hxin. apply Hold in Hxin. now apply String.eqb_neq in Hxin. }
  destruct (owner_loaded (User.id u) s1) as [owner Hrel]; [eauto|].
  split.
  - intros Hlate.
    assert (Hlt : (PasswordResetToken.expires_at row <? now e2) = true)
      by (apply Z.ltb_lt; lia).
    split; [|intros pw];
      unfold verifyResetToken, resetPassword, bind;
      rewrite Found, Hused, Hlt; reflexivity.
  - intros Hnow.
    assert (Hlt : (PasswordResetToken.expires_at row <? now e2) = false)
      by (apply Z.ltb_ge; lia).
    split.
    + exists owner. split; [exact Hrel|].
      unfold verifyResetToken, bind. rewrite Found, Hused, Hlt, Hrel.
      reflexivity.
    + intros pw Hup. unfold resetPassword, bind.
      rewrite Found, Hused, Hlt, Hrel.
      assert (Hid : User.id owner = User.id u).
      { unfold user_relation in Hrel. apply find_some in Hrel.
        destruct Hrel as [_ Hid]. now apply Nat.eqb_eq in Hid. }
      run_service; try congruence;
        eexists; (split; [reflexivity|]); cbn; rewrite Hid; reflexivity.
Qed.

(** [findByEmail] after a password update finds the updated row. *)
Lemma find_updated (uid : Uuid) h em us u :
  find (fun u => is_null (User.deleted_at u)
                 && (User.email u =? em)%string) us = Some u ->
  find (fun u => is_null (User.deleted_at u)
                 && (User.email u =? em)%string)
       (map (fun v => if (User.id v =? uid)%nat
                      then User.with_password_hash h v else v) us)
  = Some (if (User.id u =? uid)%nat then User.with_password_hash h u else u).
Proof.
  induction us as [|v us IH]; simpl; [discriminate|].
  assert (Same : (is_null (User.deleted_at
                    (if (User.id v =? uid)%nat
                     then User.with_password_hash h v else v))
                  && (User.email (if (User.id v =? uid)%nat
                                  then User.with_password_hash h v else v)
                      =? em)%string)
                 = (is_null (User.deleted_at v) && (User.email v =? em)%string))
    by (destruct (User.id v =? uid)%nat; reflexivity).
  rewrite Same.
  destruct (is_null (User.deleted_at v) && (User.email v =? em)%string).
  - intros H. injection H as <-. reflexivity.
  - exact IH.
Qed.

(** X13. The token [requestPasswordReset] creates for an account resets its
    password: within fifteen minutes, and when the password update does
    not fail, [resetPassword] with that token returns, and [login] with
    the email and the new password then returns tokens. *)
Theorem reset_round_trip e em s s1 r :
  fresh e s -> reset_issued em s = true ->
  requestPasswordReset e em s = (s1, Return r) ->
  forall e2 pw,
    now e2 <= now e + 900000 -> update_password_fails e2 = false ->
    bcrypt_compare pw (bcrypt_hash (salt e2) pw) = true ->
    exists s2,
      resetPassword e2 (random_hex e) pw s1
      = (s2, Return (Message
           "Your password has been reset successfully. Please log in with your new password."))
      /\ forall e3 d ip ua,
           exists s3 a,
             login e3 em pw d ip ua s2
             = (s3, Return (Tokens a (random_hex e3) 900)).
Proof.
  intros F Hi Hrun e2 pw Hnow Hup Hbc.
  destruct (reset_issued_user em s Hi) as [u [Hf [Hv [Hu Hem]]]].
  destruct (request_issues e em s s1 r u F Hf Hv Hrun) as [I Eus].
  destruct (issued_reset_use e u s1 I e2) as [_ Ok].
  destruct Ok as [_ Ok]; [lia|].
  destruct (Ok pw Hup) as [s2 [Hreset Hus]].
  exists s2. split; [exact Hreset|]. intros e3 d ip ua.
  eapply login_succeeds.
  - rewrite Hus, Eus. apply find_updated. exact Hf.
  - rewrite Nat.eqb_refl. exact Hv.
  - rewrite Nat.eqb_refl. exact Hbc.
Qed.

(** X14. The reset link lives fifteen minutes: up to and including that
    moment [verifyResetToken] reports it valid for the lower-cased email
    the reset was requested for; from the next millisecond on both
    [verifyResetToken] and [resetPassword] throw Unauthorized with the
    expiry message and write nothing. *)
Theorem reset_link_lifetime e em s s1 r :
  reachable_under unconstrained s ->
  fresh e s -> reset_issued em s = true ->
  requestPasswordReset e em s = (s1, Return r) ->
  forall e2,
    (now e2 <= now e + 900000 ->
     verifyResetToken e2 (random_hex e) s1
     = (s1, Return (ValidReset true (toLowerCase em))))
    /\ (now e + 900000 < now e2 ->
        verifyResetToken e2 (random_hex e) s1
        = (s1, Throw (UnauthorizedException
                        "This reset link has expired. Please request a new one."))
        /\ forall pw,
             resetPassword e2 (random_hex e) pw s1
             = (s1, Throw (UnauthorizedException
                             "This reset link has expired. Please request a new one."))).
Proof.
  intros R F Hi Hrun e2.
  destruct (reset_issued_user em s Hi) as [u [Hf [Hv [Hu Hem]]]].
  destruct (request_issues e em s s1 r u F Hf Hv Hrun) as [I Eus].
  destruct (reachable_users_keys _ _ R) as [ND _].
  destruct (issued_reset_use e u s1 I e2) as [Late Ok].
  split.
  - intros Hnow. destruct Ok as [[owner [Hrel Hver]] _]; [lia|].
    rewrite user_relation_self in Hrel; [|now rewrite Eus..].
    injection Hrel as <-. now rewrite <- Hem.
  - intros Hnow. apply Late. lia.
Qed.

(** X15. Asking again replaces the reset link: after a second
    [requestPasswordReset] for the same account whose invalidating update
    did not fail, whether or not it could store and mail a new token, the
    first token is refused by [verifyResetToken] and by [resetPassword] as
    invalid or already used. *)
Theorem new_request_invalidates_link e1 em s s1 r e2 em2 :
  fresh e1 s -> reset_issued em s = true ->
  requestPasswordReset e1 em s = (s1, Return r) ->
  fresh e2 s1 -> invalidate_fails e2 = false ->
  toLowerCase em2 = toLowerCase em ->
  forall e3,
    verifyResetToken e3 (random_hex e1) (exec e2 (RequestPasswordReset em2) s1)
    = (exec e2 (RequestPasswordReset em2) s1,
       Throw (UnauthorizedException
                "This reset link is invalid or has already been used."))
    /\ forall pw,
         resetPassword e3 (random_hex e1) pw
           (exec e2 (RequestPasswordReset em2) s1)
         = (exec e2 (RequestPasswordReset em2) s1,
            Throw (UnauthorizedException
                     "This reset link is invalid or has already been used.")).
Proof.
  intros F1 Hi Hrun F2 Hinv Hsame e3.
  destruct (reset_issued_user em s Hi) as [u [Hf [Hv [Hu Hem]]]].
  destruct (request_issues e1 em s s1 r u F1 Hf Hv Hrun)
    as [[old [row [E [Hold [Hh [Huid [Hused [Hx Hin]]]]]]]] Eus].
  pose proof (fresh_not_reset e2 s1 F2) as NS.
  assert (Hne : sha256 (random_hex e2) <> sha256 (random_hex e1)).
  { intros Eq. apply NS. rewrite E, map_app, Eq, <- Hh. apply in_or_app.
    right. now left. }
  set (s2 := exec e2 (RequestPasswordReset em2) s1).
  assert (Found : exists row' owner,
             findStoredReset (sha256 (random_hex e1)) s2
             = (s2, Return (Some (row', owner)))
             /\ PasswordResetToken.used row' = true).
  { assert (Rows : exists new,
              password_reset_tokens s2
              = map (fun t => if (PasswordResetToken.user_id t =? User.id u)%nat
                              then PasswordResetToken.with_used true t else t)
                    old
                ++ PasswordResetToken.with_used true row :: new
              /\ forall x, In x new ->
                   PasswordResetToken.token_hash x <> sha256 (random_hex e1)).
    { subst s2.
      unfold exec, call, requestPasswordReset, findByEmail, bind, gets.
      rewrite Hsame, Eus, Hf, Hv. cbn [negb].
      run_service; try congruence; cbn; rewrite E, map_app; cbn;
        rewrite Huid, Nat.eqb_refl.
      - exists []. split; [reflexivity | intros x []].
      - eexists [_]. rewrite <- app_assoc. split; [reflexivity|].
        intros x [<- | []]. cbn. exact Hne.
      - eexists [_]. rewrite <- app_assoc. split; [reflexivity|].
        intros x [<- | []]. cbn. exact Hne. }
    destruct Rows as [new [Rows Hnew]].
    eexists _, _. unfold findStoredReset, gets. rewrite Rows, find_app_skip.
    - cbn. rewrite Hh, String.eqb_refl. split; reflexivity.
    - intros x Hxin. apply in_map_iff in Hxin. destruct Hxin as [x0 [<- Hx0]].
      apply Hold in Hx0. apply String.eqb_neq in Hx0.
      destruct (PasswordResetToken.user_id x0 =? User.id u)%nat; exact Hx0. }
  destruct Found as [row' [owner [Found Hused']]].
  split; [|intros pw]; unfold verifyResetToken, resetPassword, bind;
    rewrite Found, Hused'; reflexivity.
Qed.

End ResetFlow.

(** ** The replies of the endpoints *)

Section Endpoints.

Context {crypto : Crypto}.



(** X17. The messages the service writes into its Internal errors for
    register and requestPasswordReset do not reach the client.  POST
    /auth/register answers with one of the two messages of the service,
    with 409 [Email already in use], or with 500 and the fixed text of the
    filter; POST /auth/request-password-reset answers with the generic
    message or with the same 500. *)
Theorem internal_messages_are_masked e raw s t url :
  (forall em pw fn ip ua,
     let r := reply t url (snd (AuthController.register e raw em pw fn ip ua s)) in
     r = Body (Message "Verification email sent")
     \/ r = Body (Message "Verification email resent. Please check your inbox.")
     \/ r = Failure {| ErrorBody.statusCode := 409;
                       ErrorBody.success := false;
                       ErrorBody.timestamp := t;
                       ErrorBody.path := url;
                       ErrorBody.message := "Email already in use" |}
     \/ r = Failure {| ErrorBody.statusCode := 500;
                       ErrorBody.success := false;
                       ErrorBody.timestamp := t;
                       ErrorBody.path := url;
                       ErrorBody.message :=
                         "Something went wrong on our side. Please try again later." |})
  /\ forall em,
       let r := reply t url (snd (AuthController.requestPasswordReset e raw em s)) in
       r = Body (Message frontendMessage)
       \/ r = Failure {| ErrorBody.statusCode := 500;
                         ErrorBody.success := false;
                         ErrorBody.timestamp := t;
                         ErrorBody.path := url;
                         ErrorBody.message :=
                           "Something went wrong on our side. Please try again later." |}.
Proof.
  split.
  - intros em pw fn ip ua.
    unfold AuthController.register, passing.
    destruct (register e em pw fn _ _ s) as [s' [r|x]] eqn:Hrun;
      revert Hrun; run_service; intros Hrun; try discriminate;
      injection Hrun as _ <-; cbn; tauto.
  - intros em.
    unfold AuthController.requestPasswordReset, passing.
    destruct (requestPasswordReset e em s) as [s' [r|x]] eqn:Hrun;
      revert Hrun; run_service; intros Hrun; try discriminate;
      injection Hrun as _ <-; cbn; tauto.
Qed.


(** X19. GET /auth/verify-reset is read-only and shows the reset form for
    the tokens that [resetPassword] accepts: it redirects with the token
    and [status=valid] only if [resetPassword] in the same call would
    return unless its update fails, and with [status=invalid], without the
    token, only if [resetPassword] would throw and write nothing. *)
Theorem verify_reset_redirects e FRONTEND_URL token s :
  let base := env_or FRONTEND_URL "http://localhost:5173" in
  let h := snd (AuthController.verifyResetToken e FRONTEND_URL token s) in
  fst (AuthController.verifyResetToken e FRONTEND_URL token s) = s
  /\ ((h = RedirectedTo
             (base ++ "/reset-password?token=" ++ token ++ "&status=valid")%string
       /\ forall pw,
            update_password_fails e = false ->
            exists s2 r, resetPassword e token pw s = (s2, Return r))
      \/ (h = RedirectedTo (base ++ "/reset-password?status=invalid")%string
          /\ forall pw, exists x, resetPassword e token pw s = (s, Throw x))).
Proof.
  unfold AuthController.verifyResetToken, verifyResetToken, resetPassword,
    findStoredReset, bind, gets.
  destruct (find _ (password_reset_tokens s)) as [row|]; cbn.
  2: { split; [reflexivity|]. right. split; [reflexivity|].
       intros pw. unfold throw. eauto. }
  destruct (PasswordResetToken.used row); cbn.
  1: { split; [reflexivity|]. right. split; [reflexivity|].
       intros pw. unfold throw. eauto. }
  destruct (PasswordResetToken.expires_at row <? now e); cbn.
  1: { split; [reflexivity|]. right. split; [reflexivity|].
       intros pw. unfold throw. eauto. }
  destruct (user_relation (PasswordResetToken.user_id row) s) as [u|]; cbn.
  2: { split; [reflexivity|]. right. split; [reflexivity|].
       intros pw. unfold throw. eauto. }
  split; [reflexivity|]. left. split; [reflexivity|].
  intros pw Hup. run_service; try congruence; unfold ret; eauto.
Qed.

Lemma refreshTokens_throws s e t d s1 x :
  reachable_under unconstrained s ->
  refreshTokens e t d s = (s1, Throw x) ->
  x = UnauthorizedException "Invalid or revoked refresh token"
  \/ x = UnauthorizedException "Refresh token expired".
Proof.
  intros R.
  pose proof (reachable_unrotated _ _ R) as U.
  destruct (reachable_owners _ _ R) as [OR _].
  run_service; intros Hx; try discriminate;
    try (injection Hx as _ <-; tauto).
  all: exfalso.
  all: match goal with
       | H : find _ (refresh_tokens _) = Some _ |- _ =>
           apply find_some in H; destruct H as [Hin Hp]
       end.
  all: try (apply andb_true_iff in Hp; destruct Hp as [_ NR];
            apply negb_true_iff in NR;
            match goal with
            | H : RefreshToken.last_seen_at _ = Some _ |- _ =>
                rewrite (U _ Hin NR) in H; discriminate
            end).
  all: match goal with
       | H : user_relation ?uid ?s0 = None |- _ =>
           destruct (owner_loaded uid s0) as [owner Howner];
           [ now apply OR | congruence ]
       end.
Qed.

(** X20. The replies of the session endpoints in the stores the service
    reaches.  An exception that is not Nest's, such as the error of a
    rejected query, is answered at every endpoint with 500 and the fixed
    text of the filter, which hides its own text.  Apart from that, POST
    /auth/login fails with 401 and one of two messages; POST /auth/refresh
    with 401 and one of two messages, never with the 400 of the cooldown;
    POST /auth/logout with 404; POST /auth/logout-all has no failure of
    its own. *)
Theorem session_endpoint_failures s e raw t url :
  reachable_under unconstrained s ->
  let failure status message :=
    Failure {| ErrorBody.statusCode := status; ErrorBody.success := false;
               ErrorBody.timestamp := t; ErrorBody.path := url;
               ErrorBody.message := message |} in
  let hidden :=
    failure 500
      "Something went wrong on our side. Please try again later."%string in
  (forall x, getStatus x = None -> reply t url (Threw (as_thrown raw x)) = hidden)
  /\ (forall em pw d ip ua,
     let r := reply t url (snd (AuthController.login e raw em pw d ip ua s)) in
     (exists a, r = Body (Tokens a (random_hex e) 900))
     \/ r = failure 401 "Invalid credentials"%string
     \/ r = failure 401 "Email not verified"%string
     \/ r = hidden)
  /\ (forall token d,
        let r := reply t url (snd (AuthController.refresh e raw token d s)) in
        (exists a, r = Body (Refreshed true "Tokens refreshed successfully"
                              a (random_hex e) 900))
        \/ r = failure 401 "Invalid or revoked refresh token"%string
        \/ r = failure 401 "Refresh token expired"%string
        \/ r = hidden)
  /\ (forall token,
        let r := reply t url (snd (AuthController.logout e raw token s)) in
        r = Body (Message "Logged out successfully")
        \/ r = failure 404 "Refresh token not found"%string
        \/ r = hidden)
  /\ forall user,
       let r := reply t url (snd (AuthController.logoutAll e raw user s)) in
       r = Body (Message "All sessions revoked") \/ r = hidden.
Proof.
  intros R failure hidden. split; [|repeat split].
  - intros x Hx. unfold as_thrown. rewrite Hx. cbn.
    unfold or_default. destruct (raw =? "")%string; reflexivity.
  - intros em pw d ip ua. unfold AuthController.login, passing.
    destruct (login e em pw d _ _ s) as [s' [r|x]] eqn:Hrun;
      revert Hrun; run_service; intros Hrun; try discriminate;
      injection Hrun as _ <-; cbn; eauto.
  - intros token d. unfold AuthController.refresh, passing.
    destruct (refreshTokens e token d s) as [s' [r|x]] eqn:Hrun.
    + left. revert Hrun. run_service; intros Hrun; try discriminate;
        injection Hrun as _ <-; cbn; eauto.
    + right.
      destruct (refreshTokens_throws _ _ _ _ _ _ R Hrun) as [-> | ->];
        cbn; auto.
  - intros token. unfold AuthController.logout, passing.
    destruct (logout e token s) as [s' [r|x]] eqn:Hrun;
      revert Hrun; run_service; intros Hrun; try discriminate;
      injection Hrun as _ <-; cbn; auto.
  - intros user. unfold AuthController.logoutAll, passing.
    destruct (logoutAll e (RequestUser.id user) s) as [s' [r|x]] eqn:Hrun;
      revert Hrun; run_service; intros Hrun; try discriminate;
      injection Hrun as _ <-; cbn; auto.
Qed.

End Endpoints.

(** ** Access tokens *)

Section AccessTokens.

Context {crypto : Crypto}.

Lemma find_app_found {A} (f : A -> bool) l l' x :
  find f l = Some x -> find f (l ++ l') = Some x.
Proof.
  induction l as [|a l IH]; simpl; [discriminate|].
  destruct (f a); auto.
Qed.

(** A lookup by key among the active users finds the same profile in a
    table whose rows kept their profile. *)
Lemma find_same_profile (i : Uuid) us us' u :
  Forall2 same_profile us us' ->
  find (fun u => is_null (User.deleted_at u) && (User.id u =? i)%nat) us
  = Some u ->
  exists u',
    find (fun u => is_null (User.deleted_at u) && (User.id u =? i)%nat) us'
    = Some u'
    /\ same_profile u u'.
Proof.
  induction 1 as [|v v' l l' P _ IH]; simpl; [discriminate|].
  assert (Same : (is_null (User.deleted_at v') && (User.id v' =? i)%nat)
                 = (is_null (User.deleted_at v) && (User.id v =? i)%nat)).
  { destruct P as [-> [_ [_ [_ [_ [_ ->]]]]]]. reflexivity. }
  rewrite Same.
  destruct (is_null (User.deleted_at v) && (User.id v =? i)%nat).
  - intros H. injection H as <-. eauto.
  - exact IH.
Qed.

Lemma plainToInstance_same u u' :
  same_profile u u' -> plainToInstance u' = plainToInstance u.
Proof.
  intros [Hi [He [Hf [Hv [Hr [Hd _]]]]]]. unfold plainToInstance.
  now rewrite Hi, He, Hf, Hv, Hr, Hd.
Qed.

(** X21. No call of the service takes an access token back or changes
    the identity it stands for: a payload that [JwtStrategy.validate]
    accepts is accepted after any call, logout, logoutAll and
    resetPassword included, with the same [req.user]. *)
Theorem access_token_outlives_calls e c payload s r :
  JwtStrategy.validate payload s = (s, Return r) ->
  JwtStrategy.validate payload (exec e c s) = (exec e c s, Return r).
Proof.
  unfold JwtStrategy.validate, findById, bind, gets.
  destruct (find _ (users s)) as [u|] eqn:Hf; cbn -[plainToInstance];
    [|discriminate].
  intros Hr. injection Hr as <-.
  destruct (users_shape e c s) as [old' [new [E T]]].
  destruct (find_same_profile _ _ _ _ T Hf) as [u' [Hf' P]].
  rewrite E, (find_app_found _ _ _ _ Hf'). cbn -[plainToInstance].
  rewrite (plainToInstance_same _ _ P). reflexivity.
Qed.

(** X22. The accounts the service creates are customers, and the role is
    read from [users] at every request: in a store the service reached,
    whatever roles a payload claims, the [req.user] that [validate] builds
    passes [RolesGuard] exactly on the routes that require nothing or
    admit [CUSTOMER]; a route for [ADMIN] alone is refused. *)
Theorem sign_up_grants_customer_only payload s s1 user required :
  reachable_under unconstrained s ->
  JwtStrategy.validate payload s = (s1, Return user) ->
  (RolesGuard.canActivate (Some required) (Some user) = RolesGuard.Activate
   <-> required = [] \/ In CUSTOMER required)
  /\ RolesGuard.canActivate (Some [ADMIN]) (Some user)
     = RolesGuard.Forbidden "Access denied. Requires role: ADMIN".
Proof.
  intros R. pose proof (reachable_customers _ _ R) as C.
  rewrite Forall_forall in C.
  unfold JwtStrategy.validate, findById, bind, gets.
  destruct (find _ (users s)) as [u|] eqn:Hf; cbn; [|discriminate].
  intros Hr. injection Hr as <- <-.
  apply find_some in Hf. destruct Hf as [Hu _]. rewrite (C u Hu).
  split; [|reflexivity].
  unfold RolesGuard.canActivate. cbn.
  destruct required as [|r0 rest]; [tauto|].
  destruct (existsb _ (r0 :: rest)) eqn:Hex.
  - split; [intros _|reflexivity]. right.
    apply existsb_exists in Hex. destruct Hex as [r [Hin Hr]].
    cbn in Hr. destruct r; [exact Hin | discriminate].
  - split; [discriminate|]. intros [Hnil | Hin]; [discriminate|].
    exfalso. rewrite <- not_true_iff_false in Hex. apply Hex.
    apply existsb_exists. exists CUSTOMER. split; [exact Hin | reflexivity].
Qed.

End AccessTokens.

(** ** What is masked before it is logged or queued *)

Section Redaction.

Lemma get_set_same k v o : In k (map fst o) -> get k (set k v o) = Some v.
Proof.
  induction o as [|[k' v'] o IH]; simpl; [contradiction|].
  destruct (String.eqb_spec k' k) as [->|Hne]; simpl.
  - now rewrite String.eqb_refl.
  - intros [E | Hin]; [contradiction|].
    apply String.eqb_neq in Hne. rewrite Hne. auto.
Qed.

Lemma get_set_other k k0 v o : k0 <> k -> get k0 (set k v o) = get k0 o.
Proof.
  intros Hne. induction o as [|[k' v'] o IH]; simpl.
  - apply not_eq_sym in Hne. apply String.eqb_neq in Hne. now rewrite Hne.
  - destruct (String.eqb_spec k' k) as [->|Hk]; simpl.
    + apply not_eq_sym in Hne. apply String.eqb_neq in Hne. now rewrite Hne.
    + now rewrite IH.
Qed.

Lemma keys_set k v o : In k (map fst o) -> map fst (set k v o) = map fst o.
Proof.
  induction o as [|[k' v'] o IH]; simpl; [contradiction|].
  destruct (String.eqb_spec k' k) as [->|Hne]; simpl; [reflexivity|].
  intros [E | Hin]; [contradiction|]. now rewrite IH.
Qed.

Lemma get_some_key k o v : get k o = Some v -> In k (map fst o).
Proof.
  induction o as [|[k' v'] o IH]; simpl; [discriminate|].
  destruct (String.eqb_spec k' k); auto.
Qed.

Lemma keys_redact k mask o : map fst (redact k mask o) = map fst o.
Proof.
  unfold redact. destruct (get k o) as [v|] eqn:Hg; [|reflexivity].
  destruct (truthy v); [|reflexivity].
  apply keys_set. eapply get_some_key; eauto.
Qed.

Lemma get_redact_other k k0 mask o :
  k0 <> k -> get k0 (redact k mask o) = get k0 o.
Proof.
  intros Hne. unfold redact. destruct (get k o) as [v|]; [|reflexivity].
  destruct (truthy v); [|reflexivity]. now apply get_set_other.
Qed.

Lemma get_redact_same k mask o v :
  get k (redact k mask o) = Some v -> v = JsString mask \/ truthy v = false.
Proof.
  unfold redact. destruct (get k o) as [v0|] eqn:Hg; [|congruence].
  destruct (truthy v0) eqn:Ht.
  - rewrite get_set_same by (eapply get_some_key; eauto).
    intros H. injection H as <-. now left.
  - rewrite Hg. intros H. injection H as <-. now right.
Qed.

(** X23. The request body that the filter logs has the properties of the
    body in their order; [password], [token] and [refreshToken] hold the
    mask unless they were falsy; every property of another name is logged
    as it was sent, so the [new_password] of a reset and the
    [old_password] of a profile update are not masked. *)
Theorem logged_body_redaction body :
  let logged := AllExceptionsFilter.sanitizeRequestBody (Some body) in
  map fst logged = map fst body
  /\ (forall k v,
        In k ["password"; "token"; "refreshToken"]%string ->
        get k logged = Some v ->
        v = JsString "********" \/ truthy v = false)
  /\ (forall k,
        ~ In k ["password"; "token"; "refreshToken"]%string ->
        get k logged = get k body).
Proof.
  cbn zeta. unfold AllExceptionsFilter.sanitizeRequestBody.
  split; [now rewrite !keys_redact|]. split.
  - intros k v [<- | [<- | [<- | []]]] Hg.
    + rewrite !get_redact_other in Hg by discriminate.
      eapply get_redact_same; eauto.
    + rewrite get_redact_other in Hg by discriminate.
      eapply get_redact_same; eauto.
    + eapply get_redact_same; eauto.
  - intros k Hk. rewrite !get_redact_other; auto;
      intros ->; apply Hk; simpl; auto.
Qed.

(** X24. The audit metadata that is queued has the properties of the
    metadata given; [password] and [token] hold the mask unless they were
    falsy, and nothing else is masked, a [refreshToken] neither. *)
Theorem queued_metadata_redaction m :
  exists queued,
    sanitizeMetadata (Some m) = Some queued
    /\ map fst queued = map fst m
    /\ (forall k v,
          In k ["password"; "token"]%string ->
          get k queued = Some v ->
          v = JsString "***" \/ truthy v = false)
    /\ (forall k,
          ~ In k ["password"; "token"]%string -> get k queued = get k m).
Proof.
  eexists. split; [reflexivity|].
  split; [now rewrite !keys_redact|]. split.
  - intros k v [<- | [<- | []]] Hg.
    + rewrite get_redact_other in Hg by discriminate.
      eapply get_redact_same; eauto.
    + eapply get_redact_same; eauto.
  - intros k Hk. rewrite !get_redact_other; auto;
      intros ->; apply Hk; simpl; auto.
Qed.

End Redaction.

(** ** The throttler storage *)

Section Throttle.

Import RedisThrottlerStorage.

Lemma length_append (a b : string) :
  String.length (a ++ b) = (String.length a + String.length b)%nat.
Proof. induction a as [|c a IH]; simpl; [reflexivity | now rewrite IH]. Qed.

Lemma keys_differ name key : blockKey name key <> redisKey name key.
Proof.
  unfold redisKey, blockKey. intros E.
  apply (f_equal String.length) in E. simpl in E. lia.
Qed.

Lemma live_write_same t k v db :
  Redis.live t (Redis.write k v db) k
  = match v with
    | Some en =>
        match Redis.expires en with
        | Some at_ => if at_ <? t then None else Some en
        | None => Some en
        end
    | None => None
    end.
Proof. unfold Redis.live, Redis.write. now rewrite String.eqb_refl. Qed.

Lemma live_write_other t k k' v db :
  k' <> k -> Redis.live t (Redis.write k v db) k' = Redis.live t db k'.
Proof.
  intros Hne. unfold Redis.live, Redis.write.
  apply String.eqb_neq in Hne. now rewrite Hne.
Qed.

(** A key that a command does not see is not seen later either. *)
Lemma live_mono t0 t db k :
  Redis.live t0 db k = None -> t0 <= t -> Redis.live t db k = None.
Proof.
  unfold Redis.live. destruct (db k) as [en|]; [|reflexivity].
  destruct (Redis.expires en) as [w|]; [|discriminate].
  destruct (Z.ltb_spec w t0); [|discriminate].
  intros _ Ht. destruct (Z.ltb_spec w t); [reflexivity | lia].
Qed.

Lemma first_hit name key t0 ttl limit blockDuration db :
  0 < ttl -> 0 < blockDuration ->
  Redis.live t0 db (redisKey name key) = None ->
  Redis.live t0 db (blockKey name key) = None ->
  counted name key t0 ttl limit 1
    (fst (increment t0 key ttl limit blockDuration name db))
  /\ exists rec,
       snd (increment t0 key ttl limit blockDuration name db) = Some rec
       /\ LocalThrottlerStorageRecord.isBlocked rec = (limit <? 1)
       /\ (LocalThrottlerStorageRecord.isBlocked rec = false ->
           LocalThrottlerStorageRecord.totalHits rec = 1).
Proof.
  intros Httl Hbd Hr Hb. pose proof (keys_differ name key) as Hne.
  assert (Hne' : ((redisKey name key) =? (blockKey name key))%string = false)
    by (apply String.eqb_neq; congruence).
  unfold counted, increment, Redis.exists_, Redis.incr, Redis.pexpire,
    Redis.set_px.
  remember (redisKey name key) as rk eqn:Erk.
  remember (blockKey name key) as bk eqn:Ebk. clear Erk Ebk.
  rewrite Hb, Hr. cbn [negb Z.eqb Pos.eqb]. rewrite live_write_same.
  cbn [Redis.expires Redis.value].
  destruct (Z.leb_spec (ttl * 1000) 0) as [|_]; [lia|].
  destruct (Z.leb_spec (blockDuration * 1000) 0) as [|_]; [lia|].
  destruct (Z.ltb_spec limit 1) as [Hl|Hl]; cbn [fst snd].
  - split.
    + exists 1. split.
      * unfold Redis.write. now rewrite Hne', String.eqb_refl.
      * repeat split; lia.
    + eexists. split; [reflexivity|]. cbn. split; [reflexivity | discriminate].
  - split.
    + exists 1. split.
      * unfold Redis.write. now rewrite String.eqb_refl.
      * repeat split; try lia.
        intros t Ht. rewrite !live_write_other by exact Hne.
        eapply live_mono; eauto.
    + eexists. split; [reflexivity|]. cbn. split; reflexivity.
Qed.

Lemma next_hit name key t0 ttl limit blockDuration i t db :
  0 < blockDuration ->
  counted name key t0 ttl limit i db ->
  t0 <= t <= t0 + ttl * 1000 ->
  i < 9223372036854775807 ->
  counted name key t0 ttl limit (i + 1)
    (fst (increment t key ttl limit blockDuration name db))
  /\ exists rec,
       snd (increment t key ttl limit blockDuration name db) = Some rec
       /\ LocalThrottlerStorageRecord.isBlocked rec = (limit <? i + 1)
       /\ (LocalThrottlerStorageRecord.isBlocked rec = false ->
           LocalThrottlerStorageRecord.totalHits rec = i + 1).
Proof.
  intros Hbd C Ht Hi. pose proof (keys_differ name key) as Hne.
  assert (Hne' : ((redisKey name key) =? (blockKey name key))%string = false)
    by (apply String.eqb_neq; congruence).
  unfold counted, increment, Redis.exists_ in *.
  remember (redisKey name key) as rk eqn:Erk.
  remember (blockKey name key) as bk eqn:Ebk. clear Erk Ebk.
  destruct C as [c [Hc [Hci [Hlow Hhigh]]]].
  destruct (Redis.live t db bk) as [blk|] eqn:Hblk; cbn [negb Z.eqb fst snd].
  - (* blocked: only possible above the limit *)
    assert (Hover : limit < i).
    { destruct (Z.lt_ge_cases limit i) as [|Hle]; [assumption|].
      destruct (Hlow Hle) as [_ Hnone].
      rewrite (Hnone t (proj1 Ht)) in Hblk. discriminate. }
    split.
    + exists c. repeat split; try lia; auto.
    + eexists. split; [reflexivity|]. cbn.
      destruct (Z.ltb_spec limit (i + 1)); [|lia].
      split; [reflexivity | discriminate].
  - assert (Hlive : Redis.live t db rk
                    = Some {| Redis.value := c;
                              Redis.expires := Some (t0 + ttl * 1000) |}).
    { unfold Redis.live. rewrite Hc. cbn [Redis.expires].
      destruct (Z.ltb_spec (t0 + ttl * 1000) t); [lia | reflexivity]. }
    unfold Redis.incr. rewrite Hlive. cbn [Redis.value Redis.expires].
    destruct (Z.eqb_spec c 9223372036854775807) as [|_]; [lia|].
    destruct (Z.eqb_spec (c + 1) 1) as [|_]; [lia|].
    unfold Redis.set_px.
    destruct (Z.leb_spec (blockDuration * 1000) 0) as [|_]; [lia|].
    destruct (Z.ltb_spec limit (c + 1)) as [Hl|Hl]; cbn [fst snd].
    + assert (Hover : limit < i + 1) by lia.
      split.
      * exists (c + 1). split.
        -- unfold Redis.write. now rewrite Hne', String.eqb_refl.
        -- repeat split; try lia.
      * eexists. split; [reflexivity|]. cbn.
        destruct (Z.ltb_spec limit (i + 1)); [|lia].
        split; [reflexivity | discriminate].
    + assert (Hle : i <= limit).
      { destruct (Z.lt_ge_cases limit i) as [Hlt|]; [|assumption].
        specialize (Hhigh Hlt). lia. }
      destruct (Hlow Hle) as [-> Hnone].
      split.
      * exists (i + 1). split.
        -- unfold Redis.write. now rewrite String.eqb_refl.
        -- repeat split; try lia.
           intros t' Ht'. rewrite live_write_other by exact Hne. auto.
      * eexists. split; [reflexivity|]. cbn.
        destruct (Z.ltb_spec limit (i + 1)); [lia|].
        split; reflexivity.
Qed.

Lemma hits_counted name key t0 ttl limit blockDuration times :
  0 < blockDuration ->
  Forall (fun t => t0 <= t <= t0 + ttl * 1000) times ->
  forall i db,
    counted name key t0 ttl limit i db ->
    i + Z.of_nat (List.length times) <= 9223372036854775807 ->
    forall j r,
      nth_error (hits times key ttl limit blockDuration name db) j = Some r ->
      exists rec,
        r = Some rec
        /\ LocalThrottlerStorageRecord.isBlocked rec
           = (limit <? i + Z.of_nat (S j))
        /\ (LocalThrottlerStorageRecord.isBlocked rec = false ->
            LocalThrottlerStorageRecord.totalHits rec = i + Z.of_nat (S j)).
Proof.
  intros Hbd. induction 1 as [|t times Ht _ IH]; intros i db C Hn j r Hj.
  - destruct j; discriminate.
  - cbn [List.length] in Hn. cbn [hits] in Hj.
    destruct (next_hit name key t0 ttl limit blockDuration i t db Hbd C Ht)
      as [C' [rec [Hrec [Hblk Htot]]]]; [lia|].
    destruct (increment t key ttl limit blockDuration name db) as [db' r0].
    cbn [fst snd] in *. destruct j as [|j]; cbn in Hj.
    + injection Hj as <-. exists rec. rewrite Hrec.
      replace (i + Z.of_nat 1) with (i + 1) by lia. auto.
    + destruct (IH (i + 1) db' C' ltac:(lia) j r Hj) as [rec' [E [B T]]].
      exists rec'.
      replace (i + Z.of_nat (S (S j))) with (i + 1 + Z.of_nat (S j)) by lia.
      auto.
Qed.

(** X25. At most [limit] hits pass per window.  When neither the counter
    nor the block of a key is in Redis at [t0], then of the calls of
    [increment] made at [t0] and, in any number, less than [ttl * 1000] ms
    later, the first [limit] return their rank as [totalHits] and are not
    blocked, and every later one is blocked, whether the block is still
    there or has run out. *)
Theorem at_most_limit_hits_per_window name key ttl limit blockDuration db t0
    times :
  0 < ttl -> 0 < blockDuration ->
  Redis.live t0 db (redisKey name key) = None ->
  Redis.live t0 db (blockKey name key) = None ->
  Forall (fun t => t0 <= t < t0 + ttl * 1000) times ->
  Z.of_nat (List.length times) < 9223372036854775807 ->
  forall i r,
    nth_error (hits (t0 :: times) key ttl limit blockDuration name db) i
    = Some r ->
    exists rec,
      r = Some rec
      /\ LocalThrottlerStorageRecord.isBlocked rec = (limit <? Z.of_nat (S i))
      /\ (LocalThrottlerStorageRecord.isBlocked rec = false ->
          LocalThrottlerStorageRecord.totalHits rec = Z.of_nat (S i)).
Proof.
  intros Httl Hbd Hr Hb Hin Hlen i r Hi. cbn [hits] in Hi.
  assert (Hin' : Forall (fun t => t0 <= t <= t0 + ttl * 1000) times).
  { eapply Forall_impl; [|exact Hin]. cbn. intros t Ht. lia. }
  destruct (first_hit name key t0 ttl limit blockDuration db Httl Hbd Hr Hb)
    as [C [rec [Hrec [Hblk Htot]]]].
  destruct (increment t0 key ttl limit blockDuration name db) as [db' r0].
  cbn [fst snd] in *. destruct i as [|i]; cbn in Hi.
  - injection Hi as <-. exists rec. rewrite Hrec. auto.
  - destruct (hits_counted name key t0 ttl limit blockDuration times Hbd Hin'
                1 db' C ltac:(lia) i r Hi) as [rec' [E [B T]]].
    exists rec'.
    replace (Z.of_nat (S (S i))) with (1 + Z.of_nat (S i)) by lia. auto.
Qed.

Lemma prefix_append (p s : string) : String.prefix p (p ++ s) = true.
Proof.
  induction p as [|c p IH]; simpl.
  - now destruct s.
  - destruct (ascii_dec c c); [exact IH | contradiction].
Qed.

(** What [increment] writes, it writes under the prefix. *)
Lemma written_keys db :
  written db -> forall k, db k <> None -> String.prefix "throttle:" k = true.
Proof.
  assert (W : forall (db : Redis.t) k0 v,
            String.prefix "throttle:" k0 = true ->
            (forall k, db k <> None -> String.prefix "throttle:" k = true) ->
            forall k, Redis.write k0 v db k <> None ->
                      String.prefix "throttle:" k = true).
  { intros db0 k0 v Hk0 H k. unfold Redis.write.
    destruct (String.eqb_spec k k0) as [->|_]; auto. }
  assert (Pr : forall name key,
            String.prefix "throttle:" (redisKey name key) = true)
    by (intros; apply (prefix_append "throttle:")).
  assert (Pb : forall name key,
            String.prefix "throttle:" (blockKey name key) = true)
    by (intros;
        apply (prefix_append "throttle:" ("block:" ++ name ++ ":" ++ key))).
  induction 1 as [|db now key ttl limit bd name Wd IH];
    [intros k []; reflexivity|].
  unfold increment, Redis.incr, Redis.pexpire, Redis.set_px.
  repeat break_goal; cbn [fst];
    repeat (apply W; [first [apply Pr | apply Pb]|]); exact IH.
Qed.

(** X26. [getRecord] does not read what [increment] counts: [increment]
    writes under ["throttle:"], so in a Redis that only [increment] wrote,
    [getRecord] of a key without that prefix returns [[0]] however often
    the key was hit. *)
Theorem getRecord_misses_the_counter db now key :
  written db ->
  String.prefix "throttle:" key = false ->
  getRecord now key db = [0].
Proof.
  intros Wd Hp. unfold getRecord, Redis.get, Redis.live.
  destruct (db key) as [en|] eqn:Hk; [|reflexivity].
  rewrite (written_keys db Wd key) in Hp; [discriminate | congruence].
Qed.

End Throttle.

(** ** Accounts that UsersService deleted or changed *)

Section Accounts.

Context {crypto : Crypto}.

Lemma find_map_replace {A} (f : A -> bool) (g : A -> A) x rows :
  (forall r, In r rows -> f (g r) = true -> g r = x) ->
  (exists t, In t rows /\ f (g t) = true) ->
  find f (map g rows) = Some x.
Proof.
  induction rows as [|a rows IH]; simpl; intros Hx [t [Hin Ht]];
    [contradiction|].
  destruct (f (g a)) eqn:Ha.
  - f_equal. apply Hx; auto.
  - apply IH; [auto|]. destruct Hin as [-> | Hin]; [congruence|]. eauto.
Qed.

(** After a [register] that returned, the lookup of [verifyEmail] by the
    digest of its token finds the pending sign-up it wrote. *)
Lemma register_pending_row e em pw fn ip ua s s1 r :
  fresh e s ->
  register e em pw fn ip ua s = (s1, Return r) ->
  users s1 = users s
  /\ exists p,
       find (fun p => (PreRegistration.verification_token_hash p
                       =? sha256 (random_hex e))%string)
            (pre_registrations s1) = Some p
       /\ PreRegistration.email p = toLowerCase em
       /\ PreRegistration.expires_at p = now e + 60 * 60 * 1000.
Proof.
  intros F. pose proof (fresh_not_pending e s F) as NP.
  run_service; intros Hrun; try discriminate; injection Hrun as <- _.
  all: try match goal with
       | H : find _ (pre_registrations _) = Some _ |- _ =>
           apply find_some in H; destruct H as [Hin Hem];
           apply String.eqb_eq in Hem
       end.
  all: split; [reflexivity|]; cbn.
  all: eexists; split;
    [ first
        [ rewrite find_app_skip;
          [ cbn; rewrite String.eqb_refl; reflexivity
          | intros q Hq; apply String.eqb_neq; intros Hh; apply NP;
            rewrite <- Hh; now apply in_map ]
        | unfold save_row; apply find_map_replace;
          [ intros q Hq; cbn;
            destruct (PreRegistration.id q =? PreRegistration.id t)%nat;
            [ reflexivity
            | intros Hh; apply String.eqb_eq in Hh; exfalso; apply NP;
              rewrite <- Hh; now apply in_map ]
          | exists t; split; [exact Hin|]; cbn;
            rewrite Nat.eqb_refl; cbn; apply String.eqb_refl ] ]
    | cbn; auto ].
Qed.

(** X27. The email of a soft-deleted account cannot sign up again, though
    [register] accepts it: when every user that holds the email is
    soft-deleted, [register] sees no account and, if the mail is sent,
    returns; but [verifyEmail] with the mailed token then throws Internal
    [Failed to create user], at any time within the hour and however
    often, because the deleted row still holds the unique email.  Nothing
    is written and the pending sign-up stays. *)
Theorem deleted_email_cannot_sign_up e em pw fn ip ua s :
  fresh e s ->
  (exists u, In u (users s) /\ User.email u = toLowerCase em) ->
  (forall u, In u (users s) -> User.email u = toLowerCase em ->
             User.deleted_at u <> None) ->
  (mail_fails e = false ->
   exists s1 r, register e em pw fn ip ua s = (s1, Return r))
  /\ forall s1 r,
       register e em pw fn ip ua s = (s1, Return r) ->
       forall e2, now e2 <= now e + 3600000 ->
         verifyEmail e2 (random_hex e) s1
         = (s1, Throw (InternalServerErrorException "Failed to create user")).
Proof.
  intros F [u0 [Hu0 Hem0]] Hdel.
  assert (Hnone : find (fun u => is_null (User.deleted_at u)
                                 && (User.email u =? toLowerCase em)%string)
                       (users s) = None).
  { destruct (find _ (users s)) as [u|] eqn:Hf; [|reflexivity].
    apply find_some in Hf. destruct Hf as [Hu Hp].
    apply andb_true_iff in Hp. destruct Hp as [Hn He].
    apply String.eqb_eq in He. exfalso. apply (Hdel u Hu He).
    destruct (User.deleted_at u); [discriminate | reflexivity]. }
  split.
  - intros Hmail. unfold register, findByEmail, bind, gets. rewrite Hnone.
    run_service; try congruence; unfold ret; eauto.
  - intros s1 r Hrun e2 Hnow.
    destruct (register_pending_row _ _ _ _ _ _ _ _ _ F Hrun)
      as [Eus [p [Hf [Hem Hexp]]]].
    unfold verifyEmail, bind, gets. rewrite Hf.
    destruct (Z.ltb_spec (PreRegistration.expires_at p) (now e2)); [lia|].
    unfold createUser, findByEmail, bind, gets. rewrite Hem, Eus, Hnone.
    unfold try_catch, userRepository_save, bind, gets, rejecting.
    rewrite Eus.
    assert (Htaken : existsb (fun u => (User.email u =? toLowerCase em)%string)
                       (users s) = true).
    { apply existsb_exists. exists u0. split; [exact Hu0|].
      now apply String.eqb_eq. }
    rewrite Htaken, orb_true_r. reflexivity.
Qed.

Lemma find_same_profile_email (em : string) us us' u :
  Forall2 same_profile us us' ->
  find (fun u => is_null (User.deleted_at u) && (User.email u =? em)%string) us
  = Some u ->
  forall new, exists u',
    find (fun u => is_null (User.deleted_at u) && (User.email u =? em)%string)
         (us' ++ new) = Some u'
    /\ same_profile u u'.
Proof.
  induction 1 as [|v v' l l' P _ IH]; simpl; [discriminate|].
  assert (Same : (is_null (User.deleted_at v') && (User.email v' =? em)%string)
                 = (is_null (User.deleted_at v) && (User.email v =? em)%string)).
  { destruct P as [_ [-> [_ [_ [_ [_ ->]]]]]]. reflexivity. }
  rewrite Same.
  destruct (is_null (User.deleted_at v) && (User.email v =? em)%string).
  - intros H new. injection H as <-. eauto.
  - exact IH.
Qed.

(** X28. An account whose email is unverified, as [updateUser] leaves it
    after a change of email, is locked out for good: after any further
    calls of the service, [login] with its email throws Unauthorized
    [Email not verified] whatever the password, [requestPasswordReset]
    returns its generic message without creating a token, and [register]
    for the email throws the Conflict.  No method of the service verifies
    an existing user. *)
Theorem unverified_account_is_locked_out em s u :
  find (fun u => is_null (User.deleted_at u)
                 && (User.email u =? toLowerCase em)%string) (users s)
  = Some u ->
  User.is_email_verified u = false ->
  forall s', later s s' ->
  forall e pw d ip ua fn,
    login e em pw d ip ua s'
    = (s', Throw (UnauthorizedException "Email not verified"))
    /\ requestPasswordReset e em s' = (s', Return (Message frontendMessage))
    /\ register e em pw fn ip ua s'
       = (s', Throw (ConflictException "Email already in use")).
Proof.
  intros Hf Hv s' L.
  assert (Q : exists u',
             find (fun u => is_null (User.deleted_at u)
                            && (User.email u =? toLowerCase em)%string)
                  (users s') = Some u'
             /\ User.is_email_verified u' = false).
  { induction L as [|s s' e c L IH F]; [eauto|].
    destruct (IH Hf) as [u1 [Hf1 Hv1]].
    destruct (users_shape e c s') as [old' [new [E T]]].
    destruct (find_same_profile_email _ _ _ _ T Hf1 new) as [u2 [Hf2 P]].
    exists u2. rewrite E. split; [exact Hf2|].
    destruct P as [_ [_ [_ [-> _]]]]. exact Hv1. }
  destruct Q as [u' [Hf' Hv']].
  intros e pw d ip ua fn.
  unfold login, requestPasswordReset, register, findByEmail, bind, gets.
  rewrite Hf', Hv'. repeat split.
Qed.

End Accounts.

(** ** The flows at the scenario *)

Section FlowInstances.

Local Existing Instance toy_crypto.

Lemma s_logged_out_careful : reachable_under careful s_logged_out.
Proof.
  unfold s_logged_out. apply reach_call; [apply s_logged_in_careful|].
  split; [apply freshb_fresh; vm_compute; reflexivity | reflexivity].
Qed.

(** X4 at the scenario: a refresh token nobody holds, after the login. *)
Lemma exceptions_by_method_witness :
  snd (call (env_at 4000 "r2") (RefreshTokens "r0" "dev1") s_logged_in)
  = Throw (UnauthorizedException "Invalid or revoked refresh token")
  /\ (UnauthorizedException "Invalid or revoked refresh token"
      = QueryFailedError
      \/ may_throw (RefreshTokens "r0" "dev1")
           (UnauthorizedException "Invalid or revoked refresh token") = true).
Proof.
  split; [vm_compute; reflexivity|].
  apply (exceptions_by_method s_logged_in
           (careful_unconstrained _ s_logged_in_careful)
           (env_at 4000 "r2") (RefreshTokens "r0" "dev1")).
  vm_compute. reflexivity.
Defined.

(** X5 at the scenario: the token of the login on dev1, on other devices. *)
Lemma refresh_token_bound_to_device_witness :
  exists a,
    Tokens "jwt.dev1" "r1" 900 = Tokens a "r1" 900
    /\ forall e2 d2, d2 <> "dev1"%string ->
         refreshTokens e2 "r1" d2 s_logged_in
         = (s_logged_in,
            Throw (UnauthorizedException "Invalid or revoked refresh token")).
Proof.
  apply (refresh_token_bound_to_device (env_at 3000 "r1") "a@x.com" "pw12345"
           "dev1" "10.0.0.1" "ua" s_verified s_logged_in
           (Tokens "jwt.dev1" "r1" 900)).
  - apply freshb_fresh. vm_compute. reflexivity.
  - vm_compute. reflexivity.
Defined.

(** X6 at the scenario: the token of the login at 3000, on its last
    millisecond and on the next one. *)
Lemma refresh_token_lives_seven_days_witness :
  (exists s2 a2,
     refreshTokens (env_at 604803000 "r2") "r1" "dev1" s_logged_in
     = (s2, Return (Refreshed true "Tokens refreshed successfully"
                      a2 "r2" 900)))
  /\ refreshTokens (env_at 604803001 "r2") "r1" "dev1" s_logged_in
     = (s_logged_in, Throw (UnauthorizedException "Refresh token expired")).
Proof.
  assert (F : fresh (env_at 3000 "r1") s_verified)
    by (apply freshb_fresh; vm_compute; reflexivity).
  assert (L : login (env_at 3000 "r1") "a@x.com" "pw12345" "dev1" "10.0.0.1"
                "ua" s_verified
              = (s_logged_in, Return (Tokens "jwt.dev1" "r1" 900)))
    by (vm_compute; reflexivity).
  split.
  - apply (proj1 (refresh_token_lives_seven_days _ _ _ _ _ _ _ _ _ F L
                    (env_at 604803000 "r2"))).
    vm_compute. discriminate.
  - apply (proj2 (refresh_token_lives_seven_days _ _ _ _ _ _ _ _ _ F L
                    (env_at 604803001 "r2"))).
    vm_compute. reflexivity.
Defined.

(** X7 at the scenario: the token r2 that the rotation at 4000 returned. *)
Lemma rotated_token_is_usable_witness :
  exists a,
    Refreshed true "Tokens refreshed successfully" "jwt.dev1" "r2" 900
    = Refreshed true "Tokens refreshed successfully" a "r2" 900
    /\ forall e2,
         (now e2 <= 604804000 ->
          exists s2 a2,
            refreshTokens e2 "r2" "dev1" s_rotated
            = (s2, Return (Refreshed true "Tokens refreshed successfully"
                             a2 (random_hex e2) 900)))
         /\ forall d2, d2 <> "dev1"%string ->
              refreshTokens e2 "r2" d2 s_rotated
              = (s_rotated,
                 Throw (UnauthorizedException
                          "Invalid or revoked refresh token")).
Proof.
  apply (rotated_token_is_usable (env_at 4000 "r2") "r1" "dev1" s_logged_in
           s_rotated
           (Refreshed true "Tokens refreshed successfully" "jwt.dev1" "r2" 900)).
  - apply freshb_fresh. vm_compute. reflexivity.
  - vm_compute. reflexivity.
Defined.

(** X8 at the scenario: the token r1 after the logout at 4000. *)
Lemma logout_ends_session_witness :
  refreshTokens (env_at 4005 "r3") "r1" "dev1" s_logged_out
  = (s_logged_out,
     Throw (UnauthorizedException "Invalid or revoked refresh token")).
Proof.
  apply (logout_ends_session (env_at 4000 "x1") "r1" s_logged_in s_logged_out
           (Message "Logged out successfully")).
  - exact (careful_reachable _ s_logged_in_careful).
  - vm_compute. reflexivity.
  - apply later_refl.
Defined.

(** X9 at the scenario: the link mailed to A@x.com at 1000. *)
Lemma verification_link_round_trip_witness :
  In (VerificationEmail "A@x.com" "v1") (outbox s_registered)
  /\ (exists s2 u,
        verifyEmail (env_at 3601000 "v2") "v1" s_registered
        = (s2, Return (Success true "Email successfully verified"))
        /\ users s2 = [u]
        /\ User.email u = "a@x.com"%string
        /\ User.is_email_verified u = true
        /\ User.password_hash u = "$2a$12$pw12345"%string)
  /\ verifyEmail (env_at 3601001 "v2") "v1" s_registered
     = (s_registered, Throw (ConflictException "Token expired")).
Proof.
  assert (R : reachable empty_store) by apply reach_empty.
  assert (F : fresh (env_at 1000 "v1") empty_store)
    by (apply freshb_fresh; vm_compute; reflexivity).
  assert (G : register (env_at 1000 "v1") "A@x.com" "pw12345" (Some "A")
                "10.0.0.1" "ua" empty_store
              = (s_registered, Return (Message "Verification email sent")))
    by (vm_compute; reflexivity).
  pose proof (verification_link_round_trip _ _ _ _ _ _ _ _ _ R F G) as [M V].
  split; [exact M|]. split.
  - apply (proj1 (V (env_at 3601000 "v2"))).
    + vm_compute. discriminate.
    + reflexivity.
  - apply (proj2 (V (env_at 3601001 "v2"))). vm_compute. reflexivity.
Defined.

(** X10 at the scenario: logging in as a@X.COM before and after the
    verification. *)
Lemma signup_then_login_witness :
  (forall e3 d ip3 ua3,
     snd (login e3 "a@X.COM" "pw12345" d ip3 ua3 s_registered)
     = Throw (UnauthorizedException "Invalid credentials"))
  /\ exists s2,
       verifyEmail (env_at 2000 "v2") "v1" s_registered
       = (s2, Return (Success true "Email successfully verified"))
       /\ forall e3 d ip3 ua3,
            exists s3 a,
              login e3 "a@X.COM" "pw12345" d ip3 ua3 s2
              = (s3, Return (Tokens a (random_hex e3) 900)).
Proof.
  assert (R : reachable empty_store) by apply reach_empty.
  assert (F : fresh (env_at 1000 "v1") empty_store)
    by (apply freshb_fresh; vm_compute; reflexivity).
  assert (G : register (env_at 1000 "v1") "A@x.com" "pw12345" (Some "A")
                "10.0.0.1" "ua" empty_store
              = (s_registered, Return (Message "Verification email sent")))
    by (vm_compute; reflexivity).
  assert (B : bcrypt_compare "pw12345"
                (bcrypt_hash (salt (env_at 1000 "v1")) "pw12345") = true)
    by (vm_compute; reflexivity).
  assert (C : toLowerCase "a@X.COM" = toLowerCase "A@x.com")
    by (vm_compute; reflexivity).
  pose proof (signup_then_login _ _ _ _ _ _ _ _ _ R F G B "a@X.COM" C)
    as [Before After].
  split; [exact Before|].
  apply (After (env_at 2000 "v2")).
  - vm_compute. discriminate.
  - reflexivity.
Defined.

(** X11 at the scenario: a second registration at 1500 replaces the link
    of the first. *)
Lemma reregistration_replaces_link_witness :
  verifyEmail (env_at 1600 "v4") "v1"
    (exec (env_at 1500 "v3")
       (Register "a@X.com" "pw67890" None "10.0.0.2" "ua") s_registered)
  = (exec (env_at 1500 "v3")
       (Register "a@X.com" "pw67890" None "10.0.0.2" "ua") s_registered,
     Throw (ConflictException "Invalid or expired token")).
Proof.
  apply (reregistration_replaces_link (env_at 1000 "v1") "A@x.com" "pw12345"
           (Some "A") "10.0.0.1" "ua" empty_store s_registered
           (Message "Verification email sent")
           (env_at 1500 "v3") "a@X.com" "pw67890" None "10.0.0.2" "ua").
  - apply reach_empty.
  - apply freshb_fresh. vm_compute. reflexivity.
  - vm_compute. reflexivity.
  - apply freshb_fresh. vm_compute. reflexivity.
  - vm_compute. reflexivity.
Defined.

(** X12 at the scenario: a wrong password for a@x.com. *)
Lemma failed_login_effects_witness :
  refresh_tokens
    (fst (login (env_at 3000 "r1") "a@x.com" "wrong" "dev1" "10.0.0.1" "ua"
            s_verified))
  = refresh_tokens s_verified
  /\ auditQueue
       (fst (login (env_at 3000 "r1") "a@x.com" "wrong" "dev1" "10.0.0.1" "ua"
               s_verified))
     = auditQueue s_verified ++ [{| action := LOGIN_FAILED; userId := None |}].
Proof.
  assert (T : snd (login (env_at 3000 "r1") "a@x.com" "wrong" "dev1"
                     "10.0.0.1" "ua" s_verified)
              = Throw (UnauthorizedException "Invalid credentials"))
    by (vm_compute; reflexivity).
  pose proof (failed_login_effects _ _ _ _ _ _ _ _ T) as H.
  cbv zeta in H. destruct H as [_ [_ [Hr [_ [_ Hm]]]]].
  split; [exact Hr|]. exact (proj2 (proj2 Hm)).
Defined.

(** X13 at the scenario: the reset requested at 5000 is redeemed at 6000,
    then the new password logs in. *)
Lemma reset_round_trip_witness :
  exists s2,
    resetPassword (env_at 6000 "x2") "p1" "newpw123" s_reset_requested
    = (s2, Return (Message
         "Your password has been reset successfully. Please log in with your new password."))
    /\ forall e3 d ip ua,
         exists s3 a,
           login e3 "a@x.com" "newpw123" d ip ua s2
           = (s3, Return (Tokens a (random_hex e3) 900)).
Proof.
  apply (reset_round_trip (env_at 5000 "p1") "a@x.com" s_logged_in
           s_reset_requested (Message frontendMessage)).
  - apply freshb_fresh. vm_compute. reflexivity.
  - vm_compute. reflexivity.
  - vm_compute. reflexivity.
  - vm_compute. discriminate.
  - reflexivity.
  - vm_compute. reflexivity.
Defined.

(** X14 at the scenario: the link of 5000 on its last millisecond and on
    the next one. *)
Lemma reset_link_lifetime_witness :
  verifyResetToken (env_at 905000 "x2") "p1" s_reset_requested
  = (s_reset_requested, Return (ValidReset true "a@x.com"))
  /\ verifyResetToken (env_at 905001 "x2") "p1" s_reset_requested
     = (s_reset_requested,
        Throw (UnauthorizedException
                 "This reset link has expired. Please request a new one.")).
Proof.
  assert (R : reachable_under unconstrained s_logged_in)
    by exact (careful_unconstrained _ s_logged_in_careful).
  assert (F : fresh (env_at 5000 "p1") s_logged_in)
    by (apply freshb_fresh; vm_compute; reflexivity).
  assert (I : reset_issued "A@x.com" s_logged_in = true)
    by (vm_compute; reflexivity).
  assert (Q : requestPasswordReset (env_at 5000 "p1") "A@x.com" s_logged_in
              = (s_reset_requested, Return (Message frontendMessage)))
    by (vm_compute; reflexivity).
  split.
  - apply (proj1 (reset_link_lifetime _ _ _ _ _ R F I Q (env_at 905000 "x2"))).
    vm_compute. discriminate.
  - apply (proj2 (reset_link_lifetime _ _ _ _ _ R F I Q (env_at 905001 "x2"))).
    vm_compute. reflexivity.
Defined.

(** X15 at the scenario: a second request at 6000 replaces the link p1. *)
Lemma new_request_invalidates_link_witness :
  verifyResetToken (env_at 7000 "x3") "p1"
    (exec (env_at 6000 "p2") (RequestPasswordReset "A@X.com") s_reset_requested)
  = (exec (env_at 6000 "p2") (RequestPasswordReset "A@X.com") s_reset_requested,
     Throw (UnauthorizedException
              "This reset link is invalid or has already been used.")).
Proof.
  assert (F1 : fresh (env_at 5000 "p1") s_logged_in)
    by (apply freshb_fresh; vm_compute; reflexivity).
  assert (I : reset_issued "a@x.com" s_logged_in = true)
    by (vm_compute; reflexivity).
  assert (Q : requestPasswordReset (env_at 5000 "p1") "a@x.com" s_logged_in
              = (s_reset_requested, Return (Message frontendMessage)))
    by (vm_compute; reflexivity).
  assert (F2 : fresh (env_at 6000 "p2") s_reset_requested)
    by (apply freshb_fresh; vm_compute; reflexivity).
  assert (C : toLowerCase "A@X.com" = toLowerCase "a@x.com")
    by (vm_compute; reflexivity).
  exact (proj1 (new_request_invalidates_link _ _ _ _ _ _ _ F1 I Q F2 eq_refl C
                  (env_at 7000 "x3"))).
Defined.

(** X21 at the scenario: the access token of user 1 after logoutAll. *)
Lemma access_token_outlives_calls_witness :
  JwtStrategy.validate
    {| JwtPayload.sub := 1%nat; JwtPayload.roles := [CUSTOMER];
       JwtPayload.device_id := "dev1" |}
    (exec (env_at 4000 "x1") (LogoutAll 1%nat) s_logged_in)
  = (exec (env_at 4000 "x1") (LogoutAll 1%nat) s_logged_in,
     Return {| RequestUser.id := 1%nat; RequestUser.email := "a@x.com";
               RequestUser.roles := [CUSTOMER];
               RequestUser.device_id := "dev1" |}).
Proof.
  apply access_token_outlives_calls. vm_compute. reflexivity.
Defined.

(** X22 at the scenario: a payload that claims ADMIN for user 1. *)
Lemma sign_up_grants_customer_only_witness :
  RolesGuard.canActivate (Some [ADMIN])
    (Some {| RequestUser.id := 1%nat; RequestUser.email := "a@x.com";
             RequestUser.roles := [CUSTOMER];
             RequestUser.device_id := "dev1" |})
  = RolesGuard.Forbidden "Access denied. Requires role: ADMIN".
Proof.
  apply (proj2 (sign_up_grants_customer_only
                  {| JwtPayload.sub := 1%nat; JwtPayload.roles := [ADMIN];
                     JwtPayload.device_id := "dev1" |}
                  s_logged_in s_logged_in _ [ADMIN]
                  (careful_unconstrained _ s_logged_in_careful)
                  ltac:(vm_compute; reflexivity))).
Defined.

(** X20 at the scenario: a wrong password, and a token nobody holds. *)
Lemma session_endpoint_failures_witness :
  reply 4000 "/api/auth/login"
    (snd (AuthController.login (env_at 4000 "r2") "" "a@x.com" "wrong" "dev1"
            None None s_logged_in))
  = Failure {| ErrorBody.statusCode := 401; ErrorBody.success := false;
               ErrorBody.timestamp := 4000;
               ErrorBody.path := "/api/auth/login";
               ErrorBody.message := "Invalid credentials" |}.
Proof.
  pose proof (session_endpoint_failures s_logged_in (env_at 4000 "r2") ""
                4000 "/api/auth/login"
                (careful_unconstrained _ s_logged_in_careful)) as H.
  cbv zeta in H. destruct H as [_ [L _]].
  destruct (L "a@x.com" "wrong" "dev1" None None)%string
    as [[a Ha] | [Hb | [Hc | Hd]]].
  - vm_compute in Ha. discriminate.
  - exact Hb.
  - vm_compute in Hc. discriminate.
  - vm_compute in Hd. discriminate.
Defined.

(** X25 at an empty Redis: four calls in one minute with a limit of two. *)
Lemma at_most_limit_hits_per_window_witness :
  exists rec,
    nth_error
      (RedisThrottlerStorage.hits [0; 10; 20; 30] "k" 60 2 60 "default"
         Redis.empty) 2
    = Some (Some rec)
    /\ LocalThrottlerStorageRecord.isBlocked rec = true.
Proof.
  destruct (nth_error
              (RedisThrottlerStorage.hits [0; 10; 20; 30] "k" 60 2 60
                 "default" Redis.empty) 2) as [r|] eqn:H;
    [|vm_compute in H; discriminate].
  destruct (at_most_limit_hits_per_window "default" "k" 60 2 60 Redis.empty 0
              [10; 20; 30]) with (i := 2%nat) (r := r)
    as [rec [E [B _]]].
  - lia.
  - lia.
  - reflexivity.
  - reflexivity.
  - repeat constructor; lia.
  - cbn. lia.
  - exact H.
  - exists rec. split; [now rewrite E | exact B].
Defined.

(** X26 at an empty Redis: the key k after a hit. *)
Lemma getRecord_misses_the_counter_witness :
  RedisThrottlerStorage.getRecord 5 "k"
    (fst (RedisThrottlerStorage.increment 0 "k" 60 2 60 "default" Redis.empty))
  = [0].
Proof.
  apply getRecord_misses_the_counter.
  - apply RedisThrottlerStorage.written_increment.
    apply RedisThrottlerStorage.written_empty.
  - reflexivity.
Defined.

(** X27 at the scenario: a@x.com signs up again after its deletion. *)
Lemma deleted_email_cannot_sign_up_witness :
  verifyEmail (env_at 4000 "v6") "v5"
    (exec (env_at 3000 "v5")
       (Register "a@x.com" "pw67890" None "10.0.0.2" "ua") s_deleted)
  = (exec (env_at 3000 "v5")
       (Register "a@x.com" "pw67890" None "10.0.0.2" "ua") s_deleted,
     Throw (InternalServerErrorException "Failed to create user")).
Proof.
  assert (F : fresh (env_at 3000 "v5") s_deleted)
    by (apply freshb_fresh; vm_compute; reflexivity).
  assert (U : exists u, In u (users s_deleted)
                        /\ User.email u = toLowerCase "a@x.com").
  { eexists. split; [left; reflexivity | vm_compute; reflexivity]. }
  assert (D : forall u, In u (users s_deleted) ->
                User.email u = toLowerCase "a@x.com" ->
                User.deleted_at u <> None).
  { intros u [<- | []] _. discriminate. }
  apply (proj2 (deleted_email_cannot_sign_up (env_at 3000 "v5") "a@x.com"
                  "pw67890" None "10.0.0.2" "ua" s_deleted F U D)
           _ (Message "Verification email sent")).
  - vm_compute. reflexivity.
  - vm_compute. discriminate.
Defined.

(** X28 at the scenario: the account after its email was changed. *)
Lemma unverified_account_is_locked_out_witness :
  login (env_at 3000 "r1") "b@x.com" "pw12345" "dev1" "10.0.0.1" "ua"
    s_email_changed
  = (s_email_changed, Throw (UnauthorizedException "Email not verified")).
Proof.
  refine (proj1 (unverified_account_is_locked_out "b@x.com" s_email_changed _
                   _ _ s_email_changed (later_refl _)
                   (env_at 3000 "r1") "pw12345" "dev1" "10.0.0.1" "ua" None)).
  - vm_compute. reflexivity.
  - reflexivity.
Defined.

End FlowInstances.
